(** * The notebook grader [grade_homework.py]: a shallow embedding

    The Python program extracts the code cells of a notebook, runs them in a
    child interpreter under a time limit, looks for the last
    ["Ideal point: z = [a, b]"] line the child printed, and turns the relative
    error of [a] against 0.005 into a score out of 10.

    The development follows the program top-down:
    - [F64]    Python [float]: IEEE-754 binary64 with round-to-nearest-even;
    - [Str]    text helpers ([in], decimal digits);
    - [Re]     the backtracking matcher behind [re.sub] and [re.findall];
    - [Py]     exceptions, [float()], [round()], number formatting;
    - [Json]   [json.dumps];
    - [Grader] the three functions of the script, over an explicit world that
               answers the file read and the child process;
    - [Spec]   the vocabulary of the properties;
    then the properties: rounding is monotone ([FloatFacts]), the score as a
    function of the error ([ScoreFacts]), the two patterns ([ReFacts]), runs
    of the script ([RunFacts]), the score as a function of the student value
    ([ValueFacts]), [float()] on a captured number ([ParseFacts]), the
    program line by line ([LineFacts]), the marker line ([MarkerFacts]), the
    report ([ReportFacts], [JsonFacts]), the statements of the
    specification, and further properties of the program.

    Text is a [string] of 8-bit characters read as the code points
    U+0000 .. U+00FF. *)

From Stdlib Require Import ZArith QArith Qround Qabs Qpower Lia Lqa Bool List.
From Stdlib Require Import Ascii String DecimalString.
From Stdlib Require Import Floats.PrimFloat Floats.FloatOps Floats.SpecFloat.
Import ListNotations.

Open Scope Z_scope.

(* ================================================================== *)
(** ** Python floats *)
(* ================================================================== *)

Module F64.

(** A binary64 value: not-a-number, an infinity, or the finite number
    [m * 2^e].  Every value the operations below return is canonical:
    [2^52 <= |m| < 2^53] with [-1074 <= e <= 971], or [|m| < 2^52] with
    [e = -1074].  The two zeros are identified (the grader never looks at the
    sign of a zero). *)
Inductive float : Type :=
| NaN
| Inf (neg : bool)
| Fin (m e : Z).

Definition emin : Z := -1074.

(** [2^e] for any integer exponent. *)
Definition pow2 (e : Z) : Q :=
  match e with
  | Zneg p => 1 # (2 ^ p)
  | _ => inject_Z (2 ^ e)
  end.

(** The number a finite float stands for. *)
Definition F2Q (m e : Z) : Q := inject_Z m * pow2 e.

(** [floor (log2 a)] for [a > 0]. *)
Definition ilog2 (a : Q) : Z :=
  let l := Z.log2 (Qnum a) - Z.log2 (Zpos (Qden a)) in
  if Qle_bool (pow2 l) a then l else l - 1.

(** Nearest integer, ties to the even one. *)
Definition round_half_even (q : Q) : Z :=
  let f := Qfloor q in
  match (q - inject_Z f ?= 1 # 2)%Q with
  | Lt => f
  | Gt => f + 1
  | Eq => if Z.even f then f else f + 1
  end.

(** Round a positive rational to binary64: 53 significant bits, or a
    multiple of [2^-1074] in the subnormal range; overflow gives infinity. *)
Definition rnd_pos (a : Q) : float :=
  let ex := Z.max (ilog2 a - 52) emin in
  let m := round_half_even (a * pow2 (- ex)) in
  if Qle_bool (pow2 1024) (F2Q m ex) then Inf false
  else if m =? 2 ^ 53 then Fin (2 ^ 52) (ex + 1)
  else Fin m ex.

Definition fneg (x : float) : float :=
  match x with
  | NaN => NaN
  | Inf s => Inf (negb s)
  | Fin m e => Fin (- m) e
  end.

Definition zero : float := Fin 0 emin.

(** IEEE-754 rounding of an exact result (round to nearest, ties to even). *)
Definition rnd (q : Q) : float :=
  match (q ?= 0)%Q with
  | Eq => zero
  | Gt => rnd_pos q
  | Lt => fneg (rnd_pos (- q))
  end.

Definition is_zero (x : float) : bool :=
  match x with Fin 0 _ => true | _ => false end.

Definition is_neg (x : float) : bool :=
  match x with Fin m _ => m <? 0 | Inf s => s | NaN => false end.

Definition is_finite (x : float) : bool :=
  match x with Fin _ _ => true | _ => false end.

Definition of_Z (n : Z) : float := rnd (inject_Z n).

(** [x + y], [x - y], [x * y]: the exact result, rounded. *)
Definition fadd (x y : float) : float :=
  match x, y with
  | NaN, _ | _, NaN => NaN
  | Inf a, Inf b => if Bool.eqb a b then Inf a else NaN
  | Inf a, Fin _ _ => Inf a
  | Fin _ _, Inf b => Inf b
  | Fin m1 e1, Fin m2 e2 => rnd (F2Q m1 e1 + F2Q m2 e2)
  end.

Definition fsub (x y : float) : float := fadd x (fneg y).

Definition fmul (x y : float) : float :=
  match x, y with
  | NaN, _ | _, NaN => NaN
  | Inf a, Inf b => Inf (xorb a b)
  | Inf a, Fin m _ => if m =? 0 then NaN else Inf (xorb a (m <? 0))
  | Fin m _, Inf b => if m =? 0 then NaN else Inf (xorb (m <? 0) b)
  | Fin m1 e1, Fin m2 e2 => rnd (F2Q m1 e1 * F2Q m2 e2)
  end.

(** The quotient for a divisor that is not zero (Python raises on a zero
    divisor before dividing, see [Py.truediv]). *)
Definition fdiv (x y : float) : float :=
  match x, y with
  | NaN, _ | _, NaN => NaN
  | Inf _, Inf _ => NaN
  | Inf a, Fin m _ => Inf (xorb a (m <? 0))
  | Fin _ _, Inf _ => zero
  | Fin m1 e1, Fin m2 e2 => rnd (F2Q m1 e1 / F2Q m2 e2)
  end.

Definition fabs (x : float) : float :=
  match x with
  | NaN => NaN
  | Inf _ => Inf false
  | Fin m e => Fin (Z.abs m) e
  end.

(** [x <= y] and [x < y]; any comparison with NaN is false. *)
Definition fle (x y : float) : bool :=
  match x, y with
  | NaN, _ | _, NaN => false
  | Inf true, _ => true
  | _, Inf false => true
  | Inf false, _ => false
  | _, Inf true => false
  | Fin m1 e1, Fin m2 e2 => Qle_bool (F2Q m1 e1) (F2Q m2 e2)
  end.

Definition flt (x y : float) : bool :=
  match x, y with
  | NaN, _ | _, NaN => false
  | _, _ => negb (fle y x)
  end.

(** [x != n] for a float [x] and an integer [n] (Python compares the exact
    values). *)
Definition fne_int (x : float) (n : Z) : bool :=
  match x with
  | Fin m e => negb (Qeq_bool (F2Q m e) (inject_Z n))
  | _ => true
  end.

(** The float a decimal literal of the source denotes: the nearest one. *)
Definition literal (digits : Z) (decimals : nat) : float :=
  rnd (inject_Z digits / inject_Z (10 ^ Z.of_nat decimals)).

(** Correspondence with the kernel's hardware floats, used to cross-check
    the arithmetic above on the grader's own numbers. *)
Definition to_SF (x : float) : spec_float :=
  match x with
  | NaN => S754_nan
  | Inf s => S754_infinity s
  | Fin 0 _ => S754_zero false
  | Fin (Zpos p) e => S754_finite false p e
  | Fin (Zneg p) e => S754_finite true p e
  end.

Definition to_prim (x : float) : PrimFloat.float := SF2Prim (to_SF x).

Definition of_prim (x : PrimFloat.float) : float :=
  match Prim2SF x with
  | S754_nan => NaN
  | S754_infinity s => Inf s
  | S754_zero _ => zero
  | S754_finite s p e => Fin (if s then Zneg p else Zpos p) e
  end.

End F64.

Open Scope string_scope.

(* ================================================================== *)
(** ** Text helpers *)
(* ================================================================== *)

Module Str.

(** Python's [needle in hay] on strings. *)
Fixpoint contains (needle hay : string) : bool :=
  if String.prefix needle hay then true
  else match hay with
       | EmptyString => false
       | String _ hay' => contains needle hay'
       end.

(** The first [n] characters of [s]. *)
Definition take (n : nat) (s : string) : string := substring 0 n s.

Fixpoint repeat (c : ascii) (n : nat) : string :=
  match n with
  | O => ""
  | S k => String c (repeat c k)
  end.

(** Decimal digits of a natural number, ["0"] for zero. *)
Definition of_N (n : N) : string := NilZero.string_of_uint (N.to_uint n).

(** Python's [str(n)] for an integer. *)
Definition of_Z (n : Z) : string :=
  match n with
  | Zneg p => "-" ++ of_N (Npos p)
  | _ => of_N (Z.to_N n)
  end.

(** [s.rstrip("0")] through a reversal-free fold: drop the zeros that end
    the string. *)
Fixpoint rstrip0 (s : string) : string :=
  match s with
  | EmptyString => ""
  | String c s' =>
      match rstrip0 s' with
      | EmptyString => if Ascii.eqb c "0" then "" else String c ""
      | r => String c r
      end
  end.

Definition newline : ascii := "010"%char.
Definition nl : string := String newline "".
Definition dquote : ascii := "034"%char.

End Str.

(* ================================================================== *)
(** ** Regular expressions *)
(* ================================================================== *)

Module Re.

(** The two patterns of the script are sequences of single characters and of
    greedy repetitions of one character class, with capture groups around
    such sequences.  [One p] is one character of class [p], [Many p] is
    [p*] (so [p+] is [One p; Many p]); [Open] and [Close] are the
    parentheses of a group. *)
Inductive item : Type :=
| One (p : ascii -> bool)
| Many (p : ascii -> bool)
| Open
| Close.

Definition regex : Type := list item.

(** The result of a match: the captured groups in the order they close, and
    the text left after the match. *)
Definition matched : Type := (list string * string)%type.

(** The text between the position [from] of a group's opening and the later
    position [to]. *)
Definition between (from to : string) : string :=
  Str.take (String.length from - String.length to) from.

(** Match [r] at the start of [s], as the backtracking engine does: a
    repetition takes as many characters as it can and gives them back one by
    one while the rest of the pattern fails. *)
Fixpoint match_here (r : regex) (s : string) (opens : list string)
    (caps : list string) {struct r} : option matched :=
  match r with
  | [] => Some (caps, s)
  | One p :: r' =>
      match s with
      | String c s' => if p c then match_here r' s' opens caps else None
      | EmptyString => None
      end
  | Many p :: r' =>
      (fix many (s : string) : option matched :=
         match s with
         | String c s' =>
             if p c then
               match many s' with
               | Some res => Some res
               | None => match_here r' s opens caps
               end
             else match_here r' s opens caps
         | EmptyString => match_here r' s opens caps
         end) s
  | Open :: r' => match_here r' s (s :: opens) caps
  | Close :: r' =>
      match opens with
      | o :: opens' => match_here r' s opens' (caps ++ [between o s])
      | [] => match_here r' s [] caps
      end
  end.

Definition match_at (r : regex) (s : string) : option matched :=
  match_here r s [] [].

(** [re.sub(r, repl, s)] for a replacement without group references: scan
    left to right, replace each match and continue after it.  [skip] counts
    the characters of the last match still to be passed over.  (A match of
    length zero is replaced and the character after it kept; neither pattern
    of the script can match the empty string.) *)
Fixpoint sub_scan (r : regex) (repl s : string) (skip : nat) : string :=
  match skip with
  | S k =>
      match s with
      | String _ s' => sub_scan r repl s' k
      | EmptyString => ""
      end
  | O =>
      match match_at r s with
      | Some (_, rest) =>
          repl ++
          match s with
          | EmptyString => ""
          | String c s' =>
              match String.length s - String.length rest with
              | O => String c (sub_scan r repl s' 0)
              | S k => sub_scan r repl s' k
              end
          end
      | None =>
          match s with
          | EmptyString => ""
          | String c s' => String c (sub_scan r repl s' 0)
          end
      end
  end%nat.

Definition sub (r : regex) (repl s : string) : string := sub_scan r repl s 0.

(** [re.findall(r, s)]: the groups of every match, left to right, matches
    not overlapping. *)
Fixpoint findall_scan (r : regex) (s : string) (skip : nat)
    : list (list string) :=
  match skip with
  | S k =>
      match s with
      | String _ s' => findall_scan r s' k
      | EmptyString => []
      end
  | O =>
      match match_at r s with
      | Some (caps, rest) =>
          caps ::
          match s with
          | EmptyString => []
          | String _ s' =>
              findall_scan r s' (String.length s - String.length rest - 1)
          end
      | None =>
          match s with
          | EmptyString => []
          | String _ s' => findall_scan r s' 0
          end
      end
  end%nat.

Definition findall (r : regex) (s : string) : list (list string) :=
  findall_scan r s 0.

(** *** Character classes *)

(** [.] without DOTALL: anything but a line feed. *)
Definition dot (c : ascii) : bool := negb (Ascii.eqb c Str.newline).

(** [[0-9.]] *)
Definition digit_or_dot (c : ascii) : bool :=
  let n := N_of_ascii c in
  ((48 <=? n) && (n <=? 57) || (n =? 46))%N.

(** [\s] on text: the white space of U+0000 .. U+00FF. *)
Definition space (c : ascii) : bool :=
  let n := N_of_ascii c in
  ((9 <=? n) && (n <=? 13) || (28 <=? n) && (n <=? 32)
   || (n =? 133) || (n =? 160))%N.

(** Lower case of an ASCII letter. *)
Definition lower (c : ascii) : ascii :=
  let n := N_of_ascii c in
  if ((65 <=? n) && (n <=? 90))%N then ascii_of_N (n + 32) else c.

(** A literal character, and the same under IGNORECASE. *)
Definition chr (c : ascii) : ascii -> bool := Ascii.eqb c.
Definition chr_i (c : ascii) : ascii -> bool :=
  fun x => Ascii.eqb (lower x) (lower c).

(** A literal stretch of pattern text. *)
Definition lit (s : string) : regex :=
  map (fun c => One (chr c)) (list_ascii_of_string s).
Definition lit_i (s : string) : regex :=
  map (fun c => One (chr_i c)) (list_ascii_of_string s).

(** [p+] *)
Definition plus (p : ascii -> bool) : regex := [One p; Many p].

(** [( r )] *)
Definition group (r : regex) : regex := Open :: r ++ [Close].

End Re.

(* ================================================================== *)
(** ** Python values, exceptions and built-ins *)
(* ================================================================== *)

Module Py.

Import F64.

(** Exceptions, all of them subclasses of [Exception] ([Other] stands for
    every class the script does not name); [exn_str] is [str(e)]. *)
Inductive exn_class : Type :=
| ValueError
| IndexError
| ZeroDivisionError
| OverflowError
| TimeoutExpired
| Other.

Record exn : Type := { exn_cls : exn_class; exn_str : string }.

Definition is_a (c : exn_class) (e : exn) : bool :=
  match c, exn_cls e with
  | ValueError, ValueError | IndexError, IndexError
  | ZeroDivisionError, ZeroDivisionError | OverflowError, OverflowError
  | TimeoutExpired, TimeoutExpired | Other, Other => true
  | _, _ => false
  end.

(** A pure computation that returns or raises. *)
Inductive result (A : Type) : Type :=
| Ok (a : A)
| Raise (e : exn).
Arguments Ok {A} a.
Arguments Raise {A} e.

Definition rbind {A B : Type} (r : result A) (k : A -> result B) : result B :=
  match r with
  | Ok a => k a
  | Raise e => Raise e
  end.

(** [try: body  except (classes...): handler] *)
Definition try_except {A : Type} (body : result A) (caught : exn -> bool)
    (handler : exn -> result A) : result A :=
  match body with
  | Ok a => Ok a
  | Raise e => if caught e then handler e else Raise e
  end.

(** An [int] or a [float]: the script's [score] is the integer [0] on the
    error paths and a float after grading. *)
Inductive number : Type :=
| Int (n : Z)
| Float (x : float).

(** *** Indexing *)

(** [l[-1]] *)
Definition last_item {A : Type} (l : list A) : result A :=
  match rev l with
  | x :: _ => Ok x
  | [] => Raise {| exn_cls := IndexError; exn_str := "list index out of range" |}
  end.

(** [t[0]] *)
Definition item0 {A : Type} (t : list A) : result A :=
  match t with
  | x :: _ => Ok x
  | [] => Raise {| exn_cls := IndexError; exn_str := "tuple index out of range" |}
  end.

(** *** [float(s)] *)

Definition is_digit (c : ascii) : bool :=
  let n := N_of_ascii c in ((48 <=? n) && (n <=? 57))%N.

Definition digit_val (c : ascii) : Z := Z.of_N (N_of_ascii c) - 48.

(** The leading digits of [s] and what follows them. *)
Fixpoint span_digits (s : string) : string * string :=
  match s with
  | String c s' =>
      if is_digit c then let '(d, r) := span_digits s' in (String c d, r)
      else ("", s)
  | EmptyString => ("", "")
  end.

(** The number a string of digits reads as. *)
Fixpoint digits_val (acc : Z) (s : string) : Z :=
  match s with
  | String c s' => digits_val (10 * acc + digit_val c) s'
  | EmptyString => acc
  end.

Definition is_py_space (c : ascii) : bool :=
  let n := N_of_ascii c in (((9 <=? n) && (n <=? 13)) || (n =? 32))%N.

Fixpoint lstrip (s : string) : string :=
  match s with
  | String c s' => if is_py_space c then lstrip s' else s
  | EmptyString => ""
  end.

Fixpoint rstrip (s : string) : string :=
  match s with
  | EmptyString => ""
  | String c s' =>
      match rstrip s' with
      | EmptyString => if is_py_space c then "" else String c ""
      | r => String c r
      end
  end.

Fixpoint lower_str (s : string) : string :=
  match s with
  | String c s' => String (Re.lower c) (lower_str s')
  | EmptyString => ""
  end.

Definition take_sign (s : string) : bool * string :=
  match s with
  | String "-" s' => (true, s')
  | String "+" s' => (false, s')
  | _ => (false, s)
  end.

(** [10^k] for any integer [k]. *)
Definition pow10 (k : Z) : Q :=
  match k with
  | Zneg p => 1 # (10 ^ p)
  | _ => inject_Z (10 ^ k)
  end.

Definition could_not_convert : exn :=
  {| exn_cls := ValueError; exn_str := "could not convert string to float" |}.

(** The exact value of the text of a decimal number, [None] when the text is
    not one: digits with at most one point and at least one digit, then
    perhaps an exponent. *)
Definition decimal_value (s : string) : option Q :=
  let '(ip, s1) := span_digits s in
  let '(fp, s2) :=
    match s1 with
    | String "." t => span_digits t
    | _ => ("", s1)
    end in
  if ((String.length ip + String.length fp)%nat =? 0)%nat then None
  else
    let mant := digits_val 0 (ip ++ fp) in
    let scale := - Z.of_nat (String.length fp) in
    match s2 with
    | EmptyString => Some (inject_Z mant * pow10 scale)%Q
    | String c t =>
        if Ascii.eqb (Re.lower c) "e" then
          let '(eneg, t1) := take_sign t in
          let '(ed, t2) := span_digits t1 in
          match ed, t2 with
          | String _ _, EmptyString =>
              let ev := digits_val 0 ed in
              Some (inject_Z mant * pow10 (scale + (if eneg then - ev else ev)))%Q
          | _, _ => None
          end
        else None
    end.

(** [float(s)] on text: white space around the number is dropped, a sign
    may lead, [inf], [infinity] and [nan] are read in any case, and a
    decimal number converts to the nearest float (a huge one to infinity).
    Anything else raises [ValueError].  (Underscores between digits, which
    [float] also accepts, are not modelled; the grader only ever passes a
    run of digits and points.) *)
Definition float_of_str (s : string) : result float :=
  let '(neg, body) := take_sign (rstrip (lstrip s)) in
  let signed (x : float) := if neg then fneg x else x in
  let name := lower_str body in
  if (String.eqb name "inf" || String.eqb name "infinity")%bool
  then Ok (signed (Inf false))
  else if String.eqb name "nan" then Ok NaN
  else match decimal_value body with
       | Some q => Ok (signed (rnd q))
       | None => Raise could_not_convert
       end.

(** *** [x / y] and [round(x, ndigits)] *)

Definition truediv (x y : float) : result float :=
  if is_zero y
  then Raise {| exn_cls := ZeroDivisionError; exn_str := "float division by zero" |}
  else Ok (fdiv x y).

(** [round(x, ndigits)] for a float: the decimal number with [ndigits]
    digits after the point nearest to the exact value of [x] (ties to even),
    converted back to a float. *)
Definition round_ndigits (x : float) (ndigits : Z) : result float :=
  match x with
  | Fin m e =>
      if (323 <? ndigits)%Z then Ok x
      else if (ndigits <? -308)%Z then Ok zero
      else
        let r := rnd (inject_Z (round_half_even (F2Q m e * pow10 ndigits))
                      * pow10 (- ndigits)) in
        if is_finite r then Ok r
        else Raise {| exn_cls := OverflowError;
                      exn_str := "rounded value too large to represent" |}
  | _ => Ok x
  end.

(** *** Formatting *)

(** [s.rjust(n, "0")] *)
Definition zfill (n : nat) (s : string) : string :=
  Str.repeat "0" (n - String.length s) ++ s.

(** The format specification [.{prec}f]. *)
Definition format_f (prec : nat) (x : float) : string :=
  match x with
  | NaN => "nan"
  | Inf s => if s then "-inf" else "inf"
  | Fin m e =>
      let n := round_half_even (Qabs (F2Q m e) * pow10 (Z.of_nat prec)) in
      let ds := zfill (S prec) (Str.of_Z n) in
      let k := (String.length ds - prec)%nat in
      (if (m <? 0)%Z then "-" else "")
      ++ Str.take k ds
      ++ (if (prec =? 0)%nat then "" else "." ++ substring k prec ds)
  end.

(** The format specification [.{prec}%]: a hundred times the value, as a
    float, in fixed notation. *)
Definition format_pct (prec : nat) (x : float) : string :=
  format_f prec (fmul x (of_Z 100)) ++ "%".

(** [floor (log10 a)] for [a > 0]. *)
Definition ilog10 (a : Q) : Z :=
  let l := Z.of_nat (String.length (Str.of_Z (Qnum a)))
           - Z.of_nat (String.length (Str.of_Z (Zpos (Qden a)))) in
  if Qle_bool (pow10 l) a then l else l - 1.

(** The integers [d] with [d * 10^(p - n + 1)] next to [a] on either side:
    the [n]-digit decimals around [a], where [10^p <= a < 10^(p+1)]. *)
Definition neighbours (a : Q) (p : Z) (n : nat) : list Z :=
  let scaled := (a * pow10 (Z.of_nat n - 1 - p))%Q in
  let lo := Qfloor scaled in
  let hi := Qceiling scaled in
  (* nearer one first; on a tie the even one *)
  if Z.eqb (round_half_even scaled) lo then [lo; hi] else [hi; lo].

(** The shortest digit string that reads back as the positive float [x],
    nearest to [x] among the shortest: the digits as an integer [d] and the
    power of ten [k] with [x ~ d * 10^k].  Seventeen digits always do. *)
Fixpoint shortest_digits (x : float) (a : Q) (p : Z) (n fuel : nat) : Z * Z :=
  let k := p - Z.of_nat n + 1 in
  let fits d :=
    match rnd (inject_Z d * pow10 k) with
    | Fin m' e' => match x with
                   | Fin m e => Z.eqb m m' && Z.eqb e e'
                   | _ => false
                   end
    | _ => false
    end in
  match filter fits (neighbours a p n) with
  | d :: _ => (d, k)
  | [] =>
      match fuel with
      | O => (round_half_even (a * pow10 (- k)), k)
      | S fuel' => shortest_digits x a p (S n) fuel'
      end
  end.

(** [repr(x)]: the shortest digits, in fixed notation when the decimal point
    falls within them or near them, in exponent notation otherwise. *)
Definition repr_float (x : float) : string :=
  match x with
  | NaN => "nan"
  | Inf s => if s then "-inf" else "inf"
  | Fin 0 _ => "0.0"
  | Fin m e =>
      let a := Qabs (F2Q m e) in
      let '(d, k) := shortest_digits (Fin (Z.abs m) e) a (ilog10 a) 1 16 in
      let all := Str.of_Z d in
      let ds := Str.rstrip0 all in
      (* the value is 0.ds * 10^decpt *)
      let decpt := Z.of_nat (String.length all) + k in
      let n := Z.of_nat (String.length ds) in
      (if (m <? 0)%Z then "-" else "") ++
      if ((decpt <=? -4) || (16 <? decpt))%Z then
        Str.take 1 ds
        ++ (if (n =? 1)%Z then "" else "." ++ substring 1 (String.length ds - 1) ds)
        ++ "e" ++ (if (decpt - 1 <? 0)%Z then "-" else "+")
        ++ zfill 2 (Str.of_Z (Z.abs (decpt - 1)))
      else if (decpt <=? 0)%Z then
        "0." ++ Str.repeat "0" (Z.to_nat (- decpt)) ++ ds
      else if (n <=? decpt)%Z then
        ds ++ Str.repeat "0" (Z.to_nat (decpt - n)) ++ ".0"
      else
        Str.take (Z.to_nat decpt) ds ++ "."
        ++ substring (Z.to_nat decpt) (String.length ds - Z.to_nat decpt) ds
  end.

(** [str(v)] of a number, as an f-string field without a format
    specification prints it. *)
Definition str_number (v : number) : string :=
  match v with
  | Int n => Str.of_Z n
  | Float x => repr_float x
  end.

End Py.

(* ================================================================== *)
(** ** [json.dumps] *)
(* ================================================================== *)

Module Json.

Import F64 Py.

#[local] Set Warnings "-register-all".

Inductive json : Type :=
| JNumber (n : number)
| JString (s : string)
| JList (l : list json)
| JDict (kv : list (string * json)).

Definition hex_digit (n : N) : ascii :=
  if (n <? 10)%N then ascii_of_N (48 + n) else ascii_of_N (87 + n).

(** The escape [\u00XX] of a character. *)
Definition escape_u (c : ascii) : string :=
  let n := N_of_ascii c in
  "\u00" ++ String (hex_digit (n / 16)) (String (hex_digit (n mod 16)) "").

(** One character inside a JSON string, with [ensure_ascii]. *)
Definition escape_char (c : ascii) : string :=
  let n := N_of_ascii c in
  if (n =? 34)%N then String "\" (String Str.dquote "")
  else if (n =? 92)%N then "\\"
  else if (n =? 10)%N then "\n"
  else if (n =? 13)%N then "\r"
  else if (n =? 9)%N then "\t"
  else if (n =? 8)%N then "\b"
  else if (n =? 12)%N then "\f"
  else if ((n <? 32) || (126 <? n))%N then escape_u c
  else String c "".

Fixpoint escape (s : string) : string :=
  match s with
  | String c s' => escape_char c ++ escape s'
  | EmptyString => ""
  end.

Definition quote (s : string) : string :=
  String Str.dquote (escape s) ++ String Str.dquote "".

Definition dumps_number (v : number) : string :=
  match v with
  | Float NaN => "NaN"
  | Float (Inf s) => if s then "-Infinity" else "Infinity"
  | _ => str_number v
  end.

(** [json.dumps(j)] with the default separators. *)
Fixpoint dumps (j : json) : string :=
  match j with
  | JNumber v => dumps_number v
  | JString s => quote s
  | JList l =>
      "[" ++
      (fix items (l : list json) : string :=
         match l with
         | [] => ""
         | [x] => dumps x
         | x :: l' => dumps x ++ ", " ++ items l'
         end) l
      ++ "]"
  | JDict kv =>
      "{" ++
      (fix pairs (kv : list (string * json)) : string :=
         match kv with
         | [] => ""
         | [(k, x)] => quote k ++ ": " ++ dumps x
         | (k, x) :: kv' => quote k ++ ": " ++ dumps x ++ ", " ++ pairs kv'
         end) kv
      ++ "}"
  end.

End Json.

(* ================================================================== *)
(** ** The grader *)
(* ================================================================== *)

Module Grader.

Import F64 Py Json.

(** *** The world around the script *)

(** A notebook as [nbformat] hands it over: the cells in document order,
    each with its [cell_type] and its [source] text. *)
Record cell : Type := { cell_type : string; source : string }.
Record notebook : Type := { cells : list cell }.

(** What [subprocess.run] returns: a [CompletedProcess]. *)
Record completed : Type :=
  { returncode : Z; stdout : string; stderr : string }.

(** What a started child does: it exits on its own after some seconds, or
    it never does. *)
Inductive child : Type :=
| Exits (seconds : Q) (c : completed)
| Hangs.

(** The answers of everything outside the script: the path of the running
    interpreter, the outcome of opening and parsing a notebook file, and the
    outcome of starting a command. *)
Record world : Type :=
  { sys_executable : string;
    nbformat_read : string -> result notebook;
    popen : list string -> result child }.

(** What the script does to the world, in order. *)
Inductive event : Type :=
| Run (args : list string) (timeout : Q)
| Kill (args : list string)
| Print (line : string).

(** A computation with effects: it extends the trace, and returns or raises. *)
Definition M (A : Type) : Type := list event -> result A * list event.

Definition ret {A : Type} (a : A) : M A := fun tr => (Ok a, tr).

Definition raise {A : Type} (e : exn) : M A := fun tr => (Raise e, tr).

Definition bind {A B : Type} (m : M A) (k : A -> M B) : M B :=
  fun tr =>
    match m tr with
    | (Ok a, tr') => k a tr'
    | (Raise e, tr') => (Raise e, tr')
    end.

Definition emit (ev : event) : M unit := fun tr => (Ok tt, (tr ++ [ev])%list).

Definition lift {A : Type} (r : result A) : M A := fun tr => (r, tr).

Notation "x <- m ;; k" := (bind m (fun x => k))
  (at level 61, m at next level, right associativity).
Notation "m ;;; k" := (bind m (fun _ => k))
  (at level 61, right associativity).

(** [try: body  except c1: h1  except c2: h2 ...]: the first clause whose
    class the exception belongs to handles it. *)
Fixpoint handle {A : Type} (clauses : list ((exn -> bool) * (exn -> M A)))
    (e : exn) : M A :=
  match clauses with
  | [] => raise e
  | (caught, handler) :: rest =>
      if caught e then handler e else handle rest e
  end.

Definition try_catch {A : Type} (body : M A)
    (clauses : list ((exn -> bool) * (exn -> M A))) : M A :=
  fun tr =>
    match body tr with
    | (Ok a, tr') => (Ok a, tr')
    | (Raise e, tr') => handle clauses e tr'
    end.

(** [except Exception] *)
Definition Exception (e : exn) : bool := true.

(** [subprocess.run(args, capture_output=True, text=True, timeout=t)]:
    start the command and wait; a child still running after [t] seconds is
    killed and [TimeoutExpired] raised. *)
Definition timeout_expired : exn :=
  {| exn_cls := TimeoutExpired; exn_str := "Command timed out" |}.

Definition subprocess_run (w : world) (args : list string) (t : Q)
    : M completed :=
  emit (Run args t) ;;;
  match popen w args with
  | Raise e => raise e
  | Ok (Exits seconds c) =>
      if Qle_bool seconds t then ret c
      else emit (Kill args) ;;; raise timeout_expired
  | Ok Hangs => emit (Kill args) ;;; raise timeout_expired
  end.

(** *** [execute_notebook] *)

(** [.*# YOUR CODE HERE.*] *)
Definition placeholder : Re.regex :=
  (Re.Many Re.dot :: Re.lit "# YOUR CODE HERE" ++ [Re.Many Re.dot])%list.

(** The loop over [nb.cells] that builds [full_code]. *)
Definition full_code_of (nb : notebook) : string :=
  fold_left
    (fun full_code cell =>
       if String.eqb (cell_type cell) "code" then
         let clean_source := Re.sub placeholder "1" (source cell) in
         full_code ++ clean_source ++ Str.nl
       else full_code)
    (cells nb) "".

Definition parameters_not_set : string :=
  "The GA parameters were not set. Please complete the configuration in the `run_moead_heatsink` function.".

Definition timed_out : string := "Code execution timed out after 4 minutes.".

Definition execution_failed (stderr : string) : string :=
  "Code execution failed with an error:" ++ Str.nl ++ stderr.

(** The pair the function returns: [(output, error_message)], either of
    them [None]. *)
Definition outcome : Type := (option string * option string)%type.

Definition execute_notebook (w : world) (notebook_path : string) : M outcome :=
  read <- try_catch (nb <- lift (nbformat_read w notebook_path) ;; ret (inl nb))
            [(Exception, fun e =>
                  ret (inr (None, Some ("Error reading notebook file: " ++ exn_str e))))] ;;
  match read with
  | inr early => ret early
  | inl nb =>
      let full_code := full_code_of nb in
      if Str.contains "n_subproblems = 1" full_code then
        ret (None, Some parameters_not_set)
      else
        try_catch (process <- subprocess_run w [sys_executable w; "-c"; full_code] 240 ;;
                   if negb (returncode process =? 0)%Z then
                     ret (None, Some (execution_failed (stderr process)))
                   else ret (Some (stdout process), None))
            [(is_a TimeoutExpired, fun _ => ret (None, Some timed_out));
             (Exception, fun e =>
                ret (None, Some ("An unexpected error occurred during execution: "
                                 ++ exn_str e)))]
  end.

(** *** [grade_result] *)

Definition OPTIMAL_F1 : float := literal 5 3.     (* 0.005 *)
Definition TOLERANCE : float := literal 10 2.     (* 0.10 *)

(** [Ideal point: z = \[([0-9.]+),\s*([0-9.]+)\]] with IGNORECASE *)
Definition ideal_point : Re.regex :=
  (Re.lit_i "Ideal point: z = [" ++ Re.group (Re.plus Re.digit_or_dot)
   ++ Re.lit_i "," ++ [Re.Many Re.space]
   ++ Re.group (Re.plus Re.digit_or_dot) ++ Re.lit_i "]")%list.

Definition no_output : string := "Could not get output from the notebook.".

Definition not_found : string :=
  "Could not find the 'Ideal point: z' in the output. Make sure the algorithm runs to completion.".

Definition not_parsed : string :=
  "Could not parse the ideal point values from the output.".

(** [abs(student_f1 - OPTIMAL_F1) / OPTIMAL_F1 if OPTIMAL_F1 != 0 else inf] *)
Definition relative_error (student_f1 : float) : result float :=
  if fne_int OPTIMAL_F1 0
  then truediv (fabs (fsub student_f1 OPTIMAL_F1)) OPTIMAL_F1
  else Ok (Inf false).

(** The score before rounding: the three branches on [error]. *)
Definition raw_score (error : float) : result float :=
  if fle error TOLERANCE then Ok (literal 100 1)
  else if flt error (literal 10 1) then
    rbind (truediv (fsub error TOLERANCE) (fsub (literal 10 1) TOLERANCE))
      (fun ratio => Ok (fmul (literal 100 1) (fsub (of_Z 1) ratio)))
  else Ok (literal 0 1).

(** [score = round(score, 2)] *)
Definition score_of_error (error : float) : result float :=
  rbind (raw_score error) (fun score => round_ndigits score 2).

Definition feedback_text (student_f1 error score : float) : string :=
  "Grading based on the final Thermal Resistance (f1) in the ideal point." ++ Str.nl
  ++ "Target f1: ~" ++ format_f 3 OPTIMAL_F1 ++ Str.nl
  ++ "Your Final f1: " ++ format_f 3 student_f1 ++ Str.nl
  ++ "Error: " ++ format_pct 2 error ++ Str.nl
  ++ "Score: " ++ str_number (Float score) ++ "/10".

(** The part of [grade_result] after [student_f1] is known. *)
Definition grade_value (student_f1 : float) : result (number * string) :=
  rbind (relative_error student_f1) (fun error =>
  rbind (score_of_error error) (fun score =>
  Ok (Float score, feedback_text student_f1 error score))).

Definition grade_result (output : option string) : result (number * string) :=
  match output with
  | None => Ok (Int 0, no_output)
  | Some output =>
      let matches := Re.findall ideal_point output in
      match matches with
      | [] => Ok (Int 0, not_found)
      | _ :: _ =>
          rbind
            (try_except
               (rbind (last_item matches) (fun m =>
                rbind (item0 m) (fun text =>
                rbind (float_of_str text) (fun x => Ok (inl x)))))
               (fun e => is_a ValueError e || is_a IndexError e)
               (fun _ => Ok (inr (Int 0, not_parsed))))
            (fun parsed =>
               match parsed with
               | inr early => Ok early
               | inl student_f1 => grade_value student_f1
               end)
      end
  end.

(** *** [main] *)

Definition notebook_path : string := "L9_Pareto_CaseStudy_Homework.ipynb".

Definition test_result (score : number) (feedback : string) : json :=
  JDict [("tests",
          JList [JDict [("name", JString "Heat Sink Multi-Objective Optimization");
                        ("score", JNumber score);
                        ("max_score", JNumber (Int 10));
                        ("output", JString feedback)]])].

(** The truth value of [error_message]: [None] and the empty string are
    false. *)
Definition truthy (error_message : option string) : bool :=
  match error_message with
  | Some (String _ _) => true
  | _ => false
  end.

Definition main (w : world) : M unit :=
  res <- execute_notebook w notebook_path ;;
  let '(output, error_message) := res in
  graded <- (if truthy error_message
             then ret (Int 0, match error_message with Some s => s | None => "" end)
             else lift (grade_result output)) ;;
  let '(score, feedback) := graded in
  emit (Print (dumps (test_result score feedback))).

(** Running the script in a world: what it returned or raised, and what it
    did. *)
Definition run (w : world) : result unit * list event := main w [].

End Grader.

(* ================================================================== *)
(** ** Specification-side definitions *)
(* ================================================================== *)

(** What the statements below are phrased with: the line-by-line reading of
    the substitution, the left-to-right reading of the marker pattern, the
    order and exact values of floats, and the failure modes of a run.  None
    of it is used by the program above. *)

Module Spec.

Import F64 Py Json Grader.

(** *** Floats as numbers *)

(** The exponent of the grid a positive rational is rounded on, and the
    rounded value before the range check. *)
Definition grid (a : Q) : Z := Z.max (ilog2 a - 52) emin.

Definition rounded (a : Q) : Q :=
  F2Q (round_half_even (a * pow2 (- grid a))) (grid a).

Definition val (x : float) : Q :=
  match x with
  | Fin m e => F2Q m e
  | _ => 0%Q
  end.

(** The decimal [round] aims at before it is converted back to a float. *)
Definition round_q (nd : Z) (q : Q) : Q :=
  inject_Z (round_half_even (q * pow10 nd)) * pow10 (- nd).

Definition one : float := Fin 4503599627370496 (-52).     (* 1.0 *)
Definition ten : float := Fin 5629499534213120 (-49).     (* 10.0 *)

(** The linear decay of the middle branch:
    [10.0 * (1 - (error - 0.10) / 0.90)], each operation rounded. *)
Definition decay (error : float) : float :=
  fmul (literal 100 1)
       (fsub (of_Z 1) (fdiv (fsub error TOLERANCE) (literal 9 1))).

(** *** Text *)

Fixpoint all (p : ascii -> bool) (s : string) : bool :=
  match s with
  | String c s' => p c && all p s'
  | EmptyString => true
  end.

Fixpoint take_while (p : ascii -> bool) (s : string) : string :=
  match s with
  | String c s' => if p c then String c (take_while p s') else ""
  | EmptyString => ""
  end.

Fixpoint drop_while (p : ascii -> bool) (s : string) : string :=
  match s with
  | String c s' => if p c then drop_while p s' else s
  | EmptyString => ""
  end.

Fixpoint drop (n : nat) (s : string) : string :=
  match n, s with
  | S k, String _ s' => drop k s'
  | _, _ => s
  end.

(** Take one character of each class in turn off the front of [s]. *)
Fixpoint strip (ps : list (ascii -> bool)) (s : string) : option string :=
  match ps with
  | [] => Some s
  | p :: ps' =>
      match s with
      | String c s' => if p c then strip ps' s' else None
      | EmptyString => None
      end
  end.

(** *** The placeholder substitution, line by line *)

Definition sentinel : string := "# YOUR CODE HERE".

(** [s.split("\n")] *)
Fixpoint split_lines (s : string) : list string :=
  match s with
  | EmptyString => [""]
  | String c s' =>
      if Ascii.eqb c Str.newline then "" :: split_lines s'
      else match split_lines s' with
           | l :: ls => String c l :: ls
           | [] => [String c ""]
           end
  end.

(** ["\n".join(ls)] *)
Definition join_lines (ls : list string) : string := String.concat Str.nl ls.

(** A line that contains the sentinel becomes the statement [1]. *)
Definition clean_line (l : string) : string :=
  if Str.contains sentinel l then "1" else l.

Definition replace_placeholder_lines (s : string) : string :=
  join_lines (map clean_line (split_lines s)).

Definition is_code (c : cell) : bool := String.eqb (cell_type c) "code".

(** The extracted program as the specification words it: the bodies of the
    code cells in document order, placeholder lines replaced, a newline
    after each. *)
Definition extracted_program (nb : notebook) : string :=
  String.concat ""
    (map (fun c => replace_placeholder_lines (source c) ++ Str.nl)
         (filter is_code (cells nb))).

(** The sentinel occurs before the end of the first line of [s]. *)
Fixpoint in_first_line (s : string) : bool :=
  String.prefix sentinel s
  || match s with
     | String c s' => Re.dot c && in_first_line s'
     | EmptyString => false
     end.

(** *** The marker pattern, read left to right *)

Definition marker_i : list (ascii -> bool) :=
  map Re.chr_i (list_ascii_of_string "Ideal point: z = [").

(** Parse one marker at the start of [s] without ever going back: the
    literal text, digits and points, a comma, white space, digits and
    points, the closing bracket. *)
Definition parse_marker (s : string) : option Re.matched :=
  match strip marker_i s with
  | None => None
  | Some s1 =>
      match take_while Re.digit_or_dot s1, drop_while Re.digit_or_dot s1 with
      | String _ _ as g1, String "," s3 =>
          let s4 := drop_while Re.space s3 in
          match take_while Re.digit_or_dot s4, drop_while Re.digit_or_dot s4 with
          | String _ _ as g2, String "]" rest => Some ([g1; g2], rest)
          | _, _ => None
          end
      | _, _ => None
      end
  end.

(** A non-empty run of digits and points. *)
Definition unsigned_decimal (s : string) : Prop :=
  s <> "" /\ all Re.digit_or_dot s = true.

(** The characters of decimal and scientific notation, signs included. *)
Definition number_char (c : ascii) : bool :=
  Re.digit_or_dot c || Ascii.eqb c "-" || Ascii.eqb c "+"
  || Ascii.eqb c "e" || Ascii.eqb c "E".

(** The line [Ideal point: z = [n1,<ws>n2]] as a child prints it. *)
Definition marker_line (n1 ws n2 : string) : string :=
  "Ideal point: z = [" ++ n1 ++ "," ++ ws ++ n2 ++ "]".

Definition not_i (c : ascii) : bool := negb (Re.chr_i "I" c).

(** Text that begins the way a marker line does. *)
Definition marker_start (t : string) : string := String "I" (String "d" t).

Definition appended (t : string) (res : option Re.matched) : option Re.matched :=
  match res with
  | Some (caps, rest) => Some (caps, rest ++ marker_start t)
  | None => None
  end.

(** *** Runs *)

(** The command [execute_notebook] runs for a notebook. *)
Definition command (w : world) (nb : notebook) : list string :=
  [sys_executable w; "-c"; full_code_of nb].

(** The grade that the text of a first number leads to. *)
Definition graded_on (text : string) : result (number * string) :=
  match float_of_str text with
  | Ok student_f1 => grade_value student_f1
  | Raise _ => Ok (Int 0, not_parsed)
  end.

(** The score of a grade, when there is one. *)
Definition fmap_score (r : result (number * string)) : option number :=
  match r with
  | Ok (score, _) => Some score
  | Raise _ => None
  end.

Definition is_run (ev : event) : bool :=
  match ev with Run _ _ => true | _ => false end.


(** The one line [main] prints. *)
Definition report (score : number) (feedback : string) : event :=
  Print (dumps (test_result score feedback)).


Definition unexpected (e : exn) : string :=
  "An unexpected error occurred during execution: " ++ exn_str e.


(** *** Worlds to run the script in *)

Definition homework : notebook :=
  {| cells :=
       [ {| cell_type := "markdown"; source := "# Heat sink" |};
         {| cell_type := "code";
            source := "n_subproblems = 50" ++ Str.nl ++ "# YOUR CODE HERE" |};
         {| cell_type := "code"; source := "run_moead_heatsink()" |} ] |}.

Definition unconfigured : notebook :=
  {| cells := [ {| cell_type := "code"; source := "n_subproblems = 1" |} ] |}.

Definition world_of (nb : result notebook) (child : result child) : world :=
  {| sys_executable := "python3";
     nbformat_read := fun _ => nb;
     popen := fun _ => child |}.

(** A child that prints [out] and exits with [code] after three seconds. *)
Definition prints (code : Z) (out err : string) : result child :=
  Ok (Exits 3 {| returncode := code; stdout := out; stderr := err |}).

(** *** The grade as a function of the student value *)

(** The relative error [grade_result] computes for a student value. *)
Definition error_of (v : float) : float :=
  fdiv (fabs (fsub v OPTIMAL_F1)) OPTIMAL_F1.

(** The score [grade_result] gives a student value. *)
Definition score_of_value (v : float) : option number :=
  fmap_score (grade_value v).

(** *** Text of numbers *)

Fixpoint count (c : ascii) (s : string) : nat :=
  match s with
  | String x s' => (if Ascii.eqb x c then 1 else 0) + count c s'
  | EmptyString => 0
  end%nat.

Fixpoint any (p : ascii -> bool) (s : string) : bool :=
  match s with
  | String c s' => p c || any p s'
  | EmptyString => false
  end.

(** A run of digits and points that reads as a number: at most one point
    and at least one digit. *)
Definition plain_decimal (s : string) : bool :=
  (count "." s <=? 1)%nat && any is_digit s.

(** The decimal text of [k / 100] with the fewest digits after the point,
    at least one: [10.0], [5.5], [5.56], [0.05]. *)
Definition hundredths (k : Z) : string :=
  let r := k mod 100 in
  Str.of_Z (k / 100) ++ "."
  ++ (if (r mod 10 =? 0)%Z then Str.of_Z (r / 10) else zfill 2 (Str.of_Z r)).

(** The characters U+0020 .. U+007E. *)
Definition printable (c : ascii) : bool :=
  let n := N_of_ascii c in ((32 <=? n) && (n <=? 126))%N.

(** *** The lines of the code cells *)

Definition code_lines (nb : notebook) : list string :=
  flat_map (fun c => split_lines (source c)) (filter is_code (cells nb)).

(** A line that trips the configuration gate: it contains the text
    [n_subproblems = 1] and is not a placeholder line. *)
Definition trips_gate (l : string) : bool :=
  Str.contains "n_subproblems = 1" l && negb (Str.contains sentinel l).

(** A match found in a text, seen from the text in lower case: the groups
    are the same, what is left is in lower case. *)
Definition lowered (res : option Re.matched) : option Re.matched :=
  match res with
  | Some (caps, rest) => Some (caps, lower_str rest)
  | None => None
  end.

(** *** Reading a JSON string back *)

(** The value of a hexadecimal digit. *)
Definition hex_value (c : ascii) : N :=
  let n := N_of_ascii c in
  if (n <? 58)%N then (n - 48)%N else (n - 87)%N.

(** The character the escape at the start of [s] stands for, and the text
    after it. *)
Definition unescape_char (s : string) : option (ascii * string) :=
  match s with
  | String "\" (String x r) =>
      if Ascii.eqb x Str.dquote then Some (Str.dquote, r)
      else if Ascii.eqb x "\" then Some ("\"%char, r)
      else if Ascii.eqb x "n" then Some ("010"%char, r)
      else if Ascii.eqb x "r" then Some ("013"%char, r)
      else if Ascii.eqb x "t" then Some ("009"%char, r)
      else if Ascii.eqb x "b" then Some ("008"%char, r)
      else if Ascii.eqb x "f" then Some ("012"%char, r)
      else match r with
           | String _ (String _ (String h (String l r'))) =>
               Some (ascii_of_N (16 * hex_value h + hex_value l), r')
           | _ => None
           end
  | String c r => Some (c, r)
  | EmptyString => None
  end.

(** *** The trace of a run *)


(** The scores a run can report: the integer 0, or a float that is a
    hundredth from 0.0 to 10.0. *)
Definition reportable (score : number) : Prop :=
  score = Int 0
  \/ exists k, 0 <= k <= 1000 /\ score = Float (rnd (inject_Z k / 100)).

End Spec.

(* ================================================================== *)
(** * Properties *)
(* ================================================================== *)

(* ================================================================== *)
(** ** Float arithmetic: rounding is monotone *)
(* ================================================================== *)

Module FloatFacts.

Import F64 Spec.
Local Open Scope Q_scope.

Lemma pow2_Qpower e : pow2 e == 2 ^ e.
Proof.
  destruct e as [|p|p]; simpl.
  - reflexivity.
  - rewrite (Zpower_Qpower 2 (Zpos p)) by lia. reflexivity.
  - change (Qpower_positive 2 p) with (2 ^ Zpos p).
    rewrite <- (Zpower_Qpower 2 (Zpos p)) by lia.
    rewrite <- Pos2Z.inj_pow. reflexivity.
Qed.

Lemma pow2_pos e : 0 < pow2 e.
Proof. rewrite pow2_Qpower. apply Qpower_0_lt. reflexivity. Qed.

Lemma pow2_add a b : pow2 (a + b) == pow2 a * pow2 b.
Proof. rewrite !pow2_Qpower. apply Qpower_plus. discriminate. Qed.

Lemma pow2_int e : (0 <= e)%Z -> pow2 e = inject_Z (2 ^ e).
Proof. destruct e; simpl; try reflexivity; lia. Qed.

Lemma pow2_le a b : (a <= b)%Z -> pow2 a <= pow2 b.
Proof.
  intros H. replace b with (a + (b - a))%Z by lia.
  rewrite pow2_add, (pow2_int (b - a)) by lia.
  assert (1 <= inject_Z (2 ^ (b - a))).
  { change 1 with (inject_Z 1). rewrite <- Zle_Qle.
    assert (0 < 2 ^ (b - a))%Z by (apply Z.pow_pos_nonneg; lia). lia. }
  pose proof (pow2_pos a). nra.
Qed.

Lemma pow2_lt a b : (a < b)%Z -> pow2 a < pow2 b.
Proof.
  intros H. replace b with (a + (b - a))%Z by lia.
  rewrite pow2_add, (pow2_int (b - a)) by lia.
  assert (2 <= inject_Z (2 ^ (b - a))).
  { change 2 with (inject_Z 2). rewrite <- Zle_Qle.
    replace (b - a)%Z with (Z.succ (b - a - 1)) by lia.
    rewrite Z.pow_succ_r by lia.
    assert (0 < 2 ^ (b - a - 1))%Z by (apply Z.pow_pos_nonneg; lia). lia. }
  pose proof (pow2_pos a). nra.
Qed.

Lemma pow2_cancel a : pow2 a * pow2 (- a) == 1.
Proof. rewrite <- pow2_add. replace (a + - a)%Z with 0%Z by lia. reflexivity. Qed.

(** *** Rounding to the nearest integer *)

Ltac qcmp H :=
  first [apply Qeq_alt in H | apply Qlt_alt in H | apply Qgt_alt in H].

Lemma round_half_even_bounds q :
  (Qfloor q <= round_half_even q <= Qfloor q + 1)%Z.
Proof.
  unfold round_half_even.
  destruct (q - inject_Z (Qfloor q) ?= 1 # 2); try destruct (Z.even _); lia.
Qed.

Lemma round_half_even_Z n : round_half_even (inject_Z n) = n.
Proof.
  unfold round_half_even. rewrite Qfloor_Z.
  assert (H : inject_Z n - inject_Z n < 1 # 2) by (ring_simplify; reflexivity).
  rewrite Qlt_alt in H. rewrite H. reflexivity.
Qed.

Lemma round_half_even_mono x y : x <= y -> (round_half_even x <= round_half_even y)%Z.
Proof.
  intros Hxy.
  pose proof (Qfloor_resp_le _ _ Hxy) as Hf.
  destruct (Z.eq_dec (Qfloor x) (Qfloor y)) as [E|N].
  - unfold round_half_even. rewrite E.
    assert (Hd : x - inject_Z (Qfloor y) <= y - inject_Z (Qfloor y)) by lra.
    destruct (x - inject_Z (Qfloor y) ?= 1 # 2) eqn:Cx;
      destruct (y - inject_Z (Qfloor y) ?= 1 # 2) eqn:Cy;
      try destruct (Z.even (Qfloor y)); try lia;
      qcmp Cx; qcmp Cy; exfalso; lra.
  - pose proof (round_half_even_bounds x). pose proof (round_half_even_bounds y). lia.
Qed.

Lemma round_half_even_compat x y : x == y -> round_half_even x = round_half_even y.
Proof.
  intros E. apply Z.le_antisymm; apply round_half_even_mono; rewrite E; apply Qle_refl.
Qed.

#[global] Instance round_half_even_Proper : Proper (Qeq ==> eq) round_half_even.
Proof. intros x y E. apply round_half_even_compat, E. Qed.


(** *** The binary logarithm *)

Lemma Qmake_split (n : Z) (d : positive) : (n # d) * inject_Z (Zpos d) == inject_Z n.
Proof. unfold Qeq, Qmult, inject_Z; simpl. rewrite Pos.mul_1_r. ring. Qed.

Lemma ilog2_spec a : 0 < a -> pow2 (ilog2 a) <= a /\ a < pow2 (ilog2 a + 1).
Proof.
  destruct a as [n d]. intros Ha.
  assert (Hn : (0 < n)%Z) by (unfold Qlt in Ha; simpl in Ha; lia).
  unfold ilog2. cbn [Qnum Qden].
  set (ln := Z.log2 n). set (ld := Z.log2 (Zpos d)).
  destruct (Z.log2_spec n Hn) as [Hn1 Hn2]. fold ln in Hn1, Hn2.
  destruct (Z.log2_spec (Zpos d) eq_refl) as [Hd1 Hd2]. fold ld in Hd1, Hd2.
  assert (Lnn : (0 <= ln)%Z) by apply Z.log2_nonneg.
  assert (Ldn : (0 <= ld)%Z) by apply Z.log2_nonneg.
  pose proof (Qmake_split n d) as Hs.
  assert (Qn1 : pow2 ln <= inject_Z n) by (rewrite pow2_int by lia; now rewrite <- Zle_Qle).
  assert (Qn2 : inject_Z n < pow2 (ln + 1)) by (rewrite pow2_int by lia; now rewrite <- Zlt_Qlt).
  assert (Qd1 : pow2 ld <= inject_Z (Zpos d)) by (rewrite pow2_int by lia; now rewrite <- Zle_Qle).
  assert (Qd2 : inject_Z (Zpos d) < pow2 (ld + 1)) by (rewrite pow2_int by lia; now rewrite <- Zlt_Qlt).
  assert (Dpos : 0 < inject_Z (Zpos d)) by reflexivity.
  destruct (Qle_bool (pow2 (ln - ld)) (n # d)) eqn:B.
  - apply Qle_bool_iff in B. split; [exact B|].
    assert (E : pow2 (ln + 1) == pow2 (ln - ld + 1) * pow2 ld).
    { rewrite <- pow2_add. replace (ln - ld + 1 + ld)%Z with (ln + 1)%Z by lia. reflexivity. }
    pose proof (pow2_pos (ln - ld + 1)). pose proof (pow2_pos ld).
    apply Qnot_le_lt. intros C. 
    assert (pow2 (ln - ld + 1) * inject_Z (Zpos d) <= (n # d) * inject_Z (Zpos d)) by nra.
    assert (pow2 (ln - ld + 1) * pow2 ld <= pow2 (ln - ld + 1) * inject_Z (Zpos d)) by nra.
    lra.
  - assert (B' : (n # d) < pow2 (ln - ld)).
    { apply Qnot_le_lt. intros C. apply Qle_bool_iff in C. congruence. }
    replace (ln - ld - 1 + 1)%Z with (ln - ld)%Z by lia. split; [|exact B'].
    assert (E : pow2 ln == pow2 (ln - ld - 1) * pow2 (ld + 1)).
    { rewrite <- pow2_add. replace (ln - ld - 1 + (ld + 1))%Z with ln by lia. reflexivity. }
    pose proof (pow2_pos (ln - ld - 1)). pose proof (pow2_pos (ld + 1)).
    apply Qnot_lt_le. intros C.
    assert ((n # d) * inject_Z (Zpos d) < pow2 (ln - ld - 1) * inject_Z (Zpos d)) by nra.
    assert (pow2 (ln - ld - 1) * inject_Z (Zpos d) <= pow2 (ln - ld - 1) * pow2 (ld + 1)) by nra.
    lra.
Qed.

Lemma ilog2_mono a b : 0 < a -> a <= b -> (ilog2 a <= ilog2 b)%Z.
Proof.
  intros Ha Hab.
  destruct (ilog2_spec a Ha) as [A1 _].
  destruct (ilog2_spec b) as [_ B2]; [lra|].
  destruct (Z_le_gt_dec (ilog2 a) (ilog2 b)) as [|G]; [assumption|].
  assert (pow2 (ilog2 b + 1) <= pow2 (ilog2 a)) by (apply pow2_le; lia). lra.
Qed.


Lemma F2Q_int k e : (e <= k)%Z -> pow2 k == F2Q (2 ^ (k - e)) e.
Proof.
  intros H. unfold F2Q. rewrite <- pow2_int by lia. rewrite <- pow2_add.
  replace (k - e + e)%Z with k by lia. reflexivity.
Qed.

(** Rounding to a grid keeps a value on the right side of a grid point. *)
Lemma round_le_point a e k :
  (e <= k)%Z -> a <= pow2 k -> F2Q (round_half_even (a * pow2 (- e))) e <= pow2 k.
Proof.
  intros H Hle. rewrite (F2Q_int k e H) at 1. unfold F2Q.
  pose proof (pow2_pos e). pose proof (pow2_pos (- e)).
  assert (M : (round_half_even (a * pow2 (- e)) <= 2 ^ (k - e))%Z).
  { rewrite <- (round_half_even_Z (2 ^ (k - e))). apply round_half_even_mono.
    rewrite <- pow2_int by lia.
    assert (E : pow2 k * pow2 (- e) == pow2 (k - e)) by (rewrite <- pow2_add; reflexivity).
    rewrite <- E. nra. }
  rewrite Zle_Qle in M. nra.
Qed.

Lemma round_ge_point a e k :
  (e <= k)%Z -> pow2 k <= a -> pow2 k <= F2Q (round_half_even (a * pow2 (- e))) e.
Proof.
  intros H Hle. rewrite (F2Q_int k e H) at 1. unfold F2Q.
  pose proof (pow2_pos e). pose proof (pow2_pos (- e)).
  assert (M : (2 ^ (k - e) <= round_half_even (a * pow2 (- e)))%Z).
  { rewrite <- (round_half_even_Z (2 ^ (k - e))) at 1. apply round_half_even_mono.
    rewrite <- pow2_int by lia.
    assert (E : pow2 k * pow2 (- e) == pow2 (k - e)) by (rewrite <- pow2_add; reflexivity).
    rewrite <- E. nra. }
  rewrite Zle_Qle in M. nra.
Qed.

Lemma rounded_mono a b : 0 < a -> a <= b -> rounded a <= rounded b.
Proof.
  intros Ha Hab. assert (Hb : 0 < b) by lra.
  pose proof (ilog2_mono a b Ha Hab) as Hk.
  destruct (ilog2_spec a Ha) as [A1 A2]. destruct (ilog2_spec b Hb) as [B1 B2].
  unfold rounded.
  destruct (Z.eq_dec (grid a) (grid b)) as [E|N].
  - rewrite E. unfold F2Q. pose proof (pow2_pos (grid b)). pose proof (pow2_pos (- grid b)).
    assert (M : (round_half_even (a * pow2 (- grid b)) <= round_half_even (b * pow2 (- grid b)))%Z)
      by (apply round_half_even_mono; nra).
    rewrite Zle_Qle in M. nra.
  - assert (G : (grid a < grid b)%Z) by (unfold grid in *; lia).
    assert (Gb : grid b = (ilog2 b - 52)%Z) by (unfold grid, emin in *; lia).
    assert (Kab : (ilog2 a + 1 <= ilog2 b)%Z) by (unfold grid, emin in *; lia).
    apply Qle_trans with (pow2 (ilog2 b)).
    + apply round_le_point; [unfold grid in *; lia|].
      assert (pow2 (ilog2 a + 1) <= pow2 (ilog2 b)) by (apply pow2_le; lia). lra.
    + apply round_ge_point; [lia | assumption].
Qed.

Lemma rounded_nonneg a : 0 < a -> 0 <= rounded a.
Proof.
  intros Ha. unfold rounded, F2Q.
  pose proof (pow2_pos (grid a)). pose proof (pow2_pos (- grid a)).
  assert (M : (0 <= round_half_even (a * pow2 (- grid a)))%Z).
  { rewrite <- (round_half_even_Z 0) at 1. apply round_half_even_mono.
    change (inject_Z 0) with 0. apply Qmult_le_0_compat; lra. }
  rewrite Zle_Qle in M. change (inject_Z 0) with 0 in M.
  apply Qmult_le_0_compat; lra.
Qed.

Lemma rnd_pos_cases a :
  (pow2 1024 <= rounded a /\ rnd_pos a = Inf false) \/
  (rounded a < pow2 1024 /\ exists m e, rnd_pos a = Fin m e /\ F2Q m e == rounded a).
Proof.
  unfold rnd_pos, rounded. fold (grid a).
  set (m := round_half_even (a * pow2 (- grid a))).
  destruct (Qle_bool (pow2 1024) (F2Q m (grid a))) eqn:B.
  - left. apply Qle_bool_iff in B. auto.
  - right. split.
    + apply Qnot_le_lt. intros C. apply Qle_bool_iff in C. congruence.
    + destruct (m =? 2 ^ 53)%Z eqn:E.
      * apply Z.eqb_eq in E. exists (2 ^ 52)%Z, (grid a + 1)%Z. split; [reflexivity|].
        rewrite E. unfold F2Q. rewrite pow2_add.
        change (pow2 1) with 2. rewrite (inject_Z_mult (2^52) 2) || idtac.
        change (inject_Z (2 ^ 53)) with (inject_Z (2 ^ 52) * 2). ring.
      * exists m, (grid a). split; reflexivity.
Qed.

(** *** The order on floats *)


Lemma fle_Fin m1 e1 m2 e2 : fle (Fin m1 e1) (Fin m2 e2) = true <-> F2Q m1 e1 <= F2Q m2 e2.
Proof. simpl. apply Qle_bool_iff. Qed.

Lemma rnd_pos_mono a b : 0 < a -> a <= b -> fle (rnd_pos a) (rnd_pos b) = true.
Proof.
  intros Ha Hab. pose proof (rounded_mono a b Ha Hab) as M.
  destruct (rnd_pos_cases a) as [[A1 A2]|[A1 (ma & ea & A2 & A3)]];
    destruct (rnd_pos_cases b) as [[B1 B2]|[B1 (mb & eb & B2 & B3)]];
    rewrite A2, B2; try reflexivity.
  - exfalso. lra.
  - apply fle_Fin. rewrite A3, B3. exact M.
Qed.

Lemma rnd_pos_nonneg a : 0 < a -> fle zero (rnd_pos a) = true.
Proof.
  intros Ha. pose proof (rounded_nonneg a Ha).
  destruct (rnd_pos_cases a) as [[A1 A2]|[A1 (ma & ea & A2 & A3)]]; rewrite A2.
  - reflexivity.
  - apply fle_Fin. rewrite A3.
    assert (Z0 : F2Q 0 emin == 0) by reflexivity. rewrite Z0. assumption.
Qed.

Lemma fle_fneg x y : fle x y = true -> fle (fneg y) (fneg x) = true.
Proof.
  destruct x as [|[]|m1 e1], y as [|[]|m2 e2]; simpl; try congruence.
  rewrite !Qle_bool_iff. unfold F2Q. rewrite !inject_Z_opp. intros. lra.
Qed.

Lemma fle_trans x y z : fle x y = true -> fle y z = true -> fle x z = true.
Proof.
  destruct x as [|[]|m1 e1], y as [|[]|m2 e2], z as [|[]|m3 e3]; simpl; try congruence.
  rewrite !Qle_bool_iff. intros. lra.
Qed.

Lemma rnd_mono a b : a <= b -> fle (rnd a) (rnd b) = true.
Proof.
  intros Hab. unfold rnd.
  destruct (a ?= 0) eqn:Ca; qcmp Ca; destruct (b ?= 0) eqn:Cb; qcmp Cb;
    try (exfalso; lra); try reflexivity.
  - apply rnd_pos_nonneg; assumption.
  - change zero with (fneg zero). apply fle_fneg, rnd_pos_nonneg. lra.
  - apply fle_fneg, rnd_pos_mono; lra.
  - apply fle_trans with zero.
    + change zero with (fneg zero). apply fle_fneg, rnd_pos_nonneg. lra.
    + apply rnd_pos_nonneg. lra.
  - apply rnd_pos_mono; lra.
Qed.


(** *** Monotonicity of the arithmetic on finite floats *)

Lemma finite_between lo x hi :
  is_finite lo = true -> is_finite hi = true ->
  fle lo x = true -> fle x hi = true -> is_finite x = true.
Proof. destruct lo as [|[]|], hi as [|[]|], x as [|[]|]; simpl; congruence. Qed.

Lemma flt_fle x y : flt x y = true -> fle x y = true.
Proof.
  destruct x as [|[]|m1 e1], y as [|[]|m2 e2]; simpl; try congruence.
  rewrite negb_true_iff. intros H. apply Qle_bool_iff.
  destruct (Qlt_le_dec (F2Q m2 e2) (F2Q m1 e1)) as [L|L]; [|exact L].
  exfalso. apply Qlt_le_weak, Qle_bool_iff in L. congruence.
Qed.

Lemma fle_refl_finite x : is_finite x = true -> fle x x = true.
Proof. destruct x; try discriminate. intros _. apply fle_Fin, Qle_refl. Qed.

Lemma not_fle_flt x m e y :
  fle x (Fin m e) = false -> flt x y = true -> flt (Fin m e) x = true.
Proof.
  intros A B. destruct x as [|[]|]; cbn [flt fle] in *; try discriminate.
  - reflexivity.
  - now rewrite A.
Qed.

Lemma flt_not_fle x y : flt x y = true -> fle y x = false.
Proof.
  destruct x as [|[]|m1 e1], y as [|[]|m2 e2]; simpl; try congruence;
    now rewrite negb_true_iff.
Qed.

Lemma fle_flt_trans x y z : fle x y = true -> flt y z = true -> flt x z = true.
Proof.
  intros A B. pose proof (flt_not_fle _ _ B) as C.
  assert (N : fle z x = false).
  { destruct (fle z x) eqn:E; [|reflexivity].
    rewrite (fle_trans _ _ _ E A) in C. discriminate. }
  destruct x as [|[]|m1 e1], z as [|[]|m3 e3]; simpl in *;
    try rewrite N; try reflexivity; try discriminate;
    destruct y as [|[]|]; simpl in *; discriminate.
Qed.

Lemma flt_fle_trans x y z : flt x y = true -> fle y z = true -> flt x z = true.
Proof.
  intros A B. pose proof (flt_not_fle _ _ A) as C.
  assert (N : fle z x = false).
  { destruct (fle z x) eqn:E; [|reflexivity].
    rewrite (fle_trans _ _ _ B E) in C. discriminate. }
  destruct x as [|[]|m1 e1], z as [|[]|m3 e3]; simpl in *;
    try rewrite N; try reflexivity; try discriminate;
    destruct y as [|[]|]; simpl in *; discriminate.
Qed.

Lemma F2Q_opp m e : F2Q (- m) e == - F2Q m e.
Proof. unfold F2Q. rewrite inject_Z_opp. ring. Qed.

Lemma fsub_mono_l x y c :
  is_finite x = true -> is_finite y = true -> is_finite c = true ->
  fle x y = true -> fle (fsub x c) (fsub y c) = true.
Proof.
  destruct x as [| |m1 e1], y as [| |m2 e2], c as [| |m3 e3]; try discriminate.
  intros _ _ _ H. apply fle_Fin in H. unfold fsub. simpl. apply rnd_mono. lra.
Qed.

Lemma fsub_anti_r x y c :
  is_finite x = true -> is_finite y = true -> is_finite c = true ->
  fle x y = true -> fle (fsub c y) (fsub c x) = true.
Proof.
  destruct x as [| |m1 e1], y as [| |m2 e2], c as [| |m3 e3]; try discriminate.
  intros _ _ _ H. apply fle_Fin in H. unfold fsub. simpl. apply rnd_mono.
  rewrite !F2Q_opp. lra.
Qed.

Lemma fdiv_mono_l x y c :
  is_finite x = true -> is_finite y = true -> is_finite c = true ->
  0 < val c -> fle x y = true -> fle (fdiv x c) (fdiv y c) = true.
Proof.
  destruct x as [| |m1 e1], y as [| |m2 e2], c as [| |m3 e3]; try discriminate.
  intros _ _ _ Hc H. apply fle_Fin in H. simpl in *. apply rnd_mono.
  unfold Qdiv. apply Qmult_le_compat_r; [exact H|].
  apply Qlt_le_weak, Qinv_lt_0_compat, Hc.
Qed.

Lemma fmul_mono_r x y c :
  is_finite x = true -> is_finite y = true -> is_finite c = true ->
  0 <= val c -> fle x y = true -> fle (fmul c x) (fmul c y) = true.
Proof.
  destruct x as [| |m1 e1], y as [| |m2 e2], c as [| |m3 e3]; try discriminate.
  intros _ _ _ Hc H. apply fle_Fin in H. simpl in *. apply rnd_mono. nra.
Qed.

End FloatFacts.

(* ================================================================== *)
(** ** The score as a function of the relative error *)
(* ================================================================== *)

Module ScoreFacts.

Import F64 Py Grader Spec FloatFacts.
Local Open Scope Q_scope.

Lemma OPTIMAL_F1_eq : OPTIMAL_F1 = Fin 5764607523034235 (-60).
Proof. vm_compute. reflexivity. Qed.
Lemma TOLERANCE_eq : TOLERANCE = Fin 7205759403792794 (-56).
Proof. vm_compute. reflexivity. Qed.
Lemma literal_one : literal 10 1 = one.
Proof. vm_compute. reflexivity. Qed.
Lemma literal_ten : literal 100 1 = ten.
Proof. vm_compute. reflexivity. Qed.
Lemma literal_zero : literal 0 1 = zero.
Proof. vm_compute. reflexivity. Qed.
Lemma of_Z_one : of_Z 1 = one.
Proof. vm_compute. reflexivity. Qed.
Lemma one_minus_tolerance : fsub (literal 10 1) TOLERANCE = literal 9 1.
Proof. vm_compute. reflexivity. Qed.


Lemma raw_score_band error :
  fle error TOLERANCE = false -> flt error (literal 10 1) = true ->
  raw_score error = Ok (decay error).
Proof.
  intros A B. unfold raw_score. rewrite A, B, one_minus_tolerance. reflexivity.
Qed.


Lemma decay_stages e1 e2 :
  fle TOLERANCE e1 = true -> fle e1 e2 = true -> fle e2 one = true ->
  fle zero (decay e2) = true /\ fle (decay e2) (decay e1) = true
  /\ fle (decay e1) ten = true.
Proof.
  intros L M H.
  assert (L2 : fle TOLERANCE e2 = true) by (eapply fle_trans; eassumption).
  assert (H1 : fle e1 one = true) by (eapply fle_trans; eassumption).
  assert (F1 : is_finite e1 = true) by (apply (finite_between TOLERANCE e1 one); auto).
  assert (F2 : is_finite e2 = true) by (apply (finite_between TOLERANCE e2 one); auto).
  (* t = error - TOLERANCE *)
  set (t1 := fsub e1 TOLERANCE). set (t2 := fsub e2 TOLERANCE).
  assert (T0 : fle zero t1 = true)
    by (change zero with (fsub TOLERANCE TOLERANCE); apply fsub_mono_l; auto).
  assert (T12 : fle t1 t2 = true) by (apply fsub_mono_l; auto).
  assert (T9 : fle t2 (literal 9 1) = true)
    by (change (literal 9 1) with (fsub one TOLERANCE); apply fsub_mono_l; auto).
  assert (Ft1 : is_finite t1 = true)
    by (apply (finite_between zero t1 (literal 9 1)); auto; eapply fle_trans; eassumption).
  assert (Ft2 : is_finite t2 = true)
    by (apply (finite_between zero t2 (literal 9 1)); auto; eapply fle_trans; eassumption).
  (* r = t / 0.9 *)
  set (r1 := fdiv t1 (literal 9 1)). set (r2 := fdiv t2 (literal 9 1)).
  assert (P9 : 0 < val (literal 9 1)) by (vm_compute; reflexivity).
  assert (R0 : fle zero r1 = true)
    by (change zero with (fdiv zero (literal 9 1)); apply fdiv_mono_l; auto).
  assert (R12 : fle r1 r2 = true) by (apply fdiv_mono_l; auto).
  assert (R9 : fle r2 one = true)
    by (change one with (fdiv (literal 9 1) (literal 9 1)); apply fdiv_mono_l; auto).
  assert (Fr1 : is_finite r1 = true)
    by (apply (finite_between zero r1 one); auto; eapply fle_trans; eassumption).
  assert (Fr2 : is_finite r2 = true)
    by (apply (finite_between zero r2 one); auto; eapply fle_trans; eassumption).
  (* u = 1 - r *)
  set (u1 := fsub (of_Z 1) r1). set (u2 := fsub (of_Z 1) r2).
  assert (U0 : fle zero u2 = true)
    by (change zero with (fsub (of_Z 1) one); apply fsub_anti_r; auto).
  assert (U12 : fle u2 u1 = true) by (apply fsub_anti_r; auto).
  assert (U9 : fle u1 one = true)
    by (change one with (fsub (of_Z 1) zero); apply fsub_anti_r; auto).
  assert (Fu1 : is_finite u1 = true)
    by (apply (finite_between zero u1 one); auto; eapply fle_trans; eassumption).
  assert (Fu2 : is_finite u2 = true)
    by (apply (finite_between zero u2 one); auto; eapply fle_trans; eassumption).
  (* score = 10 * u *)
  assert (P10 : 0 <= val (literal 100 1)) by (vm_compute; discriminate).
  unfold decay. fold t1 t2 r1 r2 u1 u2. repeat split.
  - change zero with (fmul (literal 100 1) zero). apply fmul_mono_r; auto.
  - apply fmul_mono_r; auto.
  - change ten with (fmul (literal 100 1) one). apply fmul_mono_r; auto.
Qed.

(** *** [round(x, 2)] *)


Lemma round_q_mono q1 q2 : q1 <= q2 -> round_q 2 q1 <= round_q 2 q2.
Proof.
  intros H. unfold round_q.
  assert (M : (round_half_even (q1 * pow10 2) <= round_half_even (q2 * pow10 2))%Z).
  { apply round_half_even_mono. change (pow10 2) with 100. lra. }
  rewrite Zle_Qle in M. change (pow10 (- (2))) with (1 # 100). lra.
Qed.

Lemma round_ndigits_Fin m e :
  round_ndigits (Fin m e) 2 =
  if is_finite (rnd (round_q 2 (F2Q m e))) then Ok (rnd (round_q 2 (F2Q m e)))
  else Raise {| exn_cls := OverflowError;
                exn_str := "rounded value too large to represent" |}.
Proof. reflexivity. Qed.

Lemma round2_ok x :
  fle zero x = true -> fle x ten = true ->
  exists r k, round_ndigits x 2 = Ok r /\ fle zero r = true /\ fle r ten = true
              /\ (0 <= k <= 1000)%Z /\ r = rnd (inject_Z k / 100).
Proof.
  intros L H.
  destruct x as [| |m e]; try (destruct neg; discriminate); try discriminate.
  apply fle_Fin in L. apply fle_Fin in H.
  rewrite round_ndigits_Fin.
  assert (A : fle zero (rnd (round_q 2 (F2Q m e))) = true).
  { change zero with (rnd (round_q 2 (F2Q 0 emin))). apply rnd_mono, round_q_mono, L. }
  assert (B : fle (rnd (round_q 2 (F2Q m e))) ten = true).
  { change ten with (rnd (round_q 2 (F2Q 5629499534213120 (-49)))).
    apply rnd_mono, round_q_mono, H. }
  rewrite (finite_between zero _ ten eq_refl eq_refl A B).
  exists (rnd (round_q 2 (F2Q m e))), (round_half_even (F2Q m e * pow10 2)).
  repeat split; auto.
  - rewrite <- (round_half_even_Z 0) at 1. apply round_half_even_mono.
    change (pow10 2) with 100. change (inject_Z 0) with 0.
    assert (F2Q 0 emin == 0) by reflexivity. lra.
  - rewrite <- (round_half_even_Z 1000). apply round_half_even_mono.
    change (pow10 2) with 100.
    assert (E : F2Q 5629499534213120 (-49) == 10) by reflexivity.
    change (inject_Z 1000) with 1000. lra.
Qed.

Lemma round2_mono x y rx ry :
  is_finite x = true -> is_finite y = true -> fle x y = true ->
  round_ndigits x 2 = Ok rx -> round_ndigits y 2 = Ok ry -> fle rx ry = true.
Proof.
  destruct x as [| |m1 e1], y as [| |m2 e2]; try discriminate.
  intros _ _ H. apply fle_Fin in H. rewrite !round_ndigits_Fin.
  destruct (is_finite _); [|discriminate]. destruct (is_finite _); [|discriminate].
  intros [= <-] [= <-]. apply rnd_mono, round_q_mono, H.
Qed.

Lemma round2_ten : round_ndigits ten 2 = Ok ten.
Proof. vm_compute. reflexivity. Qed.
Lemma round2_zero : round_ndigits zero 2 = Ok zero.
Proof. vm_compute. reflexivity. Qed.

(** *** The branch taken, from the position of [error] *)

Lemma fle_not_flt x y : fle y x = true -> flt x y = false.
Proof.
  destruct x as [|[]|], y as [|[]|]; simpl; try congruence; intros ->; reflexivity.
Qed.


Lemma band_branch error :
  flt TOLERANCE error = true -> flt error (literal 10 1) = true ->
  score_of_error error = round_ndigits (decay error) 2.
Proof.
  intros A B. unfold score_of_error.
  rewrite (raw_score_band error (flt_not_fle _ _ A) B). reflexivity.
Qed.

Lemma full_branch error :
  fle error TOLERANCE = true -> score_of_error error = Ok ten.
Proof.
  intros A. unfold score_of_error, raw_score. rewrite A, literal_ten. apply round2_ten.
Qed.

Lemma zero_branch error :
  fle (literal 10 1) error = true -> score_of_error error = Ok zero.
Proof.
  intros A. unfold score_of_error, raw_score.
  assert (B : fle error TOLERANCE = false).
  { destruct (fle error TOLERANCE) eqn:E; [|reflexivity].
    pose proof (fle_trans _ _ _ A E) as C. vm_compute in C. discriminate. }
  assert (C : flt error (literal 10 1) = false) by (apply fle_not_flt, A).
  rewrite B, C, literal_zero. apply round2_zero.
Qed.

(** The score is always defined, and lies on the grid of hundredths
    between 0 and 10. *)
Lemma score_of_error_total error :
  exists s k, score_of_error error = Ok s /\ fle zero s = true /\ fle s ten = true
              /\ (0 <= k <= 1000)%Z /\ s = rnd (inject_Z k / 100).
Proof.
  destruct (fle error TOLERANCE) eqn:A.
  - exists ten, 1000%Z. rewrite (full_branch _ A). repeat split; try reflexivity; lia.
  - destruct (flt error (literal 10 1)) eqn:B.
    + assert (A' : flt TOLERANCE error = true).
      { rewrite TOLERANCE_eq in A |- *. exact (not_fle_flt _ _ _ _ A B). }
      rewrite (band_branch _ A' B).
      rewrite literal_one in B.
      assert (F : is_finite error = true).
      { apply (finite_between TOLERANCE error one); try reflexivity.
        - apply flt_fle, A'.
        - apply flt_fle, B. }
      destruct (decay_stages error error (flt_fle _ _ A')) as (D0 & _ & D10).
      { apply fle_refl_finite, F. }
      { apply flt_fle, B. }
      destruct (round2_ok _ D0 D10) as (r & k & R). exists r, k. exact R.
    + exists zero, 0%Z. unfold score_of_error, raw_score. rewrite A, B, literal_zero.
      cbn [rbind]. rewrite round2_zero. repeat split; try reflexivity; lia.
Qed.

(** A score on the grid of hundredths that reaches 10 is 10, and one that
    does not exceed 0 is 0. *)
Lemma grid_top s k :
  (0 <= k <= 1000)%Z -> s = rnd (inject_Z k / 100) -> fle ten s = true -> s = ten.
Proof.
  intros K -> H.
  destruct (Z.eq_dec k 1000) as [->|N]; [vm_compute; reflexivity|].
  exfalso.
  assert (M : fle (rnd (inject_Z k / 100)) (rnd (inject_Z 999 / 100)) = true).
  { apply rnd_mono. assert (Hk : (k <= 999)%Z) by lia. rewrite Zle_Qle in Hk.
    unfold Qdiv. apply Qmult_le_compat_r; [exact Hk | discriminate]. }
  pose proof (fle_trans _ _ _ H M) as C. vm_compute in C. discriminate.
Qed.

Lemma grid_bottom s k :
  (0 <= k <= 1000)%Z -> s = rnd (inject_Z k / 100) -> fle s zero = true -> s = zero.
Proof.
  intros K -> H.
  destruct (Z.eq_dec k 0) as [->|N]; [vm_compute; reflexivity|].
  exfalso.
  assert (M : fle (rnd (inject_Z 1 / 100)) (rnd (inject_Z k / 100)) = true).
  { apply rnd_mono. assert (Hk : (1 <= k)%Z) by lia. rewrite Zle_Qle in Hk.
    unfold Qdiv. apply Qmult_le_compat_r; [exact Hk | discriminate]. }
  pose proof (fle_trans _ _ _ M H) as C. vm_compute in C. discriminate.
Qed.

Lemma band_finite e :
  flt TOLERANCE e = true -> flt e (literal 10 1) = true -> is_finite e = true.
Proof.
  intros A B. apply (finite_between TOLERANCE e one); try reflexivity.
  - apply flt_fle, A.
  - apply flt_fle in B. exact B.
Qed.

Lemma score_band_mono e1 e2 s1 s2 :
  flt TOLERANCE e1 = true -> fle e1 e2 = true -> flt e2 (literal 10 1) = true ->
  score_of_error e1 = Ok s1 -> score_of_error e2 = Ok s2 ->
  fle s2 s1 = true.
Proof.
  intros A M B.
  assert (B1 : flt e1 (literal 10 1) = true) by (eapply fle_flt_trans; eassumption).
  assert (A2 : flt TOLERANCE e2 = true) by (eapply flt_fle_trans; eassumption).
  rewrite (band_branch e1 A B1), (band_branch e2 A2 B).
  destruct (decay_stages e1 e2 (flt_fle _ _ A) M (flt_fle _ _ B)) as (D0 & D12 & D10).
  intros R1 R2. apply (round2_mono (decay e2) (decay e1)); auto.
  - apply (finite_between zero _ ten); auto. eapply fle_trans; eassumption.
  - apply (finite_between zero _ ten); auto. eapply fle_trans; eassumption.
Qed.

Lemma score_plateau_top e s :
  flt TOLERANCE e = true -> fle e (literal 1004 4) = true ->
  score_of_error e = Ok s -> s = ten.
Proof.
  intros A H R.
  assert (B : flt (literal 1004 4) (literal 10 1) = true) by (vm_compute; reflexivity).
  destruct (score_of_error_total e) as (s' & k & R' & _ & _ & K & E).
  rewrite R in R'. injection R' as <-.
  apply (grid_top s k K E).
  assert (T : score_of_error (literal 1004 4) = Ok ten) by (vm_compute; reflexivity).
  apply (score_band_mono e (literal 1004 4) s ten A H B R T).
Qed.

Lemma score_plateau_bottom e s :
  fle (literal 9996 4) e = true -> flt e (literal 10 1) = true ->
  score_of_error e = Ok s -> s = zero.
Proof.
  intros A H R.
  assert (B : flt TOLERANCE (literal 9996 4) = true) by (vm_compute; reflexivity).
  destruct (score_of_error_total e) as (s' & k & R' & _ & _ & K & E).
  rewrite R in R'. injection R' as <-.
  apply (grid_bottom s k K E).
  assert (T : score_of_error (literal 9996 4) = Ok zero) by (vm_compute; reflexivity).
  apply (score_band_mono (literal 9996 4) e zero s B A H T R).
Qed.

(** [relative_error] and [grade_value] never raise. *)
Lemma relative_error_eq v :
  relative_error v = Ok (fdiv (fabs (fsub v OPTIMAL_F1)) OPTIMAL_F1).
Proof. reflexivity. Qed.

Lemma grade_value_total v :
  exists score k,
    grade_value v =
      Ok (Float score,
          feedback_text v (fdiv (fabs (fsub v OPTIMAL_F1)) OPTIMAL_F1) score)
    /\ score_of_error (fdiv (fabs (fsub v OPTIMAL_F1)) OPTIMAL_F1) = Ok score
    /\ (0 <= k <= 1000)%Z /\ score = rnd (inject_Z k / 100).
Proof.
  unfold grade_value. rewrite relative_error_eq. cbn [rbind].
  destruct (score_of_error_total (fdiv (fabs (fsub v OPTIMAL_F1)) OPTIMAL_F1))
    as (s & k & R & _ & _ & K & E).
  exists s, k. rewrite R. cbn [rbind]. auto.
Qed.

End ScoreFacts.

(* ================================================================== *)
(** ** The two patterns *)
(* ================================================================== *)

Module ReFacts.

Import Re Spec.

Lemma match_here_many p r s o caps :
  match_here (Many p :: r) s o caps =
  match s with
  | String c s' =>
      if p c then
        match match_here (Many p :: r) s' o caps with
        | Some res => Some res
        | None => match_here r s o caps
        end
      else match_here r s o caps
  | EmptyString => match_here r s o caps
  end.
Proof. destruct s; reflexivity. Qed.

Lemma match_ones ps r s o caps :
  match_here (map One ps ++ r)%list s o caps =
  match strip ps s with
  | Some s' => match_here r s' o caps
  | None => None
  end.
Proof.
  revert s. induction ps as [|p ps IH]; intros s; simpl; [reflexivity|].
  destruct s as [|c s]; [reflexivity|]. destruct (p c); [apply IH|reflexivity].
Qed.

Lemma lit_i_ones m : lit_i m = map One (map chr_i (list_ascii_of_string m)).
Proof. unfold lit_i. now rewrite map_map. Qed.

Lemma lit_ones m : lit m = map One (map chr (list_ascii_of_string m)).
Proof. unfold lit. now rewrite map_map. Qed.

(** A greedy repetition never has to give characters back when what
    follows cannot start with a character of its class. *)
Lemma many_committed p r s o caps :
  (forall c t, p c = true -> match_here r (String c t) o caps = None) ->
  match_here (Many p :: r) s o caps = match_here r (drop_while p s) o caps.
Proof.
  intros D. induction s as [|c s IH]; rewrite match_here_many; cbn [drop_while];
    [reflexivity|].
  destruct (p c) eqn:E; [|reflexivity].
  rewrite IH. destruct (match_here r (drop_while p s) o caps); [reflexivity|].
  now apply D.
Qed.

Lemma str_length_app a b : String.length (a ++ b) = (String.length a + String.length b)%nat.
Proof. induction a; simpl; auto. Qed.

Lemma take_app a b : Str.take (String.length a) (a ++ b) = a.
Proof.
  unfold Str.take. induction a as [|c a IH]; simpl.
  - destruct b; reflexivity.
  - now rewrite IH.
Qed.

Lemma between_app a b : between (a ++ b) b = a.
Proof.
  unfold between. rewrite str_length_app.
  replace (String.length a + String.length b - String.length b)%nat
    with (String.length a) by lia.
  apply take_app.
Qed.

Lemma take_drop_while p s : s = take_while p s ++ drop_while p s.
Proof. induction s as [|c s IH]; simpl; [reflexivity|]. destruct (p c); simpl; congruence. Qed.

Lemma between_while p c s : 
  between (String c s) (drop_while p s) = String c (take_while p s).
Proof.
  rewrite (take_drop_while p s) at 1.
  change (String c (take_while p s ++ drop_while p s))
    with (String c (take_while p s) ++ drop_while p s).
  apply between_app.
Qed.

Lemma digit_not_comma c : digit_or_dot c = true -> chr_i "," c = false.
Proof. destruct c as [[] [] [] [] [] [] [] []]; vm_compute; congruence. Qed.
Lemma digit_not_bracket c : digit_or_dot c = true -> chr_i "]" c = false.
Proof. destruct c as [[] [] [] [] [] [] [] []]; vm_compute; congruence. Qed.
Lemma space_not_digit c : space c = true -> digit_or_dot c = false.
Proof. destruct c as [[] [] [] [] [] [] [] []]; vm_compute; congruence. Qed.
Lemma chr_i_comma c : chr_i "," c = Ascii.eqb c ",".
Proof. destruct c as [[] [] [] [] [] [] [] []]; vm_compute; congruence. Qed.
Lemma chr_i_bracket c : chr_i "]" c = Ascii.eqb c "]".
Proof. destruct c as [[] [] [] [] [] [] [] []]; vm_compute; congruence. Qed.

Lemma match_here_open r s o caps :
  match_here (Open :: r) s o caps = match_here r s (s :: o) caps.
Proof. reflexivity. Qed.

Lemma match_here_close r s o os caps :
  match_here (Close :: r) s (o :: os) caps
  = match_here r s os (caps ++ [between o s])%list.
Proof. reflexivity. Qed.

Lemma match_here_one p r s o caps :
  match_here (One p :: r) s o caps =
  match s with
  | String c s' => if p c then match_here r s' o caps else None
  | EmptyString => None
  end.
Proof. reflexivity. Qed.

Lemma match_here_nil s o caps : match_here [] s o caps = Some (caps, s).
Proof. reflexivity. Qed.

Lemma match_ideal_point s : match_at Grader.ideal_point s = parse_marker s.
Proof.
  unfold match_at, Grader.ideal_point, parse_marker.
  rewrite lit_i_ones, match_ones. fold marker_i.
  destruct (strip marker_i s) as [s1|]; [|reflexivity].
  cbn [group plus app lit_i list_ascii_of_string map].
  rewrite match_here_open, match_here_one.
  destruct s1 as [|c1 s1]; [reflexivity|]. cbn [take_while drop_while].
  destruct (digit_or_dot c1) eqn:D1; [|reflexivity].
  rewrite many_committed
    by (intros c t H; rewrite match_here_close, match_here_one; now rewrite digit_not_comma).
  rewrite match_here_close, match_here_one, between_while. cbn [app].
  destruct (drop_while digit_or_dot s1) as [|c2 s3]; [reflexivity|].
  rewrite chr_i_comma.
  destruct (Ascii.eqb_spec c2 ","); [subst c2|].
  2:{ destruct c2 as [[] [] [] [] [] [] [] []]; try reflexivity. congruence. }
  rewrite many_committed
    by (intros c t H; rewrite match_here_open, match_here_one; now rewrite space_not_digit).
  rewrite match_here_open, match_here_one.
  destruct (drop_while space s3) as [|c4 s4]; [reflexivity|]. cbn [take_while drop_while].
  destruct (digit_or_dot c4) eqn:D4; [|reflexivity].
  rewrite many_committed
    by (intros c t H; rewrite match_here_close, match_here_one; now rewrite digit_not_bracket).
  rewrite match_here_close, match_here_one, between_while. cbn [app].
  destruct (drop_while digit_or_dot s4) as [|c5 rest]; [reflexivity|].
  rewrite chr_i_bracket.
  destruct (Ascii.eqb_spec c5 "]"); [subst c5; reflexivity|].
  destruct c5 as [[] [] [] [] [] [] [] []]; try reflexivity. congruence.
Qed.

Lemma str_app_assoc a b c : (a ++ b) ++ c = a ++ (b ++ c).
Proof. induction a; simpl; congruence. Qed.

Ltac str_assoc :=
  repeat (progress (rewrite ?str_app_assoc; cbn [append])); reflexivity.

Lemma str_app_nil_r a : a ++ "" = a.
Proof. induction a; simpl; congruence. Qed.

Lemma findall_scan_skip r a b :
  findall_scan r (a ++ b) (String.length a) = findall_scan r b 0.
Proof. induction a as [|c a IH]; simpl; [reflexivity|exact IH]. Qed.

Lemma findall_match r c a b caps :
  match_at r (String c a ++ b) = Some (caps, b) ->
  findall r (String c a ++ b) = caps :: findall r b.
Proof.
  change (String c a ++ b) with (String c (a ++ b)) in *.
  intros H. unfold findall. cbn [findall_scan]. rewrite H. f_equal.
  cbn [String.length]. rewrite !str_length_app.
  replace (S (String.length a + String.length b) - String.length b - 1)%nat
    with (String.length a) by lia.
  apply findall_scan_skip.
Qed.

Lemma findall_nomatch r c s :
  match_at r (String c s) = None -> findall r (String c s) = findall r s.
Proof. intros H. unfold findall. cbn [findall_scan]. now rewrite H. Qed.

Lemma findall_nil r : match_at r "" = None -> findall r "" = [].
Proof. intros H. unfold findall. cbn. now rewrite H. Qed.

(** What a match of the marker pattern leaves is a proper suffix. *)
Lemma strip_suffix ps s r : strip ps s = Some r -> exists a, s = a ++ r /\ String.length a = List.length ps.
Proof.
  revert s. induction ps as [|p ps IH]; intros s; simpl.
  - intros [= ->]. now exists "".
  - destruct s as [|c s]; [discriminate|]. destruct (p c); [|discriminate].
    intros H. destruct (IH _ H) as (a & -> & L). exists (String c a). simpl. auto.
Qed.

Lemma parse_marker_suffix s caps rest :
  parse_marker s = Some (caps, rest) -> exists c a, s = String c a ++ rest.
Proof.
  unfold parse_marker. destruct (strip marker_i s) as [s1|] eqn:E; [|discriminate].
  destruct (strip_suffix _ _ _ E) as (a & -> & L). clear E.
  pose proof (take_drop_while digit_or_dot s1) as E1.
  set (g1 := take_while digit_or_dot s1) in *.
  set (d1 := drop_while digit_or_dot s1) in *. clearbody g1 d1.
  destruct g1 as [|x g1]; [discriminate|].
  destruct d1 as [|c2 s3]; [discriminate|].
  destruct c2 as [[] [] [] [] [] [] [] []]; try discriminate.
  pose proof (take_drop_while space s3) as E3.
  set (ws := take_while space s3) in *.
  set (s4 := drop_while space s3) in *. clearbody ws s4.
  pose proof (take_drop_while digit_or_dot s4) as E4.
  set (g2 := take_while digit_or_dot s4) in *.
  set (d4 := drop_while digit_or_dot s4) in *. clearbody g2 d4.
  destruct g2 as [|y g2]; [discriminate|].
  destruct d4 as [|c5 r]; [discriminate|].
  destruct c5 as [[] [] [] [] [] [] [] []]; try discriminate.
  intros [= <- <-]. subst s4 s3 s1.
  destruct a as [|c a]; [discriminate|].
  exists c, (a ++ String x g1 ++ "," ++ ws ++ String y g2 ++ "]").
  str_assoc.
Qed.

Lemma findall_ideal_match s caps rest :
  parse_marker s = Some (caps, rest) ->
  findall Grader.ideal_point s = caps :: findall Grader.ideal_point rest.
Proof.
  intros H. destruct (parse_marker_suffix _ _ _ H) as (c & a & ->).
  apply findall_match. now rewrite match_ideal_point.
Qed.

Lemma findall_ideal_nomatch c s :
  parse_marker (String c s) = None ->
  findall Grader.ideal_point (String c s) = findall Grader.ideal_point s.
Proof. intros H. apply findall_nomatch. now rewrite match_ideal_point. Qed.

Lemma findall_ideal_nil : findall Grader.ideal_point "" = [].
Proof. reflexivity. Qed.

Lemma all_take_while p s : all p (take_while p s) = true.
Proof. induction s as [|c s IH]; simpl; [reflexivity|]. destruct (p c) eqn:E; simpl; [now rewrite E|reflexivity]. Qed.

(** Both captured groups are non-empty runs of digits and points. *)
Lemma parse_marker_groups s caps rest :
  parse_marker s = Some (caps, rest) ->
  exists g1 g2, caps = [g1; g2] /\ unsigned_decimal g1 /\ unsigned_decimal g2.
Proof.
  unfold parse_marker. destruct (strip marker_i s) as [s1|]; [|discriminate].
  pose proof (all_take_while digit_or_dot s1) as A1.
  destruct (take_while digit_or_dot s1) as [|x g1]; [discriminate|].
  destruct (drop_while digit_or_dot s1) as [|c2 s3]; [discriminate|].
  destruct c2 as [[] [] [] [] [] [] [] []]; try discriminate.
  pose proof (all_take_while digit_or_dot (drop_while space s3)) as A2.
  destruct (take_while digit_or_dot (drop_while space s3)) as [|y g2]; [discriminate|].
  destruct (drop_while digit_or_dot (drop_while space s3)) as [|c5 r]; [discriminate|].
  destruct c5 as [[] [] [] [] [] [] [] []]; try discriminate.
  intros [= <- <-]. exists (String x g1), (String y g2).
  repeat split; auto; discriminate.
Qed.

Lemma findall_scan_Forall r (P : list string -> Prop) :
  (forall s caps rest, match_at r s = Some (caps, rest) -> P caps) ->
  forall s k, Forall P (findall_scan r s k).
Proof.
  intros H s. induction s as [|c s IH]; intros k.
  - destruct k; cbn; [|constructor].
    destruct (match_at r "") as [[caps rest]|] eqn:E; constructor; eauto.
  - destruct k; cbn [findall_scan]; [|apply IH].
    destruct (match_at r (String c s)) as [[caps rest]|] eqn:E; [constructor|]; eauto.
Qed.

(** *** Text appended after a scan position *)

Section Appended.

(** Text that starts like a marker line. *)
Variable t : string.

Lemma take_while_app p u x v :
  p x = false -> take_while p (u ++ String x v) = take_while p u.
Proof. intros H. induction u as [|c u IH]; simpl; [now rewrite H|]. destruct (p c); congruence. Qed.

Lemma drop_while_app p u x v :
  p x = false -> drop_while p (u ++ String x v) = drop_while p u ++ String x v.
Proof.
  intros H. induction u as [|c u IH]; simpl; [now rewrite H|].
  destruct (p c); [exact IH | reflexivity].
Qed.

Lemma strip_app_some ps u r v :
  strip ps u = Some r -> strip ps (u ++ v) = Some (r ++ v).
Proof.
  revert u. induction ps as [|p ps IH]; intros u; simpl.
  - now intros [= ->].
  - destruct u as [|c u]; [discriminate|]. simpl. destruct (p c); [apply IH|discriminate].
Qed.

Lemma strip_marker_app_none c u :
  strip marker_i (String c u) = None -> strip marker_i (String c u ++ marker_start t) = None.
Proof.
  unfold marker_i. cbn [map list_ascii_of_string].
  cbn [strip append]. destruct (chr_i _ c); [|reflexivity].
  revert u.
  do 17 (intros u; destruct u as [|? u]; [intros _; reflexivity|];
         cbn [strip append];
         match goal with
         | |- context [chr_i ?a ?b] => destruct (chr_i a b)
         end; [|reflexivity]; revert u).
  intros u. discriminate.
Qed.

Lemma parse_marker_app c u :
  parse_marker (String c u ++ marker_start t) = appended t (parse_marker (String c u)).
Proof.
  unfold parse_marker.
  destruct (strip marker_i (String c u)) as [s1|] eqn:E.
  2:{ now rewrite strip_marker_app_none. }
  rewrite (strip_app_some _ _ _ (marker_start t) E). unfold marker_start.
  rewrite take_while_app, drop_while_app by reflexivity.
  destruct (take_while digit_or_dot s1) as [|x g1]; [reflexivity|].
  destruct (drop_while digit_or_dot s1) as [|c2 s3]; [reflexivity|].
  cbn [append].
  destruct c2 as [[] [] [] [] [] [] [] []]; try reflexivity.
  rewrite drop_while_app by reflexivity.
  rewrite take_while_app, drop_while_app by reflexivity.
  destruct (take_while digit_or_dot (drop_while space s3)) as [|y g2]; [reflexivity|].
  destruct (drop_while digit_or_dot (drop_while space s3)) as [|c5 r]; [reflexivity|].
  cbn [append].
  destruct c5 as [[] [] [] [] [] [] [] []]; reflexivity.
Qed.

(** Matches before such text are found as if it were not there. *)
Lemma findall_before_marker b :
  findall Grader.ideal_point (b ++ marker_start t)
  = (findall Grader.ideal_point b ++ findall Grader.ideal_point (marker_start t))%list.
Proof.
  remember (String.length b) as n eqn:Hn. revert b Hn.
  induction n as [n IH] using lt_wf_ind. intros b Hn.
  destruct b as [|c u]; [reflexivity|].
  pose proof (parse_marker_app c u) as P.
  destruct (parse_marker (String c u)) as [[caps rest]|] eqn:E; cbn [appended] in P.
  - destruct (parse_marker_suffix _ _ _ E) as (c' & a & Ea).
    rewrite (findall_ideal_match _ _ _ P), (findall_ideal_match _ _ _ E).
    cbn [app]. f_equal. apply (IH (String.length rest)); [|reflexivity].
    subst n. rewrite Ea. cbn [append String.length]. rewrite str_length_app. lia.
  - change (String c u ++ marker_start t) with (String c (u ++ marker_start t)) in *.
    rewrite (findall_ideal_nomatch _ _ P), (findall_ideal_nomatch _ _ E).
    apply (IH (String.length u)); [subst n; cbn; lia | reflexivity].
Qed.

End Appended.

Lemma parse_marker_not_i c s : chr_i "I" c = false -> parse_marker (String c s) = None.
Proof. intros H. unfold parse_marker, marker_i. cbn [map list_ascii_of_string strip]. now rewrite H. Qed.

Lemma findall_skip_no_i a t :
  all not_i a = true ->
  findall Grader.ideal_point (a ++ t) = findall Grader.ideal_point t.
Proof.
  induction a as [|c a IH]; cbn [all append]; [reflexivity|].
  intros H. apply andb_true_iff in H as [H1 H2].
  rewrite findall_ideal_nomatch; [now apply IH|].
  apply parse_marker_not_i. unfold not_i in H1. now apply negb_true_iff in H1.
Qed.

Lemma all_app p a b : all p (a ++ b) = all p a && all p b.
Proof. induction a as [|c a IH]; simpl; [reflexivity|]. now rewrite IH, andb_assoc. Qed.

Lemma all_impl (p q : ascii -> bool) s :
  (forall c, p c = true -> q c = true) -> all p s = true -> all q s = true.
Proof.
  intros H. induction s as [|c s IH]; simpl; [reflexivity|].
  intros A. apply andb_true_iff in A as [A1 A2]. now rewrite (H _ A1), IH.
Qed.

Lemma number_char_not_i c : number_char c = true -> not_i c = true.
Proof. destruct c as [[] [] [] [] [] [] [] []]; vm_compute; congruence. Qed.
Lemma space_not_i c : space c = true -> not_i c = true.
Proof. destruct c as [[] [] [] [] [] [] [] []]; vm_compute; congruence. Qed.
Lemma number_char_comma c :
  number_char c = true -> digit_or_dot c = false -> Ascii.eqb c "," = false.
Proof. destruct c as [[] [] [] [] [] [] [] []]; vm_compute; congruence. Qed.

(** A number text with a sign or an exponent stops the digits at a
    character that is not the comma. *)
Lemma signed_number_stops n1 z :
  all number_char n1 = true -> all digit_or_dot n1 = false ->
  exists c tl, drop_while digit_or_dot (n1 ++ z) = String c tl
               /\ Ascii.eqb c "," = false.
Proof.
  induction n1 as [|c n1 IH]; cbn [all append drop_while]; [discriminate|].
  intros N D. apply andb_true_iff in N as [N1 N2].
  destruct (digit_or_dot c) eqn:E.
  - apply IH; assumption.
  - exists c, (n1 ++ z). split; [reflexivity|]. now apply number_char_comma.
Qed.

Lemma parse_signed_line n1 z :
  all number_char n1 = true -> all digit_or_dot n1 = false ->
  parse_marker ("Ideal point: z = [" ++ n1 ++ z) = None.
Proof.
  intros N D. unfold parse_marker.
  change (strip marker_i ("Ideal point: z = [" ++ n1 ++ z)) with (Some (n1 ++ z)).
  destruct (signed_number_stops n1 z N D) as (c & tl & -> & C).
  destruct (take_while digit_or_dot (n1 ++ z)); [reflexivity|].
  destruct c as [[] [] [] [] [] [] [] []]; try reflexivity. discriminate.
Qed.

(** A marker line whose first number has a sign or an exponent yields no
    match, whatever follows it. *)
Lemma signed_line_skipped n1 ws n2 after :
  all number_char n1 = true -> all digit_or_dot n1 = false ->
  all space ws = true -> all number_char n2 = true ->
  findall Grader.ideal_point (marker_line n1 ws n2 ++ after)
  = findall Grader.ideal_point after.
Proof.
  intros N1 D1 W N2. unfold marker_line.
  replace (("Ideal point: z = [" ++ n1 ++ "," ++ ws ++ n2 ++ "]") ++ after)
    with ("Ideal point: z = [" ++ n1 ++ ("," ++ ws ++ n2 ++ "]" ++ after))
    by str_assoc.
  pose proof (parse_signed_line n1 ("," ++ ws ++ n2 ++ "]" ++ after) N1 D1) as P.
  set (y := n1 ++ "," ++ ws ++ n2 ++ "]" ++ after) in *.
  cbn [append] in P |- *.
  rewrite (findall_ideal_nomatch _ _ P).
  do 17 (rewrite findall_ideal_nomatch by reflexivity).
  subst y.
  replace (n1 ++ "," ++ ws ++ n2 ++ "]" ++ after)
    with ((n1 ++ "," ++ ws ++ n2 ++ "]") ++ after) by str_assoc.
  apply findall_skip_no_i.
  rewrite !all_app. cbn [all].
  rewrite (all_impl _ _ _ number_char_not_i N1), (all_impl _ _ _ space_not_i W),
    (all_impl _ _ _ number_char_not_i N2). reflexivity.
Qed.

Theorem signed_line_never_matched before n1 ws n2 after :
  all number_char n1 = true -> all digit_or_dot n1 = false ->
  all space ws = true -> all number_char n2 = true ->
  findall Grader.ideal_point (before ++ marker_line n1 ws n2 ++ after)
  = (findall Grader.ideal_point before ++ findall Grader.ideal_point after)%list.
Proof.
  intros N1 D1 W N2.
  rewrite <- (signed_line_skipped n1 ws n2 after N1 D1 W N2).
  unfold marker_line.
  replace (("Ideal point: z = [" ++ n1 ++ "," ++ ws ++ n2 ++ "]") ++ after)
    with ("Ideal point: z = [" ++ n1 ++ "," ++ ws ++ n2 ++ "]" ++ after) by str_assoc.
  cbn [append]. apply findall_before_marker.
Qed.

(** *** The placeholder pattern *)


Lemma match_many_last p s o caps :
  match_here [Many p] s o caps = Some (caps, drop_while p s).
Proof.
  induction s as [|c s IH]; rewrite match_here_many; cbn [drop_while]; [reflexivity|].
  destruct (p c); [now rewrite IH | reflexivity].
Qed.

Lemma prefix_nil s : String.prefix "" s = true.
Proof. destruct s; reflexivity. Qed.

Lemma prefix_cons a m b s :
  String.prefix (String a m) (String b s) = Ascii.eqb a b && String.prefix m s.
Proof.
  cbn [String.prefix]. destruct (ascii_dec a b) as [->|N].
  - now rewrite Ascii.eqb_refl.
  - destruct (Ascii.eqb_spec a b); [contradiction|reflexivity].
Qed.

Lemma strip_lit m s :
  strip (map chr (list_ascii_of_string m)) s =
  if String.prefix m s then Some (drop (String.length m) s) else None.
Proof.
  revert s. induction m as [|a m IH]; intros s; cbn [list_ascii_of_string map strip].
  - rewrite prefix_nil. destruct s; reflexivity.
  - destruct s as [|b s]; [reflexivity|]. rewrite prefix_cons. unfold chr at 1.
    destruct (Ascii.eqb a b); [apply IH | reflexivity].
Qed.

Lemma drop_while_prefix p m s :
  all p m = true -> String.prefix m s = true ->
  drop_while p (drop (String.length m) s) = drop_while p s.
Proof.
  revert s. induction m as [|a m IH]; intros s; cbn [all String.length].
  - destruct s; reflexivity.
  - destruct s as [|b s]; [discriminate|]. rewrite prefix_cons.
    intros A P. apply andb_true_iff in A as [A1 A2]. apply andb_true_iff in P as [P1 P2].
    apply Ascii.eqb_eq in P1. subst b. cbn [drop drop_while]. rewrite A1. now apply IH.
Qed.

(** The placeholder pattern matches at [s] exactly when the sentinel occurs
    in the first line of [s], and the match then runs to the end of that
    line. *)
Lemma match_placeholder s :
  match_at Grader.placeholder s =
  if in_first_line s then Some ([], drop_while dot s) else None.
Proof.
  unfold match_at, Grader.placeholder.
  assert (T : forall u, match_here (lit "# YOUR CODE HERE" ++ [Many dot])%list u [] [] =
                        if String.prefix sentinel u then Some ([], drop_while dot u) else None).
  { intros u. rewrite lit_ones, match_ones, strip_lit. fold sentinel.
    destruct (String.prefix sentinel u) eqn:P; [|reflexivity].
    rewrite match_many_last. now rewrite (drop_while_prefix dot sentinel u eq_refl P). }
  induction s as [|c s IH]; rewrite match_here_many, T; cbn [in_first_line drop_while].
  - now rewrite orb_false_r.
  - destruct (dot c) eqn:D.
    + rewrite IH. destruct (in_first_line s).
      * now rewrite orb_true_r.
      * now rewrite orb_false_r.
    + now rewrite orb_false_r.
Qed.

Lemma prefix_in_line p m s :
  all p m = true -> String.prefix m s = String.prefix m (take_while p s).
Proof.
  revert s. induction m as [|a m IH]; intros s; cbn [all].
  - now rewrite !prefix_nil.
  - intros A. apply andb_true_iff in A as [A1 A2].
    destruct s as [|b s]; [reflexivity|]. cbn [take_while].
    destruct (p b) eqn:E.
    + rewrite !prefix_cons. now rewrite (IH s A2).
    + rewrite prefix_cons. destruct (Ascii.eqb_spec a b); [congruence|reflexivity].
Qed.

Lemma in_first_line_contains s :
  in_first_line s = Str.contains sentinel (take_while dot s).
Proof.
  induction s as [|c s IH]; [reflexivity|].
  cbn [in_first_line take_while]. destruct (dot c) eqn:D.
  - cbn [Str.contains]. rewrite (prefix_in_line dot sentinel (String c s) eq_refl).
    cbn [take_while]. rewrite D.
    destruct (String.prefix sentinel (String c (take_while dot s))); [reflexivity|].
    cbn [orb andb]. exact IH.
  - rewrite andb_false_l, orb_false_r.
    rewrite (prefix_in_line dot sentinel (String c s) eq_refl). cbn [take_while].
    rewrite D. reflexivity.
Qed.

Lemma sub_scan_skip r repl a b :
  sub_scan r repl (a ++ b) (String.length a) = sub_scan r repl b 0.
Proof. induction a as [|c a IH]; simpl; [reflexivity|exact IH]. Qed.

Lemma sub_match r repl c a b caps :
  match_at r (String c a ++ b) = Some (caps, b) ->
  sub r repl (String c a ++ b) = repl ++ sub r repl b.
Proof.
  change (String c a ++ b) with (String c (a ++ b)) in *.
  intros H. unfold sub. cbn [sub_scan]. rewrite H. f_equal.
  cbn [String.length]. rewrite !str_length_app.
  replace (S (String.length a + String.length b) - String.length b)%nat
    with (S (String.length a)) by lia.
  apply sub_scan_skip.
Qed.

Lemma sub_nomatch r repl c s :
  match_at r (String c s) = None -> sub r repl (String c s) = String c (sub r repl s).
Proof. intros H. unfold sub. cbn [sub_scan]. now rewrite H. Qed.


Lemma clean_plain_line s :
  in_first_line s = false -> sub Grader.placeholder "1" s = take_while dot s ++ sub Grader.placeholder "1" (drop_while dot s).
Proof.
  induction s as [|c s IH]; [reflexivity|].
  intros H. cbn [take_while drop_while]. destruct (dot c) eqn:D; [|reflexivity].
  rewrite sub_nomatch by (rewrite match_placeholder; now rewrite H).
  cbn [in_first_line] in H. rewrite D in H. apply orb_false_iff in H as [_ H].
  cbn [append]. now rewrite IH.
Qed.

Lemma clean_placeholder_line s :
  in_first_line s = true -> sub Grader.placeholder "1" s = "1" ++ sub Grader.placeholder "1" (drop_while dot s).
Proof.
  intros H. pose proof (take_drop_while dot s) as E.
  destruct (take_while dot s) as [|c a] eqn:T.
  - rewrite in_first_line_contains, T in H. discriminate.
  - rewrite E at 1. apply (sub_match _ _ c a _ []).
    rewrite <- E, match_placeholder, H. reflexivity.
Qed.

Lemma clean_first_line s :
  sub Grader.placeholder "1" s = clean_line (take_while dot s) ++ sub Grader.placeholder "1" (drop_while dot s).
Proof.
  unfold clean_line. rewrite <- in_first_line_contains.
  destruct (in_first_line s) eqn:H;
    [apply clean_placeholder_line | apply clean_plain_line]; exact H.
Qed.

Lemma split_lines_first s :
  split_lines s =
  take_while dot s :: match drop_while dot s with
                      | String _ r => split_lines r
                      | EmptyString => []
                      end.
Proof.
  induction s as [|c s IH]; [reflexivity|].
  cbn [split_lines take_while drop_while]. unfold dot at 1 3.
  destruct (Ascii.eqb c Str.newline); cbn [negb]; [reflexivity|].
  now rewrite IH.
Qed.

Lemma split_lines_cons s : exists l ls, split_lines s = l :: ls.
Proof. rewrite split_lines_first. eauto. Qed.

Lemma drop_while_dot s :
  drop_while dot s = "" \/ exists r, drop_while dot s = String Str.newline r
                                     /\ (String.length r < String.length s)%nat.
Proof.
  induction s as [|c s IH]; [now left|]. cbn [drop_while].
  destruct (dot c) eqn:D.
  - destruct IH as [->|(r & -> & L)]; [now left|]. right. exists r. cbn. split; [reflexivity|lia].
  - right. exists s. split; [|cbn; lia]. f_equal.
    unfold dot in D. apply negb_false_iff in D. now apply Ascii.eqb_eq in D.
Qed.

(** [re.sub(r".*# YOUR CODE HERE.*", "1", s)] replaces each line that holds
    the sentinel by ["1"] and keeps every other line. *)
Theorem sub_placeholder_lines s : sub Grader.placeholder "1" s = replace_placeholder_lines s.
Proof.
  remember (String.length s) as n eqn:Hn. revert s Hn.
  induction n as [n IH] using lt_wf_ind. intros s Hn.
  rewrite clean_first_line. unfold replace_placeholder_lines.
  rewrite split_lines_first. cbn [map].
  destruct (drop_while_dot s) as [->|(r & -> & L)].
  - cbn. now rewrite str_app_nil_r.
  - rewrite sub_nomatch by (rewrite match_placeholder; reflexivity).
    rewrite (IH (String.length r)) by (subst n; auto).
    unfold replace_placeholder_lines, join_lines.
    destruct (split_lines_cons r) as (l & ls & ->). reflexivity.
Qed.

End ReFacts.

(* ================================================================== *)
(** ** Runs of the script *)
(* ================================================================== *)

Module RunFacts.

Import F64 Py Json Grader Spec ScoreFacts ReFacts.

Lemma float_of_str_raises s e : float_of_str s = Raise e -> exn_cls e = ValueError.
Proof.
  unfold float_of_str. destruct (take_sign _) as [neg body].
  destruct (_ || _)%bool; [discriminate|].
  destruct (String.eqb _ _); [discriminate|].
  destruct (decimal_value body); [discriminate|]. now intros [= <-].
Qed.

Lemma last_item_app {A} (ms : list A) m : last_item (ms ++ [m]) = Ok m.
Proof. unfold last_item. now rewrite rev_app_distr. Qed.

Lemma grade_result_last output ms g1 rest :
  Re.findall ideal_point output = (ms ++ [g1 :: rest])%list ->
  grade_result (Some output) = graded_on g1.
Proof.
  intros H. unfold grade_result, graded_on. rewrite H.
  destruct (ms ++ [g1 :: rest])%list as [|m0 ms0] eqn:E.
  { destruct ms; discriminate. }
  rewrite <- E, last_item_app. cbn [rbind item0].
  destruct (float_of_str g1) as [x|e] eqn:F; cbn [rbind try_except]; [reflexivity|].
  unfold is_a. rewrite (float_of_str_raises _ _ F). reflexivity.
Qed.

Lemma grade_result_none output :
  Re.findall ideal_point output = [] -> grade_result (Some output) = Ok (Int 0, not_found).
Proof. intros H. unfold grade_result. now rewrite H. Qed.

Lemma findall_groups output :
  Forall (fun m => exists g1 g2, m = [g1; g2] /\ unsigned_decimal g1 /\ unsigned_decimal g2)
         (Re.findall ideal_point output).
Proof.
  apply findall_scan_Forall. intros s caps rest H.
  rewrite match_ideal_point in H. eapply parse_marker_groups, H.
Qed.

Lemma list_last_cases {A} (l : list A) : l = [] \/ exists ms m, l = (ms ++ [m])%list.
Proof.
  destruct l as [|x l]; [now left|right].
  destruct (exists_last (l := x :: l)) as (ms & m & E); [discriminate|]. eauto.
Qed.

Lemma graded_on_total text : exists score fb, graded_on text = Ok (score, fb).
Proof.
  unfold graded_on. destruct (float_of_str text) as [v|e]; [|eauto].
  destruct (grade_value_total v) as (s & k & E & _). rewrite E. eauto.
Qed.

Lemma grade_result_total output : exists score fb, grade_result output = Ok (score, fb).
Proof.
  destruct output as [out|]; [|cbn; eauto].
  destruct (list_last_cases (Re.findall ideal_point out)) as [E|(ms & m & E)].
  - rewrite (grade_result_none _ E). eauto.
  - pose proof (findall_groups out) as G. rewrite E in G.
    apply Forall_app in G as [_ G]. inversion G as [|? ? (g1 & g2 & -> & _) _]; subst.
    rewrite (grade_result_last _ _ _ _ E). apply graded_on_total.
Qed.

(** [execute_notebook], case by case *)


Lemma execute_gate w p nb tr :
  nbformat_read w p = Ok nb ->
  Str.contains "n_subproblems = 1" (full_code_of nb) = true ->
  execute_notebook w p tr = (Ok (None, Some parameters_not_set), tr).
Proof.
  intros H G. unfold execute_notebook, bind, try_catch, lift. rewrite H. cbn. now rewrite G.
Qed.

Lemma execute_run w p nb tr :
  nbformat_read w p = Ok nb ->
  Str.contains "n_subproblems = 1" (full_code_of nb) = false ->
  execute_notebook w p tr =
  match popen w (command w nb) with
  | Raise e =>
      (Ok (None, Some (if is_a TimeoutExpired e then timed_out else unexpected e)),
       tr ++ [Run (command w nb) 240])%list
  | Ok (Exits seconds c) =>
      if Qle_bool seconds 240 then
        (Ok (if (returncode c =? 0)%Z then (Some (stdout c), None)
             else (None, Some (execution_failed (stderr c)))),
         tr ++ [Run (command w nb) 240])%list
      else (Ok (None, Some timed_out),
            (tr ++ [Run (command w nb) 240]) ++ [Kill (command w nb)])%list
  | Ok Hangs => (Ok (None, Some timed_out),
                 (tr ++ [Run (command w nb) 240]) ++ [Kill (command w nb)])%list
  end.
Proof.
  intros H G. unfold execute_notebook, bind at 1, try_catch at 1, lift. rewrite H.
  cbn [bind ret]. rewrite G. unfold try_catch, bind, subprocess_run, bind, emit.
  fold (command w nb).
  destruct (popen w (command w nb)) as [[seconds c|]|e]; cbn.
  - destruct (Qle_bool seconds 240); cbn; [|reflexivity].
    destruct (returncode c =? 0)%Z; reflexivity.
  - reflexivity.
  - unfold is_a. destruct (exn_cls e); reflexivity.
Qed.

(** [main] after [execute_notebook] *)
Lemma main_after w tr o tr' :
  execute_notebook w notebook_path tr = (Ok o, tr') ->
  main w tr =
  match (if truthy (snd o)
         then Ok (Int 0, match snd o with Some s => s | None => "" end)
         else grade_result (fst o)) with
  | Ok (score, feedback) => (Ok tt, tr' ++ [report score feedback])%list
  | Raise e => (Raise e, tr')
  end.
Proof.
  intros H. unfold main, bind at 1. rewrite H. destruct o as [output error_message].
  cbn [fst snd]. unfold bind, ret, lift, emit, report.
  destruct (truthy error_message); [reflexivity|].
  destruct (grade_result output) as [[score fb]|e]; reflexivity.
Qed.

Lemma main_error w tr msg tr' :
  execute_notebook w notebook_path tr = (Ok (None, Some msg), tr') ->
  msg <> "" ->
  main w tr = (Ok tt, tr' ++ [report (Int 0) msg])%list.
Proof.
  intros H N. rewrite (main_after _ _ _ _ H). cbn [fst snd truthy].
  destruct msg; [contradiction|reflexivity].
Qed.

Lemma main_output w tr out tr' :
  execute_notebook w notebook_path tr = (Ok (Some out, None), tr') ->
  exists score feedback,
    grade_result (Some out) = Ok (score, feedback)
    /\ main w tr = (Ok tt, tr' ++ [report score feedback])%list.
Proof.
  intros H. rewrite (main_after _ _ _ _ H). cbn [fst snd truthy].
  destruct (grade_result_total (Some out)) as (s & fb & E). rewrite E. eauto.
Qed.

End RunFacts.

(* ================================================================== *)
(** ** The extracted program *)
(* ================================================================== *)

Module ExtractFacts.

Import Re Grader Spec ReFacts.

Lemma concat_nil_app (a : string) (ls : list string) :
  String.concat "" (a :: ls) = a ++ String.concat "" ls.
Proof.
  destruct ls as [|b ls]; cbn [String.concat]; [now rewrite str_app_nil_r | reflexivity].
Qed.

(** The loop appends to whatever [full_code] already holds. *)
Lemma full_code_loop (cs : list cell) (acc : string) :
  fold_left
    (fun full_code cell =>
       if String.eqb (cell_type cell) "code" then
         full_code ++ Re.sub placeholder "1" (source cell) ++ Str.nl
       else full_code) cs acc
  = acc ++ String.concat ""
             (map (fun c => replace_placeholder_lines (source c) ++ Str.nl)
                  (filter is_code cs)).
Proof.
  revert acc. induction cs as [|c cs IH]; intros acc; cbn [fold_left filter map].
  - cbn. now rewrite str_app_nil_r.
  - unfold is_code at 1. destruct (String.eqb (cell_type c) "code").
    + rewrite IH. cbn [map]. rewrite concat_nil_app, sub_placeholder_lines.
      now rewrite !str_app_assoc.
    + apply IH.
Qed.

End ExtractFacts.

(* ================================================================== *)
(** ** The score as a function of the student value *)
(* ================================================================== *)

Module ValueFacts.

Import F64 Py Grader Spec FloatFacts ScoreFacts.
Local Open Scope Q_scope.

(** [fle x x] holds for everything but NaN. *)
Lemma fle_refl_iff x : fle x x = true <-> x <> NaN.
Proof.
  destruct x as [|[]|m e]; simpl; split; try congruence; intros _.
  apply Qle_bool_iff, Qle_refl.
Qed.

Lemma fle_left x y : fle x y = true -> fle x x = true.
Proof.
  destruct x as [|[]|m e], y as [|[]|m' e']; simpl; try congruence;
    intros _; apply Qle_bool_iff, Qle_refl.
Qed.

Lemma fle_right x y : fle x y = true -> fle y y = true.
Proof.
  destruct x as [|[]|m' e'], y as [|[]|m e]; simpl; try congruence;
    intros _; apply Qle_bool_iff, Qle_refl.
Qed.

Lemma fle_total x y : fle x x = true -> fle y y = true ->
  fle x y = true \/ fle y x = true.
Proof.
  destruct x as [|[]|m1 e1], y as [|[]|m2 e2]; simpl; try congruence; auto.
  intros _ _. rewrite !Qle_bool_iff.
  destruct (Qlt_le_dec (F2Q m1 e1) (F2Q m2 e2)); [left; lra | right; lra].
Qed.

Lemma fle_false_flt x y :
  fle x x = true -> fle y y = true -> fle x y = false -> flt y x = true.
Proof.
  destruct x as [|[]|m1 e1], y as [|[]|m2 e2]; simpl; try congruence.
  intros _ _ ->. reflexivity.
Qed.

Lemma flt_false_fle x y :
  fle x x = true -> fle y y = true -> flt x y = false -> fle y x = true.
Proof.
  destruct x as [|[]|m1 e1], y as [|[]|m2 e2]; simpl; try congruence.
  intros _ _ H. now apply negb_false_iff in H.
Qed.

Lemma rnd_pos_not_nan a : fle (rnd_pos a) (rnd_pos a) = true.
Proof.
  destruct (rnd_pos_cases a) as [(_ & ->)|(_ & m & e & -> & _)];
    [reflexivity | apply fle_Fin, Qle_refl].
Qed.

Lemma rnd_not_nan q : fle (rnd q) (rnd q) = true.
Proof. apply rnd_mono, Qle_refl. Qed.

(** *** The score never increases with the error *)

Lemma score_of_error_mono e1 e2 s1 s2 :
  fle e1 e2 = true ->
  score_of_error e1 = Ok s1 -> score_of_error e2 = Ok s2 ->
  fle s2 s1 = true.
Proof.
  intros M R1 R2.
  pose proof (fle_left _ _ M) as N1. pose proof (fle_right _ _ M) as N2.
  assert (NT : fle TOLERANCE TOLERANCE = true) by (rewrite TOLERANCE_eq; reflexivity).
  assert (N1' : fle (literal 10 1) (literal 10 1) = true)
    by (rewrite literal_one; reflexivity).
  destruct (score_of_error_total e1) as (t1 & k1 & T1 & L1 & U1 & _).
  destruct (score_of_error_total e2) as (t2 & k2 & T2 & L2 & U2 & _).
  rewrite R1 in T1. injection T1 as <-. rewrite R2 in T2. injection T2 as <-.
  destruct (fle e1 TOLERANCE) eqn:A.
  { rewrite (full_branch _ A) in R1. injection R1 as <-. exact U2. }
  apply (fle_false_flt _ _ N1 NT) in A.
  destruct (flt e2 (literal 10 1)) eqn:B.
  { exact (score_band_mono e1 e2 s1 s2 A M B R1 R2). }
  apply (flt_false_fle _ _ N2 N1') in B.
  rewrite (zero_branch _ B) in R2. injection R2 as <-. exact L1.
Qed.

(** *** The error grows with the distance from the optimum *)

Lemma F2Q_sign m e : 0 <= F2Q m e <-> (0 <= m)%Z.
Proof.
  unfold F2Q. pose proof (pow2_pos e) as P. split; intros H.
  - destruct (Z_lt_le_dec m 0) as [L|L]; [|exact L]. exfalso.
    assert (L' : inject_Z m < inject_Z 0) by (rewrite <- Zlt_Qlt; exact L).
    change (inject_Z 0) with 0 in L'. nra.
  - assert (H' : inject_Z 0 <= inject_Z m) by (rewrite <- Zle_Qle; exact H).
    change (inject_Z 0) with 0 in H'. nra.
Qed.

Lemma fabs_nonneg x : fle zero x = true -> fabs x = x.
Proof.
  destruct x as [|[]|m e]; simpl; try congruence. intros H.
  apply Qle_bool_iff in H.
  assert (Z0 : F2Q 0 emin == 0) by (unfold F2Q; ring).
  rewrite Z0 in H. apply F2Q_sign in H. now rewrite Z.abs_eq.
Qed.

Lemma fabs_nonpos x : fle x zero = true -> fabs x = fneg x.
Proof.
  destruct x as [|[]|m e]; simpl; try congruence. intros H.
  apply Qle_bool_iff in H.
  assert (Z0 : F2Q 0 emin == 0) by (unfold F2Q; ring).
  rewrite Z0 in H.
  assert (0 <= F2Q (- m) e) by (rewrite F2Q_opp; lra).
  apply F2Q_sign in H0. rewrite Z.abs_neq by lia. reflexivity.
Qed.

Lemma fsub_self : fsub OPTIMAL_F1 OPTIMAL_F1 = zero.
Proof. rewrite OPTIMAL_F1_eq. reflexivity. Qed.

Lemma fle_inf x : fle x x = true -> fle x (Inf false) = true.
Proof. destruct x as [|[]|m e]; cbn [fle]; auto. Qed.

Lemma fle_minus_inf x : fle x x = true -> fle (Inf true) x = true.
Proof. destruct x as [|[]|m e]; cbn [fle]; auto. Qed.

(** Division by the optimal value keeps the order, infinities included. *)
Lemma fdiv_optimal_mono x y :
  fle x y = true -> fle (fdiv x OPTIMAL_F1) (fdiv y OPTIMAL_F1) = true.
Proof.
  rewrite OPTIMAL_F1_eq. intros H.
  destruct x as [|[]|m1 e1], y as [|[]|m2 e2]; cbn [fle] in H; try discriminate H;
    cbn [fdiv xorb]; change (5764607523034235 <? 0)%Z with false.
  - reflexivity.
  - reflexivity.
  - apply fle_minus_inf, rnd_not_nan.
  - reflexivity.
  - apply fle_inf, rnd_not_nan.
  - apply rnd_mono. apply Qle_bool_iff in H.
    unfold Qdiv. apply Qmult_le_compat_r; [exact H|].
    apply Qlt_le_weak, Qinv_lt_0_compat. reflexivity.
Qed.

Lemma above_cases v :
  fle OPTIMAL_F1 v = true -> v = Inf false \/ is_finite v = true.
Proof.
  rewrite OPTIMAL_F1_eq. destruct v as [|[]|m e]; cbn [fle is_finite]; auto; discriminate.
Qed.

Lemma below_cases v :
  fle v OPTIMAL_F1 = true -> v = Inf true \/ is_finite v = true.
Proof.
  rewrite OPTIMAL_F1_eq. destruct v as [|[]|m e]; cbn [fle is_finite]; auto; discriminate.
Qed.

Lemma error_of_inf s : error_of (Inf s) = Inf false.
Proof. unfold error_of. rewrite OPTIMAL_F1_eq. destruct s; reflexivity. Qed.

Lemma fabs_not_nan x : fle x x = true -> fle (fabs x) (fabs x) = true.
Proof.
  destruct x as [|[]|m e]; cbn [fle fabs]; auto. intros _. apply Qle_bool_iff, Qle_refl.
Qed.

Lemma error_not_nan v : fle v v = true -> fle (error_of v) (error_of v) = true.
Proof.
  destruct v as [|s|m e]; cbn [fle]; try discriminate; intros _.
  - rewrite error_of_inf. reflexivity.
  - unfold error_of. apply fdiv_optimal_mono, fabs_not_nan.
    rewrite OPTIMAL_F1_eq. cbn [fsub fneg fadd]. apply rnd_not_nan.
Qed.

Lemma optimal_finite : is_finite OPTIMAL_F1 = true.
Proof. rewrite OPTIMAL_F1_eq. reflexivity. Qed.

Lemma error_above v1 v2 :
  fle OPTIMAL_F1 v1 = true -> fle v1 v2 = true ->
  fle (error_of v1) (error_of v2) = true.
Proof.
  intros A M.
  destruct (above_cases v2 (fle_trans _ _ _ A M)) as [->|F2].
  { rewrite error_of_inf. apply fle_inf, error_not_nan, (fle_left _ _ M). }
  assert (F1 : is_finite v1 = true)
    by (apply (finite_between OPTIMAL_F1 v1 v2); auto using optimal_finite).
  unfold error_of. apply fdiv_optimal_mono.
  pose proof (fsub_mono_l _ _ OPTIMAL_F1 optimal_finite F1 optimal_finite A) as L1.
  pose proof (fsub_mono_l _ _ OPTIMAL_F1 F1 F2 optimal_finite M) as L2.
  rewrite fsub_self in L1.
  rewrite (fabs_nonneg _ L1), (fabs_nonneg _ (fle_trans _ _ _ L1 L2)). exact L2.
Qed.

Lemma error_below v1 v2 :
  fle v1 v2 = true -> fle v2 OPTIMAL_F1 = true ->
  fle (error_of v2) (error_of v1) = true.
Proof.
  intros M A.
  destruct (below_cases v1 (fle_trans _ _ _ M A)) as [->|F1].
  { rewrite error_of_inf. apply fle_inf, error_not_nan, (fle_right _ _ M). }
  assert (F2 : is_finite v2 = true)
    by (apply (finite_between v1 v2 OPTIMAL_F1); auto using optimal_finite).
  unfold error_of. apply fdiv_optimal_mono.
  pose proof (fsub_mono_l _ _ OPTIMAL_F1 F2 optimal_finite optimal_finite A) as L1.
  pose proof (fsub_mono_l _ _ OPTIMAL_F1 F1 F2 optimal_finite M) as L2.
  rewrite fsub_self in L1.
  rewrite (fabs_nonpos _ L1), (fabs_nonpos _ (fle_trans _ _ _ L2 L1)).
  now apply fle_fneg.
Qed.

(** The score of a value is the score of its error. *)
Lemma score_of_value_eq v :
  exists s k, score_of_value v = Some (Float s)
              /\ score_of_error (error_of v) = Ok s
              /\ fle zero s = true /\ fle s ten = true
              /\ (0 <= k <= 1000)%Z /\ s = rnd (inject_Z k / 100).
Proof.
  destruct (grade_value_total v) as (s & k & G & S & K & E).
  destruct (score_of_error_total (error_of v)) as (s' & k' & S' & L & U & _).
  unfold error_of in S'. rewrite S in S'. injection S' as <-.
  exists s, k. unfold score_of_value. rewrite G. auto 10.
Qed.

Lemma score_closer_above v1 v2 s1 s2 :
  fle OPTIMAL_F1 v1 = true -> fle v1 v2 = true ->
  score_of_value v1 = Some (Float s1) -> score_of_value v2 = Some (Float s2) ->
  fle s2 s1 = true.
Proof.
  intros A M R1 R2.
  destruct (score_of_value_eq v1) as (t1 & _ & T1 & S1 & _).
  destruct (score_of_value_eq v2) as (t2 & _ & T2 & S2 & _).
  rewrite R1 in T1. injection T1 as <-. rewrite R2 in T2. injection T2 as <-.
  exact (score_of_error_mono _ _ _ _ (error_above _ _ A M) S1 S2).
Qed.

Lemma score_closer_below v1 v2 s1 s2 :
  fle v1 v2 = true -> fle v2 OPTIMAL_F1 = true ->
  score_of_value v1 = Some (Float s1) -> score_of_value v2 = Some (Float s2) ->
  fle s1 s2 = true.
Proof.
  intros M A R1 R2.
  destruct (score_of_value_eq v1) as (t1 & _ & T1 & S1 & _).
  destruct (score_of_value_eq v2) as (t2 & _ & T2 & S2 & _).
  rewrite R1 in T1. injection T1 as <-. rewrite R2 in T2. injection T2 as <-.
  exact (score_of_error_mono _ _ _ _ (error_below _ _ M A) S2 S1).
Qed.

End ValueFacts.

(* ================================================================== *)
(** ** [float()] on a captured number *)
(* ================================================================== *)

Module ParseFacts.

Import F64 Py Grader Spec FloatFacts ScoreFacts ReFacts RunFacts.

(** *** Rounding does not depend on how a rational is written *)

Lemma ilog2_unique a l :
  (0 < a)%Q -> (pow2 l <= a)%Q -> (a < pow2 (l + 1))%Q -> ilog2 a = l.
Proof.
  intros P L U. destruct (ilog2_spec a P) as (L' & U').
  destruct (Z.lt_trichotomy (ilog2 a) l) as [C|[C|C]]; [exfalso|exact C|exfalso].
  - assert (H : (pow2 (ilog2 a + 1) <= pow2 l)%Q) by (apply pow2_le; lia). lra.
  - assert (H : (pow2 (l + 1) <= pow2 (ilog2 a))%Q) by (apply pow2_le; lia). lra.
Qed.

Lemma ilog2_compat a b : (0 < a)%Q -> (a == b)%Q -> ilog2 a = ilog2 b.
Proof.
  intros P E. symmetry. destruct (ilog2_spec a P) as (L & U).
  apply ilog2_unique; rewrite <- ?E; assumption.
Qed.

Lemma rnd_pos_compat a b : (0 < a)%Q -> (a == b)%Q -> rnd_pos a = rnd_pos b.
Proof.
  intros P E. unfold rnd_pos. rewrite <- (ilog2_compat a b P E).
  set (ex := Z.max (ilog2 a - 52) emin).
  assert (R : round_half_even (a * pow2 (- ex)) = round_half_even (b * pow2 (- ex)))
    by (apply round_half_even_compat; rewrite E; reflexivity).
  now rewrite R.
Qed.

Lemma rnd_compat a b : (a == b)%Q -> rnd a = rnd b.
Proof.
  intros E. unfold rnd.
  assert (C0 : (b ?= 0)%Q = (a ?= 0)%Q) by (now rewrite E). rewrite C0.
  destruct (a ?= 0)%Q eqn:C; qcmp C.
  - reflexivity.
  - f_equal. apply rnd_pos_compat; [lra | now rewrite E].
  - now apply rnd_pos_compat.
Qed.

(** *** Runs of digits *)

Lemma span_digits_app d r :
  all is_digit d = true ->
  match r with String c _ => is_digit c = false | EmptyString => True end ->
  span_digits (d ++ r) = (d, r).
Proof.
  intros D R. induction d as [|c d IH]; cbn [append].
  - destruct r as [|c r]; [reflexivity|]. cbn [span_digits]. now rewrite R.
  - cbn [all] in D. apply andb_true_iff in D as (C & D).
    cbn [span_digits]. rewrite C, (IH D). reflexivity.
Qed.

Lemma digit_or_dot_cases c :
  Re.digit_or_dot c = true -> is_digit c = true \/ c = "."%char.
Proof.
  unfold Re.digit_or_dot, is_digit. cbv zeta. intros H.
  apply orb_true_iff in H as [H|H]; [now left|]. right.
  apply N.eqb_eq in H. rewrite <- (ascii_N_embedding c), H. reflexivity.
Qed.

Lemma point_not_digit : is_digit "." = false.
Proof. reflexivity. Qed.

(** A run of digits and points is digits, then nothing or a point and
    another such run. *)
Lemma unsigned_shape s :
  all Re.digit_or_dot s = true ->
  exists d r, s = d ++ r /\ all is_digit d = true
              /\ (r = "" \/ exists t, r = String "." t /\ all Re.digit_or_dot t = true).
Proof.
  induction s as [|c s IH]; intros H.
  - exists "", "". auto.
  - cbn [all] in H. apply andb_true_iff in H as (C & H).
    destruct (digit_or_dot_cases c C) as [D| ->].
    + destruct (IH H) as (d & r & -> & Dd & R).
      exists (String c d), r. cbn [all append]. rewrite D, Dd. auto.
    + exists "", (String "." s). cbn [append all]. split; [reflexivity|].
      split; [reflexivity|]. right. now exists s.
Qed.

Lemma count_app c a b : count c (a ++ b) = (count c a + count c b)%nat.
Proof. induction a as [|x a IH]; cbn [append count]; [reflexivity|]. rewrite IH. lia. Qed.

Lemma any_app p a b : any p (a ++ b) = any p a || any p b.
Proof.
  induction a as [|x a IH]; cbn [append any]; [reflexivity|].
  now rewrite IH, orb_assoc.
Qed.

Lemma count_digits d : all is_digit d = true -> count "." d = 0%nat.
Proof.
  induction d as [|c d IH]; cbn [all count]; [reflexivity|]. intros H.
  apply andb_true_iff in H as (C & H). rewrite (IH H).
  destruct (Ascii.eqb c ".") eqn:E; [|reflexivity].
  apply Ascii.eqb_eq in E. subst c. discriminate C.
Qed.

Lemma any_digits d : all is_digit d = true -> any is_digit d = negb (String.length d =? 0)%nat.
Proof.
  destruct d as [|c d]; cbn [all any String.length]; [reflexivity|]. intros H.
  apply andb_true_iff in H as (C & _). now rewrite C.
Qed.

Lemma digit_val_nonneg c : is_digit c = true -> 0 <= digit_val c.
Proof.
  unfold is_digit, digit_val. cbv zeta. intros H.
  apply andb_true_iff in H as (L & _). apply N.leb_le in L. lia.
Qed.

Lemma digits_val_nonneg d acc :
  all is_digit d = true -> 0 <= acc -> 0 <= digits_val acc d.
Proof.
  revert acc. induction d as [|c d IH]; intros acc H A; cbn [digits_val]; [exact A|].
  cbn [all] in H. apply andb_true_iff in H as (C & H).
  apply IH; [exact H|]. pose proof (digit_val_nonneg c C). lia.
Qed.

Lemma pow10_pos k : (0 < pow10 k)%Q.
Proof.
  destruct k as [|p|p]; cbn [pow10].
  - reflexivity.
  - rewrite <- (Zlt_Qlt 0). apply Z.pow_pos_nonneg; lia.
  - reflexivity.
Qed.

(** *** The decimal value of digits, a point, digits *)

Lemma decimal_value_point ip fp :
  all is_digit ip = true -> all is_digit fp = true ->
  decimal_value (ip ++ String "." fp) =
  if ((String.length ip + String.length fp)%nat =? 0)%nat then None
  else Some (inject_Z (digits_val 0 (ip ++ fp))
             * pow10 (- Z.of_nat (String.length fp)))%Q.
Proof.
  intros I F. unfold decimal_value.
  rewrite (span_digits_app ip (String "." fp) I point_not_digit).
  pose proof (span_digits_app fp "" F Logic.I) as S. rewrite str_app_nil_r in S.
  rewrite S. reflexivity.
Qed.

Lemma decimal_value_digits ip :
  all is_digit ip = true ->
  decimal_value ip =
  if (String.length ip =? 0)%nat then None
  else Some (inject_Z (digits_val 0 ip) * pow10 0)%Q.
Proof.
  intros I. unfold decimal_value.
  pose proof (span_digits_app ip "" I Logic.I) as S. rewrite str_app_nil_r in S.
  rewrite S. cbn [span_digits String.length]. rewrite Nat.add_0_r, str_app_nil_r.
  reflexivity.
Qed.

Lemma decimal_value_points ip fp u :
  all is_digit ip = true -> all is_digit fp = true ->
  decimal_value (ip ++ String "." (fp ++ String "." u)) = None.
Proof.
  intros I F. unfold decimal_value.
  rewrite (span_digits_app ip (String "." (fp ++ String "." u)) I point_not_digit).
  rewrite (span_digits_app fp (String "." u) F point_not_digit).
  destruct (_ =? 0)%nat; reflexivity.
Qed.

(** *** Nothing but the number is looked at *)

Lemma lstrip_unsigned c s : Re.digit_or_dot c = true -> lstrip (String c s) = String c s.
Proof.
  intros H. cbn [lstrip].
  destruct (is_py_space c) eqn:E; [|reflexivity]. exfalso. revert H E.
  destruct c as [[] [] [] [] [] [] [] []]; vm_compute; congruence.
Qed.

Lemma rstrip_unsigned s : all Re.digit_or_dot s = true -> rstrip s = s.
Proof.
  induction s as [|c s IH]; intros H; [reflexivity|].
  cbn [all] in H. apply andb_true_iff in H as (C & H).
  cbn [rstrip]. rewrite (IH H). destruct s as [|c' s]; [|reflexivity].
  destruct (is_py_space c) eqn:E; [|reflexivity]. exfalso. revert C E.
  destruct c as [[] [] [] [] [] [] [] []]; vm_compute; congruence.
Qed.

Lemma take_sign_unsigned c s :
  Re.digit_or_dot c = true -> take_sign (String c s) = (false, String c s).
Proof.
  destruct c as [[] [] [] [] [] [] [] []]; vm_compute; congruence.
Qed.

Lemma not_a_name c s :
  Re.digit_or_dot c = true ->
  let name := lower_str (String c s) in
  (String.eqb name "inf" || String.eqb name "infinity")%bool = false
  /\ String.eqb name "nan" = false.
Proof.
  intros H. cbn [lower_str]. 
  assert (E : Ascii.eqb (Re.lower c) "i" = false /\ Ascii.eqb (Re.lower c) "n" = false).
  { revert H. destruct c as [[] [] [] [] [] [] [] []]; vm_compute; auto; congruence. }
  destruct E as (E1 & E2). cbn [String.eqb]. now rewrite E1, E2.
Qed.

(** [float()] of a non-empty run of digits and points is the rounding of
    its decimal value, when it has one. *)
Lemma float_of_unsigned s :
  unsigned_decimal s ->
  float_of_str s = match decimal_value s with
                   | Some q => Ok (rnd q)
                   | None => Raise could_not_convert
                   end.
Proof.
  intros (N & A). destruct s as [|c s]; [congruence|].
  pose proof A as A'. cbn [all] in A'. apply andb_true_iff in A' as (C & _).
  unfold float_of_str.
  rewrite (lstrip_unsigned c s C), (rstrip_unsigned _ A), (take_sign_unsigned c s C).
  destruct (not_a_name c s C) as (E1 & E2). cbv zeta in E1, E2.
  rewrite E1, E2. reflexivity.
Qed.

Lemma plain_decimal_point ip fp :
  all is_digit ip = true -> all is_digit fp = true ->
  plain_decimal (ip ++ String "." fp)
  = negb ((String.length ip + String.length fp)%nat =? 0)%nat.
Proof.
  intros I F. unfold plain_decimal.
  change (String "." fp) with ("." ++ fp).
  rewrite !count_app, !any_app, (count_digits _ I), (count_digits _ F).
  rewrite (any_digits _ I), (any_digits _ F). cbn [count any Ascii.eqb Bool.eqb].
  cbn [Nat.add Nat.leb]. rewrite point_not_digit.
  destruct ip, fp; reflexivity.
Qed.

Lemma plain_decimal_points ip fp u :
  all is_digit ip = true -> all is_digit fp = true ->
  plain_decimal (ip ++ String "." (fp ++ String "." u)) = false.
Proof.
  intros I F. unfold plain_decimal.
  change (String "." (fp ++ String "." u)) with ("." ++ fp ++ "." ++ u).
  rewrite !count_app, (count_digits _ I), (count_digits _ F).
  cbn [count Ascii.eqb Bool.eqb Nat.add Nat.leb]. reflexivity.
Qed.

Lemma plain_decimal_digits ip :
  all is_digit ip = true -> plain_decimal ip = negb (String.length ip =? 0)%nat.
Proof.
  intros I. unfold plain_decimal. rewrite (count_digits _ I), (any_digits _ I).
  reflexivity.
Qed.

Lemma rnd_nonneg q : (0 <= q)%Q -> fle zero (rnd q) = true.
Proof. intros H. change zero with (rnd 0). now apply rnd_mono. Qed.

(** The conversion fails exactly on the runs that are not plain decimals,
    and gives a float that is not negative on the others. *)
Lemma float_of_unsigned_cases s :
  unsigned_decimal s ->
  if plain_decimal s
  then exists v, float_of_str s = Ok v /\ fle zero v = true
  else float_of_str s = Raise could_not_convert.
Proof.
  intros U. rewrite (float_of_unsigned s U). destruct U as (N & A).
  destruct (unsigned_shape s A) as (ip & r & -> & I & [->|(t & -> & T)]).
  - rewrite str_app_nil_r in *.
    rewrite (plain_decimal_digits _ I), (decimal_value_digits _ I).
    destruct ip as [|c ip]; [congruence|]. cbn [String.length Nat.eqb negb].
    eexists. split; [reflexivity|]. apply rnd_nonneg.
    apply Qmult_le_0_compat; [|apply Qlt_le_weak, pow10_pos].
    change 0%Q with (inject_Z 0). rewrite <- Zle_Qle.
    apply digits_val_nonneg; [exact I | lia].
  - destruct (unsigned_shape t T) as (fp & r & -> & F & [->|(u & -> & _)]).
    + rewrite str_app_nil_r in *.
      rewrite (plain_decimal_point _ _ I F), (decimal_value_point _ _ I F).
      destruct (_ =? 0)%nat eqn:Z; cbn [negb]; [reflexivity|].
      eexists. split; [reflexivity|]. apply rnd_nonneg.
      apply Qmult_le_0_compat; [|apply Qlt_le_weak, pow10_pos].
      change 0%Q with (inject_Z 0). rewrite <- Zle_Qle.
      apply digits_val_nonneg; [|lia]. rewrite all_app. now rewrite I, F.
    + now rewrite (plain_decimal_points _ _ _ I F), (decimal_value_points _ _ _ I F).
Qed.

Lemma pow10_neg n : (pow10 (- Z.of_nat n) == / inject_Z (10 ^ Z.of_nat n))%Q.
Proof.
  destruct n as [|n]; [reflexivity|].
  change (Z.of_nat (S n)) with (Zpos (Pos.of_succ_nat n)).
  change (- Zpos (Pos.of_succ_nat n)) with (Zneg (Pos.of_succ_nat n)).
  cbn [pow10]. change 10 with (Zpos 10). rewrite <- Pos2Z.inj_pow. reflexivity.
Qed.

End ParseFacts.

(* ================================================================== *)
(** ** Lines: the substitution and the configuration gate *)
(* ================================================================== *)

Module LineFacts.

Import Re Grader Spec ReFacts RunFacts ExtractFacts.

(** *** Splitting and joining *)

Lemma split_lines_app a b :
  split_lines (a ++ String Str.newline b) = (split_lines a ++ split_lines b)%list.
Proof.
  induction a as [|c a IH]; cbn [append split_lines].
  - reflexivity.
  - destruct (Ascii.eqb c Str.newline) eqn:E.
    + now rewrite IH.
    + rewrite IH. destruct (split_lines_cons a) as (l & ls & ->). reflexivity.
Qed.

Lemma split_lines_line l : all dot l = true -> split_lines l = [l].
Proof.
  induction l as [|c l IH]; cbn [all split_lines]; [reflexivity|]. intros H.
  apply andb_true_iff in H as (C & H). unfold dot in C.
  apply negb_true_iff in C. now rewrite C, (IH H).
Qed.

Lemma join_lines_cons x y ls :
  join_lines (x :: y :: ls) = x ++ String Str.newline (join_lines (y :: ls)).
Proof. reflexivity. Qed.

Lemma join_split s : join_lines (split_lines s) = s.
Proof.
  induction s as [|c s IH]; [reflexivity|]. cbn [split_lines].
  destruct (split_lines_cons s) as (l & ls & E). rewrite E in *.
  destruct (Ascii.eqb c Str.newline) eqn:C.
  - apply Ascii.eqb_eq in C. subst c. rewrite join_lines_cons, IH. reflexivity.
  - destruct ls as [|y ls].
    + cbn in IH |- *. now rewrite IH.
    + rewrite join_lines_cons in *. cbn [append]. now rewrite IH.
Qed.

Lemma split_join ls :
  ls <> [] -> Forall (fun l => all dot l = true) ls ->
  split_lines (join_lines ls) = ls.
Proof.
  induction ls as [|x ls IH]; [congruence|]. intros _ F.
  inversion F as [|? ? Fx Fl]; subst. destruct ls as [|y ls].
  - now apply split_lines_line.
  - rewrite join_lines_cons, split_lines_app, (split_lines_line _ Fx).
    rewrite IH; [reflexivity | discriminate | exact Fl].
Qed.

Lemma all_take_while_dot s : all dot (take_while dot s) = true.
Proof. apply all_take_while. Qed.

Lemma split_lines_all_dot s : Forall (fun l => all dot l = true) (split_lines s).
Proof.
  induction s as [|c s IH]; cbn [split_lines].
  - constructor; [reflexivity | constructor].
  - destruct (Ascii.eqb c Str.newline) eqn:C.
    + constructor; [reflexivity | exact IH].
    + destruct (split_lines_cons s) as (l & ls & E). rewrite E in *.
      inversion IH as [|? ? Fl Fls]; subst. constructor; [|exact Fls].
      cbn [all]. unfold dot at 1. now rewrite C, Fl.
Qed.

(** *** A text without line feeds occurs in a text when it occurs in one of
    its lines *)

Section Needle.

Variable n : string.
Hypothesis nonempty : n <> "".
Hypothesis one_line : all dot n = true.

Lemma contains_nil : Str.contains n "" = false.
Proof. destruct n; [congruence | reflexivity]. Qed.

Lemma contains_cons c s :
  Str.contains n (String c s) = String.prefix n (String c s) || Str.contains n s.
Proof. cbn [Str.contains]. destruct (String.prefix n (String c s)); reflexivity. Qed.

Lemma contains_line_feed a b :
  Str.contains n (a ++ String Str.newline b) = Str.contains n a || Str.contains n b.
Proof.
  induction a as [|c a IH]; cbn [append]; rewrite contains_cons.
  - rewrite contains_nil, (prefix_in_line dot n _ one_line). cbn [take_while dot].
    change (negb (Ascii.eqb Str.newline Str.newline)) with false. cbv iota.
    destruct n; [congruence | reflexivity].
  - rewrite IH, contains_cons, orb_assoc. f_equal.
    rewrite (prefix_in_line dot n (String c (a ++ _)) one_line).
    rewrite (prefix_in_line dot n (String c a) one_line).
    cbn [take_while]. destruct (dot c); [|reflexivity].
    now rewrite (take_while_app dot a Str.newline b eq_refl).
Qed.

Lemma contains_join ls :
  Str.contains n (join_lines ls) = existsb (Str.contains n) ls.
Proof.
  induction ls as [|x ls IH]; [apply contains_nil|].
  destruct ls as [|y ls].
  - cbn [existsb]. now rewrite orb_false_r.
  - rewrite join_lines_cons, contains_line_feed, IH. reflexivity.
Qed.

Lemma contains_lines s :
  Str.contains n s = existsb (Str.contains n) (split_lines s).
Proof. now rewrite <- contains_join, join_split. Qed.

Lemma contains_concat_lines {A : Type} (f : A -> string) (ls : list A) :
  Str.contains n (String.concat "" (map (fun l => f l ++ Str.nl) ls))
  = existsb (fun l => Str.contains n (f l)) ls.
Proof.
  induction ls as [|x ls IH]; [apply contains_nil|].
  cbn [map existsb]. rewrite concat_nil_app, str_app_assoc. cbn [Str.nl append].
  now rewrite contains_line_feed, IH.
Qed.

End Needle.

Lemma existsb_map {A B} (f : A -> B) p l :
  existsb p (map f l) = existsb (fun x => p (f x)) l.
Proof. induction l as [|x l IH]; cbn; [reflexivity | now rewrite IH]. Qed.

Lemma existsb_flat_map {A B} (f : A -> list B) p l :
  existsb p (flat_map f l) = existsb (fun x => existsb p (f x)) l.
Proof.
  induction l as [|x l IH]; cbn [flat_map existsb]; [reflexivity|].
  now rewrite existsb_app, IH.
Qed.

Lemma existsb_ext {A} (p q : A -> bool) l :
  (forall x, p x = q x) -> existsb p l = existsb q l.
Proof. intros E. induction l as [|x l IH]; cbn; [reflexivity | now rewrite E, IH]. Qed.

(** *** The gate, line by line *)

Lemma full_code_cells nb :
  full_code_of nb
  = String.concat ""
      (map (fun c => replace_placeholder_lines (source c) ++ Str.nl)
           (filter is_code (cells nb))).
Proof. unfold full_code_of. now rewrite full_code_loop. Qed.

Lemma gate_on_clean_line l :
  Str.contains "n_subproblems = 1" (clean_line l) = trips_gate l.
Proof.
  unfold clean_line, trips_gate. destruct (Str.contains sentinel l).
  - now rewrite andb_false_r.
  - now rewrite andb_true_r.
Qed.

Lemma gate_by_lines nb :
  Str.contains "n_subproblems = 1" (full_code_of nb)
  = existsb trips_gate (code_lines nb).
Proof.
  rewrite full_code_cells.
  rewrite (contains_concat_lines "n_subproblems = 1" ltac:(discriminate) eq_refl).
  unfold code_lines. rewrite existsb_flat_map. apply existsb_ext. intros c.
  unfold replace_placeholder_lines.
  rewrite (contains_join "n_subproblems = 1" ltac:(discriminate) eq_refl).
  rewrite existsb_map. apply existsb_ext, gate_on_clean_line.
Qed.

Lemma prefix_app m s : String.prefix m (m ++ s) = true.
Proof.
  induction m as [|a m IH]; [apply prefix_nil|].
  cbn [append]. now rewrite prefix_cons, Ascii.eqb_refl, IH.
Qed.

Lemma contains_app m a b : Str.contains m (a ++ m ++ b) = true.
Proof.
  induction a as [|c a IH]; cbn [append].
  - destruct (m ++ b) eqn:E; cbn [Str.contains]; rewrite <- E, prefix_app; reflexivity.
  - cbn [Str.contains]. rewrite IH. now destruct (String.prefix _ _).
Qed.

(** *** The substitution *)

Lemma clean_line_sentinel l : Str.contains sentinel (clean_line l) = false.
Proof.
  unfold clean_line. destruct (Str.contains sentinel l) eqn:E; [reflexivity | exact E].
Qed.

Lemma clean_line_dot l : all dot l = true -> all dot (clean_line l) = true.
Proof. unfold clean_line. destruct (Str.contains sentinel l); auto. Qed.

Lemma sub_no_sentinel s :
  Str.contains sentinel (sub placeholder "1" s) = false.
Proof.
  rewrite sub_placeholder_lines. unfold replace_placeholder_lines.
  rewrite (contains_join sentinel ltac:(discriminate) eq_refl), existsb_map.
  induction (split_lines s) as [|l ls IH]; [reflexivity|].
  cbn [existsb]. now rewrite clean_line_sentinel, IH.
Qed.

Lemma sub_identity s :
  Str.contains sentinel s = false -> sub placeholder "1" s = s.
Proof.
  intros H. rewrite sub_placeholder_lines. unfold replace_placeholder_lines.
  rewrite (contains_lines sentinel ltac:(discriminate) eq_refl) in H.
  rewrite <- (join_split s) at 2. f_equal.
  induction (split_lines s) as [|l ls IH]; [reflexivity|].
  cbn [existsb] in H. apply orb_false_iff in H as (L & H).
  cbn [map]. unfold clean_line at 1. now rewrite L, (IH H).
Qed.

End LineFacts.

(* ================================================================== *)
(** ** The marker pattern: letter case, and the line it accepts *)
(* ================================================================== *)

Module MarkerFacts.

Import Re Py Grader Spec ReFacts RunFacts.

(** *** Letter case *)

Lemma lower_lower c : lower (lower c) = lower c.
Proof. destruct c as [[] [] [] [] [] [] [] []]; reflexivity. Qed.

Lemma chr_i_lower x c : chr_i x (lower c) = chr_i x c.
Proof. unfold chr_i. now rewrite lower_lower. Qed.

Lemma digit_or_dot_lower c : digit_or_dot (lower c) = digit_or_dot c.
Proof. destruct c as [[] [] [] [] [] [] [] []]; reflexivity. Qed.

Lemma space_lower c : space (lower c) = space c.
Proof. destruct c as [[] [] [] [] [] [] [] []]; reflexivity. Qed.

Lemma lower_digit c : digit_or_dot c = true -> lower c = c.
Proof. destruct c as [[] [] [] [] [] [] [] []]; vm_compute; congruence. Qed.

Lemma lower_str_digits g : all digit_or_dot g = true -> lower_str g = g.
Proof.
  induction g as [|c g IH]; cbn [all lower_str]; [reflexivity|]. intros H.
  apply andb_true_iff in H as (C & H). now rewrite (lower_digit c C), (IH H).
Qed.

Lemma take_while_lower p s :
  (forall c, p (lower c) = p c) ->
  take_while p (lower_str s) = lower_str (take_while p s).
Proof.
  intros P. induction s as [|c s IH]; cbn [lower_str take_while]; [reflexivity|].
  rewrite P. destruct (p c); cbn [lower_str]; [now rewrite IH | reflexivity].
Qed.

Lemma drop_while_lower p s :
  (forall c, p (lower c) = p c) ->
  drop_while p (lower_str s) = lower_str (drop_while p s).
Proof.
  intros P. induction s as [|c s IH]; cbn [lower_str drop_while]; [reflexivity|].
  rewrite P. destruct (p c); cbn [lower_str]; [exact IH | reflexivity].
Qed.

Lemma strip_lower ps s :
  Forall (fun p => forall c, p (lower c) = p c) ps ->
  strip ps (lower_str s) = option_map lower_str (strip ps s).
Proof.
  intros F. revert s. induction F as [|p ps P _ IH]; intros s; cbn [strip].
  - reflexivity.
  - destruct s as [|c s]; [reflexivity|]. cbn [lower_str]. rewrite P.
    destruct (p c); [apply IH | reflexivity].
Qed.

Lemma marker_i_lower : Forall (fun p => forall c, p (lower c) = p c) marker_i.
Proof.
  unfold marker_i. apply Forall_forall. intros p H. apply in_map_iff in H as (x & <- & _).
  apply chr_i_lower.
Qed.

Lemma take_while_digits_lower s :
  take_while digit_or_dot (lower_str s) = take_while digit_or_dot s.
Proof.
  rewrite (take_while_lower _ _ digit_or_dot_lower).
  apply lower_str_digits, all_take_while.
Qed.

Lemma parse_marker_lower s : parse_marker (lower_str s) = lowered (parse_marker s).
Proof.
  unfold parse_marker. rewrite (strip_lower _ _ marker_i_lower).
  destruct (strip marker_i s) as [s1|]; [|reflexivity]. cbn [option_map].
  rewrite take_while_digits_lower, (drop_while_lower _ _ digit_or_dot_lower).
  destruct (take_while digit_or_dot s1) as [|x g1]; [reflexivity|].
  destruct (drop_while digit_or_dot s1) as [|c2 s3]; [reflexivity|].
  cbn [lower_str].
  destruct c2 as [[] [] [] [] [] [] [] []]; try reflexivity.
  change (lower ",") with ","%char. cbv iota beta.
  rewrite (drop_while_lower _ _ space_lower).
  rewrite take_while_digits_lower, (drop_while_lower _ _ digit_or_dot_lower).
  destruct (take_while digit_or_dot (drop_while space s3)) as [|y g2]; [reflexivity|].
  destruct (drop_while digit_or_dot (drop_while space s3)) as [|c5 r]; [reflexivity|].
  cbn [lower_str].
  destruct c5 as [[] [] [] [] [] [] [] []]; reflexivity.
Qed.

Lemma lower_str_length s : String.length (lower_str s) = String.length s.
Proof. induction s as [|c s IH]; cbn; [reflexivity | now rewrite IH]. Qed.

(** The matches of a text are those of the text in lower case. *)
Lemma findall_lower s :
  findall Grader.ideal_point (lower_str s) = findall Grader.ideal_point s.
Proof.
  remember (String.length s) as n eqn:Hn. revert s Hn.
  induction n as [n IH] using lt_wf_ind. intros s Hn.
  destruct s as [|c u]; [reflexivity|].
  pose proof (parse_marker_lower (String c u)) as P.
  destruct (parse_marker (String c u)) as [[caps rest]|] eqn:E; cbn [lowered] in P.
  - destruct (parse_marker_suffix _ _ _ E) as (c' & a & Ea).
    rewrite (findall_ideal_match _ _ _ P), (findall_ideal_match _ _ _ E).
    f_equal. apply (IH (String.length rest)); [|reflexivity].
    subst n. rewrite Ea. cbn [append String.length]. rewrite str_length_app. lia.
  - cbn [lower_str] in P |- *.
    rewrite (findall_ideal_nomatch _ _ P), (findall_ideal_nomatch _ _ E).
    apply (IH (String.length u)); [subst n; cbn; lia | reflexivity].
Qed.

Lemma grade_result_lower s :
  grade_result (Some (lower_str s)) = grade_result (Some s).
Proof. unfold grade_result. now rewrite findall_lower. Qed.

(** *** A well-formed marker line *)

Lemma take_while_all p u x v :
  all p u = true -> p x = false -> take_while p (u ++ String x v) = u.
Proof.
  intros A X. induction u as [|c u IH]; cbn [append take_while all] in *.
  - now rewrite X.
  - apply andb_true_iff in A as (C & A). now rewrite C, (IH A).
Qed.

Lemma drop_while_all p u x v :
  all p u = true -> p x = false -> drop_while p (u ++ String x v) = String x v.
Proof.
  intros A X. induction u as [|c u IH]; cbn [append drop_while all] in *.
  - now rewrite X.
  - apply andb_true_iff in A as (C & A). now rewrite C, (IH A).
Qed.

Lemma digit_not_space c : digit_or_dot c = true -> space c = false.
Proof.
  intros H. destruct (space c) eqn:S; [|reflexivity].
  now rewrite (space_not_digit c S) in H.
Qed.

Lemma parse_marker_line n1 ws n2 after :
  unsigned_decimal n1 -> unsigned_decimal n2 -> all space ws = true ->
  parse_marker (marker_line n1 ws n2 ++ after) = Some ([n1; n2], after).
Proof.
  intros (N1 & A1) (N2 & A2) W. unfold marker_line.
  replace (("Ideal point: z = [" ++ n1 ++ "," ++ ws ++ n2 ++ "]") ++ after)
    with ("Ideal point: z = [" ++ n1 ++ String "," (ws ++ n2 ++ String "]" after))
    by str_assoc.
  unfold parse_marker.
  change (strip marker_i ("Ideal point: z = [" ++ ?x)) with (Some x).
  cbv iota beta.
  rewrite (take_while_all _ n1 "," _ A1 eq_refl), (drop_while_all _ n1 "," _ A1 eq_refl).
  destruct n1 as [|x n1]; [congruence|].
  destruct n2 as [|y n2]; [congruence|].
  pose proof A2 as A2'. cbn [all] in A2'. apply andb_true_iff in A2' as (Y & _).
  change (String y n2 ++ String "]" after) with (String y (n2 ++ String "]" after)).
  rewrite (drop_while_all _ ws y _ W (digit_not_space y Y)).
  change (String y (n2 ++ String "]" after)) with (String y n2 ++ String "]" after).
  rewrite (take_while_all _ (String y n2) "]" _ A2 eq_refl),
    (drop_while_all _ (String y n2) "]" _ A2 eq_refl).
  reflexivity.
Qed.

Lemma findall_marker_line before n1 ws n2 after :
  unsigned_decimal n1 -> unsigned_decimal n2 -> all space ws = true ->
  findall Grader.ideal_point (before ++ marker_line n1 ws n2 ++ after)
  = (findall Grader.ideal_point before
     ++ [n1; n2] :: findall Grader.ideal_point after)%list.
Proof.
  intros U1 U2 W.
  rewrite <- (findall_ideal_match _ _ _ (parse_marker_line n1 ws n2 after U1 U2 W)).
  unfold marker_line.
  replace (("Ideal point: z = [" ++ n1 ++ "," ++ ws ++ n2 ++ "]") ++ after)
    with ("Ideal point: z = [" ++ n1 ++ "," ++ ws ++ n2 ++ "]" ++ after) by str_assoc.
  cbn [append]. apply findall_before_marker.
Qed.

(** *** A first number that is not followed by a comma *)

Lemma digit_not_i c : digit_or_dot c = true -> not_i c = true.
Proof. destruct c as [[] [] [] [] [] [] [] []]; vm_compute; congruence. Qed.

Lemma parse_marker_no_comma n1 c rest :
  all digit_or_dot n1 = true -> digit_or_dot c = false ->
  n1 = "" \/ c <> ","%char ->
  parse_marker ("Ideal point: z = [" ++ n1 ++ String c rest) = None.
Proof.
  intros A C H. unfold parse_marker.
  change (strip marker_i ("Ideal point: z = [" ++ ?x)) with (Some x).
  cbv iota beta.
  rewrite (take_while_all _ n1 c _ A C), (drop_while_all _ n1 c _ A C).
  destruct n1 as [|x n1]; [reflexivity|].
  destruct H as [H|H]; [discriminate H|].
  destruct c as [[] [] [] [] [] [] [] []]; try reflexivity. congruence.
Qed.

(** *** A second number that is not plain *)

Lemma number_char_not_space c : number_char c = true -> space c = false.
Proof. destruct c as [[] [] [] [] [] [] [] []]; vm_compute; congruence. Qed.

Lemma number_stops n z :
  all number_char n = true -> all digit_or_dot n = false ->
  exists c tl, drop_while digit_or_dot (n ++ z) = String c tl
               /\ number_char c = true /\ digit_or_dot c = false.
Proof.
  induction n as [|c n IH]; cbn [all append drop_while]; [discriminate|].
  intros N D. apply andb_true_iff in N as [N1 N2].
  destruct (digit_or_dot c) eqn:E.
  - apply IH; assumption.
  - exists c, (n ++ z). auto.
Qed.

Lemma parse_marker_second n1 ws n2 after :
  unsigned_decimal n1 -> all space ws = true ->
  all number_char n2 = true -> all digit_or_dot n2 = false ->
  parse_marker (marker_line n1 ws n2 ++ after) = None.
Proof.
  intros (N1 & A1) W N2 D2. unfold marker_line.
  replace (("Ideal point: z = [" ++ n1 ++ "," ++ ws ++ n2 ++ "]") ++ after)
    with ("Ideal point: z = [" ++ n1 ++ String "," (ws ++ n2 ++ String "]" after))
    by str_assoc.
  unfold parse_marker.
  change (strip marker_i ("Ideal point: z = [" ++ ?x)) with (Some x).
  cbv iota beta.
  rewrite (take_while_all _ n1 "," _ A1 eq_refl), (drop_while_all _ n1 "," _ A1 eq_refl).
  destruct n1 as [|x n1]; [congruence|].
  destruct n2 as [|y n2]; [discriminate D2|].
  pose proof N2 as N2'. cbn [all] in N2'. apply andb_true_iff in N2' as (Y & _).
  change (String y n2 ++ String "]" after) with (String y (n2 ++ String "]" after)).
  rewrite (drop_while_all _ ws y _ W (number_char_not_space y Y)).
  change (String y (n2 ++ String "]" after)) with (String y n2 ++ String "]" after).
  destruct (number_stops (String y n2) (String "]" after) N2 D2)
    as (c & tl & -> & Nc & Dc).
  destruct (take_while digit_or_dot (String y n2 ++ String "]" after));
    [reflexivity|].
  destruct c as [[] [] [] [] [] [] [] []]; try reflexivity. discriminate Nc.
Qed.

End MarkerFacts.

(* ================================================================== *)
(** ** The report *)
(* ================================================================== *)

Module ReportFacts.

Import F64 Py Json Grader Spec ScoreFacts ReFacts RunFacts.

(** *** The score a grade carries *)


(** The numbers of the grid print as decimals with one or two digits after
    the point. *)
Lemma grid_text_checked :
  forallb (fun n =>
             let score := Float (rnd (inject_Z (Z.of_nat n) / 100)) in
             String.eqb (dumps_number score) (hundredths (Z.of_nat n))
             && String.eqb (str_number score) (hundredths (Z.of_nat n))
             && all printable (hundredths (Z.of_nat n))
             && all Re.digit_or_dot (hundredths (Z.of_nat n)))
          (seq 0 1001) = true.
Proof. vm_compute. reflexivity. Qed.

Lemma grid_text k :
  0 <= k <= 1000 ->
  dumps_number (Float (rnd (inject_Z k / 100))) = hundredths k
  /\ str_number (Float (rnd (inject_Z k / 100))) = hundredths k
  /\ all printable (hundredths k) = true
  /\ all Re.digit_or_dot (hundredths k) = true.
Proof.
  intros K. pose proof grid_text_checked as C.
  rewrite forallb_forall in C. specialize (C (Z.to_nat k)).
  cbv zeta in C. rewrite Z2Nat.id in C by lia.
  assert (I : In (Z.to_nat k) (seq 0 1001)) by (apply in_seq; lia).
  apply C in I. apply andb_true_iff in I as (I & D).
  apply andb_true_iff in I as (I & P).
  apply andb_true_iff in I as (T & T').
  apply String.eqb_eq in T. apply String.eqb_eq in T'.
  split; [exact T|]. split; [exact T'|]. split; [exact P | exact D].
Qed.

(** *** Every run, with the score it reports *)


(** *** The printed line *)





End ReportFacts.

(* ================================================================== *)
(** ** JSON strings can be read back *)
(* ================================================================== *)

Module JsonFacts.

Import Py Json Grader Spec ReFacts.

Lemma unescape_escape_char c r : unescape_char (escape_char c ++ r) = Some (c, r).
Proof. destruct c as [[] [] [] [] [] [] [] []]; reflexivity. Qed.

Lemma escape_injective s1 s2 : escape s1 = escape s2 -> s1 = s2.
Proof.
  revert s2. induction s1 as [|c1 s1 IH]; intros [|c2 s2] H; cbn [escape] in H.
  - reflexivity.
  - apply (f_equal unescape_char) in H. rewrite unescape_escape_char in H. discriminate.
  - apply (f_equal unescape_char) in H. rewrite unescape_escape_char in H. discriminate.
  - apply (f_equal unescape_char) in H. rewrite !unescape_escape_char in H.
    injection H as -> H. now rewrite (IH _ H).
Qed.

Lemma append_inv_head a x y : a ++ x = a ++ y -> x = y.
Proof.
  induction a as [|c a IH]; cbn [append]; [auto|]. intros H. injection H as H. auto.
Qed.

Lemma append_inv_tail t a b : a ++ t = b ++ t -> a = b.
Proof.
  intros H.
  assert (L : String.length a = String.length b).
  { apply (f_equal String.length) in H. rewrite !str_length_app in H. lia. }
  revert b H L. induction a as [|c a IH]; intros [|d b] H L; cbn in L; try discriminate.
  - reflexivity.
  - cbn [append] in H. injection H as -> H. injection L as L. now rewrite (IH b).
Qed.

Lemma quote_injective s1 s2 : quote s1 = quote s2 -> s1 = s2.
Proof.
  unfold quote. cbn [append]. intros H. injection H as H.
  apply append_inv_tail in H. now apply escape_injective.
Qed.

Lemma number_text_split a b x y :
  all Re.digit_or_dot a = true -> all Re.digit_or_dot b = true ->
  a ++ String "," x = b ++ String "," y -> a = b /\ x = y.
Proof.
  revert b. induction a as [|c a IH]; intros [|d b] A B H; cbn [append all] in *.
  - injection H as H. auto.
  - injection H as <- _. discriminate B.
  - injection H as -> _. discriminate A.
  - injection H as -> H. apply andb_true_iff in A as (_ & A).
    apply andb_true_iff in B as (_ & B).
    destruct (IH b A B H) as (-> & ->). auto.
Qed.

Lemma reportable_text score :
  reportable score -> all Re.digit_or_dot (dumps_number score) = true.
Proof.
  intros [->|(k & K & ->)]; [reflexivity|].
  destruct (ReportFacts.grid_text k K) as (-> & _ & _ & D). exact D.
Qed.

Lemma report_injective s1 f1 s2 f2 :
  reportable s1 -> reportable s2 ->
  dumps (test_result s1 f1) = dumps (test_result s2 f2) ->
  dumps_number s1 = dumps_number s2 /\ f1 = f2.
Proof.
  intros R1 R2. apply reportable_text in R1, R2.
  unfold test_result. cbn [dumps].
  generalize dependent (dumps_number s1). generalize dependent (dumps_number s2).
  intros n2 R2 n1 R1 H.
  repeat (apply append_inv_head in H).
  repeat match type of H with
         | String ?c _ = String ?c _ => injection H as H
         end.
  repeat (apply append_inv_head in H).
  repeat match type of H with
         | String ?c _ = String ?c _ => injection H as H
         | (_ ++ _) ++ _ = (_ ++ _) ++ _ => rewrite !str_app_assoc in H
         end.
  repeat (apply append_inv_head in H).
  cbn [append] in H. apply (number_text_split _ _ _ _ R1 R2) in H as (-> & H).
  split; [reflexivity|].
  repeat match type of H with
         | String ?c _ = String ?c _ => injection H as H
         end.
  repeat (apply append_inv_head in H).
  do 2 apply append_inv_tail in H. now apply escape_injective.
Qed.

End JsonFacts.

(* ================================================================== *)
(** ** The properties of the specification *)
(* ================================================================== *)

Import F64 Py Json Grader Spec.
Import FloatFacts ScoreFacts ReFacts RunFacts ExtractFacts.

(** *** The arithmetic agrees with the hardware

    The numbers of the grader, computed by the model above and by the
    kernel's binary64 floats, coincide bit for bit. *)

Example hardware_constants :
  to_prim OPTIMAL_F1 = 0x1.47ae147ae147bp-8%float
  /\ to_prim TOLERANCE = 0x1.999999999999ap-4%float
  /\ to_prim (literal 9 1) = 0x1.ccccccccccccdp-1%float.
Proof. vm_compute. auto. Qed.

Example hardware_score_of_0_0075 :
  let x := 0x1.eb851eb851eb8p-8%float in                          (* 0.0075 *)
  let error := (PrimFloat.abs (x - to_prim OPTIMAL_F1) / to_prim OPTIMAL_F1)%float in
  let score := (10 * (1 - (error - to_prim TOLERANCE) / (1 - to_prim TOLERANCE)))%float in
  relative_error (literal 75 4) = Ok (of_prim error)
  /\ raw_score (of_prim error) = Ok (of_prim score).
Proof. vm_compute. auto. Qed.

Example hardware_agrees_on_samples :
  let samples :=
    [literal 1 1; literal 5 3; literal 55 4; literal 75 4; literal 10 1;
     literal 100 1; literal 9 1; literal 2 2; literal 4999999999999999 16;
     literal 1 320; fmul (literal 17976931348623157 16) (of_Z (10 ^ 308)); fneg (literal 25 1);
     literal 123456789123 3; Inf false; Inf true; zero] in
  let same (x : float) (y : PrimFloat.float) :=
    match to_SF x, Prim2SF y with
    | S754_zero _, S754_zero _ => true
    | S754_nan, S754_nan => true
    | S754_infinity a, S754_infinity b => Bool.eqb a b
    | S754_finite a m e, S754_finite b m' e' =>
        Bool.eqb a b && Pos.eqb m m' && Z.eqb e e'
    | _, _ => false
    end in
  forallb (fun a =>
    forallb (fun b =>
      same (fadd a b) (to_prim a + to_prim b)%float
      && same (fsub a b) (to_prim a - to_prim b)%float
      && same (fmul a b) (to_prim a * to_prim b)%float
      && (is_zero b || same (fdiv a b) (to_prim a / to_prim b)%float)
      && Bool.eqb (fle a b) (to_prim a <=? to_prim b)%float
      && Bool.eqb (flt a b) (to_prim a <? to_prim b)%float) samples) samples
  = true.
Proof. vm_compute. reflexivity. Qed.



(** *** Every run ends in a report *)




(** *** The last marker line *)

(** C3: when the marker pattern matches several times, the grade is the one
    the first captured number of the last match leads to, whatever the
    earlier matches and the second number are; with the matches
    [0.01, ...] then [0.0055, ...] the value graded is 0.0055, its relative
    error is within the tolerance and printed as 10.00%, and the score is
    10.0. *)
Theorem last_match_is_graded (output : string) (ms : list (list string))
    (first second : string) :
  Re.findall ideal_point output = (ms ++ [[first; second]])%list ->
  grade_result (Some output) = graded_on first
  /\ (first = "0.0055" ->
      exists error,
        float_of_str first = Ok (literal 55 4)
        /\ relative_error (literal 55 4) = Ok error
        /\ fle error TOLERANCE = true
        /\ format_pct 2 error = "10.00%"
        /\ grade_result (Some output)
           = Ok (Float (literal 100 1),
                 feedback_text (literal 55 4) error (literal 100 1))).
Proof.
  intros H. pose proof (grade_result_last _ _ _ _ H) as G. split; [exact G|].
  intros ->. rewrite G.
  exists (fdiv (fabs (fsub (literal 55 4) OPTIMAL_F1)) OPTIMAL_F1).
  repeat split; vm_compute; reflexivity.
Qed.

Lemma last_match_is_graded_witness :
  let output := "Ideal point: z = [0.01, 0.2]" ++ Str.nl
                ++ "Ideal point: z = [0.0055, 0.3]" in
  Re.findall ideal_point output = [["0.01"; "0.2"]; ["0.0055"; "0.3"]]
  /\ exists feedback,
       grade_result (Some output) = Ok (Float (literal 100 1), feedback).
Proof.
  cbv zeta.
  assert (H : Re.findall ideal_point
                ("Ideal point: z = [0.01, 0.2]" ++ Str.nl
                 ++ "Ideal point: z = [0.0055, 0.3]")
              = ([["0.01"; "0.2"]] ++ [["0.0055"; "0.3"]])%list)
    by (vm_compute; reflexivity).
  split; [exact H|].
  destruct (proj2 (last_match_is_graded _ _ _ _ H) eq_refl)
    as (error & _ & _ & _ & _ & G).
  eexists. exact G.
Defined.

(** C8: when the pattern is found nowhere in the output the grade is the
    integer 0 with the could-not-find message, and when it is found but the
    first captured number of the last match does not convert to a float the
    grade is the integer 0 with the could-not-parse message. *)
Theorem unusable_output_scores_zero (output : string) :
  (Re.findall ideal_point output = [] ->
   grade_result (Some output) = Ok (Int 0, not_found))
  /\ (forall ms first rest e,
        Re.findall ideal_point output = (ms ++ [first :: rest])%list ->
        float_of_str first = Raise e ->
        grade_result (Some output) = Ok (Int 0, not_parsed)).
Proof.
  split.
  - apply grade_result_none.
  - intros ms first rest e H V.
    rewrite (grade_result_last _ _ _ _ H). unfold graded_on. now rewrite V.
Qed.

Lemma unusable_output_scores_zero_witness :
  (Re.findall ideal_point "Generation 12 done" = []
   /\ grade_result (Some "Generation 12 done") = Ok (Int 0, not_found))
  /\ (Re.findall ideal_point "Ideal point: z = [1.2.3, 4]" = [["1.2.3"; "4"]]
      /\ float_of_str "1.2.3" = Raise could_not_convert
      /\ grade_result (Some "Ideal point: z = [1.2.3, 4]") = Ok (Int 0, not_parsed)).
Proof.
  split.
  - split; [reflexivity|].
    apply (proj1 (unusable_output_scores_zero "Generation 12 done")). reflexivity.
  - split; [reflexivity|]. split; [reflexivity|].
    apply (proj2 (unusable_output_scores_zero "Ideal point: z = [1.2.3, 4]")
                 [] "1.2.3" ["4"] could_not_convert); reflexivity.
Defined.

(** C10: the two numbers of a match are always unsigned runs of digits and
    points; a marker line whose first number carries a sign or an exponent
    is never matched, so the matches of the output are those of the text
    before it followed by those of the text after it: the output is graded
    as marker-not-found when there are none, and by the last plain-decimal
    match before the line when the text after it has none. *)
Theorem signed_or_exponent_line_is_not_matched (before n1 ws n2 after : string) :
  all number_char n1 = true ->
  all Re.digit_or_dot n1 = false ->
  all Re.space ws = true ->
  all number_char n2 = true ->
  let output := before ++ marker_line n1 ws n2 ++ after in
  Forall (fun m => exists g1 g2,
                     m = [g1; g2] /\ unsigned_decimal g1 /\ unsigned_decimal g2)
         (Re.findall ideal_point output)
  /\ Re.findall ideal_point output
     = (Re.findall ideal_point before ++ Re.findall ideal_point after)%list
  /\ (Re.findall ideal_point before = [] ->
      Re.findall ideal_point after = [] ->
      grade_result (Some output) = Ok (Int 0, not_found))
  /\ (forall ms first rest,
        Re.findall ideal_point before = (ms ++ [first :: rest])%list ->
        Re.findall ideal_point after = [] ->
        grade_result (Some output) = graded_on first
        /\ grade_result (Some output) = grade_result (Some before)).
Proof.
  intros N1 D1 W N2 output.
  pose proof (signed_line_never_matched before n1 ws n2 after N1 D1 W N2) as E.
  fold output in E. split; [apply findall_groups|]. split; [exact E|]. split.
  - intros B A. apply grade_result_none. now rewrite E, B, A.
  - intros ms first rest B A.
    assert (E' : Re.findall ideal_point output = (ms ++ [first :: rest])%list)
      by (now rewrite E, B, A, app_nil_r).
    rewrite (grade_result_last _ _ _ _ E'), (grade_result_last _ _ _ _ B). auto.
Qed.

Lemma signed_or_exponent_line_is_not_matched_witness :
  let before := "Ideal point: z = [0.0075, 0.3]" ++ Str.nl in
  let output := before ++ marker_line "5e-3" " " "-0.1" ++ "" in
  (all number_char "5e-3" = true /\ all Re.digit_or_dot "5e-3" = false
   /\ all Re.space " " = true /\ all number_char "-0.1" = true)
  /\ Re.findall ideal_point output = [["0.0075"; "0.3"]]
  /\ grade_result (Some output) = graded_on "0.0075".
Proof.
  cbv zeta. split; [repeat split; reflexivity|].
  destruct (signed_or_exponent_line_is_not_matched
              ("Ideal point: z = [0.0075, 0.3]" ++ Str.nl) "5e-3" " " "-0.1" ""
              eq_refl eq_refl eq_refl eq_refl) as (_ & E & _ & G).
  split; [exact E|].
  apply (G [] "0.0075" ["0.3"]); reflexivity.
Defined.

(** A negative first number on the only marker line: not found. *)
Example negative_value_not_found :
  grade_result (Some "Ideal point: z = [-0.005, 0.1]") = Ok (Int 0, not_found).
Proof. reflexivity. Qed.

(** *** The extracted program *)

(** C4: the extracted program is the concatenation, in document order, of
    the bodies of the code cells, each followed by a newline, in which every
    line that contains the sentinel has been replaced by the statement [1];
    it depends on the cells of the notebook only. *)
Theorem extraction_is_line_replacement (nb : notebook) :
  full_code_of nb = extracted_program nb
  /\ (forall c, Re.sub placeholder "1" (source c)
                = join_lines (map clean_line (split_lines (source c))))
  /\ (forall nb', cells nb' = cells nb -> full_code_of nb' = full_code_of nb).
Proof.
  split; [|split].
  - unfold full_code_of, extracted_program. now rewrite full_code_loop.
  - intros c. apply sub_placeholder_lines.
  - intros nb' E. unfold full_code_of. now rewrite E.
Qed.

Example extraction_of_homework :
  full_code_of homework
  = "n_subproblems = 50" ++ Str.nl ++ "1" ++ Str.nl
    ++ "run_moead_heatsink()" ++ Str.nl.
Proof. reflexivity. Qed.

(** *** The gate, the timeout and the exit code *)

(** C5: when the extracted program contains the literal
    [n_subproblems = 1], [execute_notebook] returns the configuration
    message without touching the world, and the run consists of the report
    alone, with the integer score 0: no command is run. *)
Theorem configuration_gate_short_circuits (w : world) (nb : notebook) :
  nbformat_read w notebook_path = Ok nb ->
  Str.contains "n_subproblems = 1" (full_code_of nb) = true ->
  execute_notebook w notebook_path [] = (Ok (None, Some parameters_not_set), [])
  /\ run w = (Ok tt, [report (Int 0) parameters_not_set])
  /\ existsb is_run (snd (run w)) = false
  /\ Str.contains "complete the configuration" parameters_not_set = true.
Proof.
  intros R G. pose proof (execute_gate w _ nb [] R G) as E.
  assert (M : run w = (Ok tt, [report (Int 0) parameters_not_set])).
  { unfold run. apply (main_error w [] _ [] E). discriminate. }
  split; [exact E|]. split; [exact M|]. rewrite M. split; reflexivity.
Qed.

Lemma configuration_gate_short_circuits_witness :
  nbformat_read (world_of (Ok unconfigured) (Ok Hangs)) notebook_path = Ok unconfigured
  /\ Str.contains "n_subproblems = 1" (full_code_of unconfigured) = true
  /\ run (world_of (Ok unconfigured) (Ok Hangs))
     = (Ok tt, [report (Int 0) parameters_not_set]).
Proof.
  split; [reflexivity|]. split; [reflexivity|].
  apply (configuration_gate_short_circuits
           (world_of (Ok unconfigured) (Ok Hangs)) unconfigured eq_refl eq_refl).
Defined.

(** C6: when the child is still running after 240 seconds (it exits later,
    or never), [subprocess.run] kills it and [execute_notebook] returns the
    timed-out message; the run is one command, its kill and the report with
    the integer score 0: the command is not run a second time. *)
Theorem timeout_is_reported_once (w : world) (nb : notebook) :
  nbformat_read w notebook_path = Ok nb ->
  Str.contains "n_subproblems = 1" (full_code_of nb) = false ->
  (popen w (command w nb) = Ok Hangs
   \/ exists seconds c,
        popen w (command w nb) = Ok (Exits seconds c) /\ (240 < seconds)%Q) ->
  execute_notebook w notebook_path []
  = (Ok (None, Some timed_out), [Run (command w nb) 240; Kill (command w nb)])
  /\ run w = (Ok tt, [Run (command w nb) 240; Kill (command w nb);
                      report (Int 0) timed_out])
  /\ List.length (filter is_run (snd (run w))) = 1%nat
  /\ Str.contains "timed out" timed_out = true.
Proof.
  intros R G P.
  assert (E : execute_notebook w notebook_path []
              = (Ok (None, Some timed_out),
                 [Run (command w nb) 240; Kill (command w nb)])).
  { rewrite (execute_run w _ nb [] R G).
    destruct P as [->|(seconds & c & -> & T)]; [reflexivity|].
    destruct (Qle_bool seconds 240) eqn:B; [|reflexivity].
    apply Qle_bool_iff in B. exfalso. apply (Qlt_not_le _ _ T B). }
  assert (M : run w = (Ok tt, [Run (command w nb) 240; Kill (command w nb);
                               report (Int 0) timed_out])).
  { unfold run. apply (main_error w [] _ _ E). discriminate. }
  split; [exact E|]. split; [exact M|]. rewrite M. split; reflexivity.
Qed.

Lemma timeout_is_reported_once_witness :
  let slow := Ok (Exits 241 {| returncode := 0;
                               stdout := "Ideal point: z = [0.005, 0.1]";
                               stderr := "" |}) in
  let w := world_of (Ok homework) slow in
  (popen w (command w homework) = slow /\ (240 < 241)%Q)
  /\ run w = (Ok tt, [Run (command w homework) 240; Kill (command w homework);
                      report (Int 0) timed_out]).
Proof.
  cbv zeta. split; [split; reflexivity|].
  refine (proj1 (proj2 (timeout_is_reported_once
                          (world_of (Ok homework) _) homework eq_refl eq_refl _))).
  right. eexists _, _. split; reflexivity.
Defined.

(** C7, as the program has it: when the child exits in time with a
    non-zero code, the diagnostic is the fixed line
    [Code execution failed with an error:] followed by the captured standard
    error, unchanged; the report carries it with the integer score 0. *)
Theorem nonzero_exit_reports_stderr (w : world) (nb : notebook)
    (seconds : Q) (c : completed) :
  nbformat_read w notebook_path = Ok nb ->
  Str.contains "n_subproblems = 1" (full_code_of nb) = false ->
  popen w (command w nb) = Ok (Exits seconds c) ->
  (seconds <= 240)%Q ->
  returncode c <> 0 ->
  execute_notebook w notebook_path []
  = (Ok (None, Some ("Code execution failed with an error:" ++ Str.nl ++ stderr c)),
     [Run (command w nb) 240])
  /\ run w = (Ok tt, [Run (command w nb) 240;
                      report (Int 0) (execution_failed (stderr c))]).
Proof.
  intros R G P T C.
  assert (E : execute_notebook w notebook_path []
              = (Ok (None, Some (execution_failed (stderr c))),
                 [Run (command w nb) 240])).
  { rewrite (execute_run w _ nb [] R G), P. apply Qle_bool_iff in T. rewrite T.
    apply Z.eqb_neq in C. now rewrite C. }
  split; [exact E|]. unfold run. apply (main_error w [] _ _ E). discriminate.
Qed.

Lemma nonzero_exit_reports_stderr_witness :
  let w := world_of (Ok homework) (prints 1 "" "NameError: name 'x' is not defined") in
  (popen w (command w homework)
   = prints 1 "" "NameError: name 'x' is not defined"
   /\ (3 <= 240)%Q /\ 1 <> 0)
  /\ run w = (Ok tt, [Run (command w homework) 240;
                      report (Int 0)
                        (execution_failed "NameError: name 'x' is not defined")]).
Proof.
  cbv zeta. split; [repeat split; [discriminate | discriminate]|].
  refine (proj2 (nonzero_exit_reports_stderr
                   (world_of (Ok homework) _) homework 3 _ eq_refl eq_refl eq_refl _ _));
    discriminate.
Defined.

(** The diagnostic of a failed child is not its bare standard error: a
    child that writes [boom] and exits with code 1 is reported with the
    header line before [boom]. *)
Lemma diagnostic_is_not_bare_stderr :
  fst (execute_notebook (world_of (Ok homework) (prints 1 "" "boom")) notebook_path [])
  = Ok (None, Some ("Code execution failed with an error:" ++ Str.nl ++ "boom"))
  /\ fst (execute_notebook (world_of (Ok homework) (prints 1 "" "boom"))
                           notebook_path [])
     <> Ok (None, Some "boom").
Proof. split; [reflexivity | discriminate]. Qed.

(** *** The score along the decay *)

(** C9, as the program has it: on relative errors strictly between 0.10 and
    1.0 the reported score is defined and never increases with the error;
    being rounded to two decimals it is a multiple of 0.01 between 0.0 and
    10.0 (so it moves in steps and is constant in between), it is 10.0 for
    errors up to 0.1004 and 0.0 for errors from 0.9996. *)
Theorem reported_score_never_increases (e1 e2 : float) :
  flt TOLERANCE e1 = true ->
  fle e1 e2 = true ->
  flt e2 (literal 10 1) = true ->
  exists s1 s2 k1 k2,
    score_of_error e1 = Ok s1 /\ score_of_error e2 = Ok s2
    /\ fle s2 s1 = true
    /\ (0 <= k2 <= 1000 /\ s2 = rnd (inject_Z k2 / 100))
    /\ (0 <= k1 <= 1000 /\ s1 = rnd (inject_Z k1 / 100))
    /\ (fle e1 (literal 1004 4) = true -> s1 = literal 100 1)
    /\ (fle (literal 9996 4) e2 = true -> s2 = literal 0 1).
Proof.
  intros A M B.
  destruct (score_of_error_total e1) as (s1 & k1 & R1 & _ & _ & K1 & E1).
  destruct (score_of_error_total e2) as (s2 & k2 & R2 & _ & _ & K2 & E2).
  exists s1, s2, k1, k2. split; [exact R1|]. split; [exact R2|].
  split; [exact (score_band_mono e1 e2 s1 s2 A M B R1 R2)|].
  split; [now split|]. split; [now split|]. split.
  - intros T. exact (score_plateau_top e1 s1 A T R1).
  - intros T. exact (score_plateau_bottom e2 s2 T B R2).
Qed.

Lemma reported_score_never_increases_witness :
  (flt TOLERANCE (literal 3 1) = true
   /\ fle (literal 3 1) (literal 7 1) = true
   /\ flt (literal 7 1) (literal 10 1) = true)
  /\ exists s1 s2,
       score_of_error (literal 3 1) = Ok s1 /\ score_of_error (literal 7 1) = Ok s2
       /\ fle s2 s1 = true.
Proof.
  split; [repeat split; reflexivity|].
  destruct (reported_score_never_increases (literal 3 1) (literal 7 1)
              eq_refl eq_refl eq_refl) as (s1 & s2 & _ & _ & R1 & R2 & M & _).
  exists s1, s2. auto.
Defined.

(** Two student values with different relative errors inside the band and
    the same reported score: 0.0075 has the error 0.4999999999999999,
    0.0075001 the larger error 0.50002, and both are reported with 5.56. *)
Lemma reported_score_not_strictly_decreasing :
  relative_error (literal 75 4) = Ok (literal 4999999999999999 16)
  /\ relative_error (literal 75001 7) = Ok (literal 50002 5)
  /\ flt TOLERANCE (literal 4999999999999999 16) = true
  /\ flt (literal 4999999999999999 16) (literal 50002 5) = true
  /\ flt (literal 50002 5) (literal 10 1) = true
  /\ score_of_error (literal 4999999999999999 16) = Ok (literal 556 2)
  /\ score_of_error (literal 50002 5) = Ok (literal 556 2)
  /\ fmap_score (grade_result (Some "Ideal point: z = [0.0075, 0.3]"))
     = Some (Float (literal 556 2))
  /\ fmap_score (grade_result (Some "Ideal point: z = [0.0075001, 0.3]"))
     = Some (Float (literal 556 2)).
Proof. vm_compute. repeat split. Qed.

(* ================================================================== *)
(** * Further properties of the program *)
(* ================================================================== *)

Import ValueFacts ParseFacts LineFacts MarkerFacts ReportFacts JsonFacts.

(** *** The score as a function of the student value *)

(** X1: of two student values on the same side of the optimum 0.005, the one
    closer to it never gets the lower score: above the optimum the score
    does not increase with the value, below it the score does not decrease
    (infinite values included). *)
Theorem closer_value_scores_no_less (v1 v2 : float) :
  fle v1 v2 = true ->
  (fle OPTIMAL_F1 v1 = true ->
   exists s1 s2, score_of_value v1 = Some (Float s1)
                 /\ score_of_value v2 = Some (Float s2) /\ fle s2 s1 = true)
  /\ (fle v2 OPTIMAL_F1 = true ->
      exists s1 s2, score_of_value v1 = Some (Float s1)
                    /\ score_of_value v2 = Some (Float s2) /\ fle s1 s2 = true).
Proof.
  intros M.
  destruct (score_of_value_eq v1) as (s1 & _ & R1 & _).
  destruct (score_of_value_eq v2) as (s2 & _ & R2 & _).
  split; intros A; exists s1, s2; (split; [exact R1|]); (split; [exact R2|]).
  - exact (score_closer_above v1 v2 s1 s2 A M R1 R2).
  - exact (score_closer_below v1 v2 s1 s2 M A R1 R2).
Qed.

Lemma closer_value_scores_no_less_witness :
  fle (literal 6 3) (literal 8 3) = true
  /\ fle OPTIMAL_F1 (literal 6 3) = true
  /\ exists s1 s2, score_of_value (literal 6 3) = Some (Float s1)
                   /\ score_of_value (literal 8 3) = Some (Float s2)
                   /\ fle s2 s1 = true.
Proof.
  split; [vm_compute; reflexivity|]. split; [vm_compute; reflexivity|].
  apply (proj1 (closer_value_scores_no_less (literal 6 3) (literal 8 3) eq_refl)).
  vm_compute; reflexivity.
Defined.

(** X2: the student values that get full marks are exactly those from
    0.004497750000000001 to 0.005502249999999999: every value in between
    scores 10.0, and from the neighbouring floats 0.00449775 and 0.00550225
    outwards the score is at most 9.99. *)
Theorem full_marks_window (v : float) :
  (fle (literal 4497750000000001 18) v = true ->
   fle v (literal 5502249999999999 18) = true ->
   score_of_value v = Some (Float (literal 100 1)))
  /\ (fle v (literal 449775 8) = true \/ fle (literal 550225 8) v = true ->
      exists s, score_of_value v = Some (Float s) /\ fle s (literal 999 2) = true)
  /\ (exists m e, literal 449775 8 = Fin m e
                  /\ literal 4497750000000001 18 = Fin (m + 1) e)
  /\ (exists m e, literal 5502249999999999 18 = Fin m e
                  /\ literal 550225 8 = Fin (m + 1) e).
Proof.
  assert (LO : score_of_value (literal 4497750000000001 18) = Some (Float ten))
    by (vm_compute; reflexivity).
  assert (HI : score_of_value (literal 5502249999999999 18) = Some (Float ten))
    by (vm_compute; reflexivity).
  assert (LO' : score_of_value (literal 449775 8) = Some (Float (literal 999 2)))
    by (vm_compute; reflexivity).
  assert (HI' : score_of_value (literal 550225 8) = Some (Float (literal 999 2)))
    by (vm_compute; reflexivity).
  assert (B1 : fle (literal 4497750000000001 18) OPTIMAL_F1 = true)
    by (vm_compute; reflexivity).
  assert (B2 : fle OPTIMAL_F1 (literal 5502249999999999 18) = true)
    by (vm_compute; reflexivity).
  assert (B3 : fle (literal 449775 8) OPTIMAL_F1 = true) by (vm_compute; reflexivity).
  assert (B4 : fle OPTIMAL_F1 (literal 550225 8) = true) by (vm_compute; reflexivity).
  destruct (score_of_value_eq v) as (s & k & R & _ & _ & _ & K & E).
  split; [|split; [|split]].
  - intros L U. rewrite R. do 2 f_equal. rewrite literal_ten.
    apply (grid_top s k K E).
    destruct (fle_total OPTIMAL_F1 v (fle_right _ _ B1) (fle_right _ _ L)) as [A|A].
    + exact (score_closer_above v _ s ten A U R HI).
    + exact (score_closer_below _ v ten s L A LO R).
  - intros [U|L]; exists s; (split; [exact R|]).
    + exact (score_closer_below v _ s _ U B3 R LO').
    + exact (score_closer_above _ v _ s B4 L HI' R).
  - vm_compute. eexists _, _. split; reflexivity.
  - vm_compute. eexists _, _. split; reflexivity.
Qed.

Lemma full_marks_window_witness :
  (fle (literal 4497750000000001 18) (literal 52 4) = true
   /\ fle (literal 52 4) (literal 5502249999999999 18) = true)
  /\ score_of_value (literal 52 4) = Some (Float (literal 100 1)).
Proof.
  split; [split; vm_compute; reflexivity|].
  apply (proj1 (full_marks_window (literal 52 4))); vm_compute; reflexivity.
Defined.

(** X3: the student values that score nothing are exactly those up to
    2.250000000000082e-06 and those from 0.009997750000000001 (infinity
    included): they get 0.0, and every value between the neighbouring floats
    2.2500000000000822e-06 and 0.00999775 gets at least 0.01. *)
Theorem zero_score_region (v : float) :
  (fle v (literal 2250000000000082 21) = true
   \/ fle (literal 9997750000000001 18) v = true ->
   score_of_value v = Some (Float (literal 0 1)))
  /\ (fle (literal 22500000000000822 22) v = true ->
      fle v (literal 999775 8) = true ->
      exists s, score_of_value v = Some (Float s) /\ fle (literal 1 2) s = true)
  /\ (exists m e, literal 2250000000000082 21 = Fin m e
                  /\ literal 22500000000000822 22 = Fin (m + 1) e)
  /\ (exists m e, literal 999775 8 = Fin m e
                  /\ literal 9997750000000001 18 = Fin (m + 1) e).
Proof.
  assert (LO : score_of_value (literal 2250000000000082 21) = Some (Float zero))
    by (vm_compute; reflexivity).
  assert (HI : score_of_value (literal 9997750000000001 18) = Some (Float zero))
    by (vm_compute; reflexivity).
  assert (LO' : score_of_value (literal 22500000000000822 22)
                = Some (Float (literal 1 2))) by (vm_compute; reflexivity).
  assert (HI' : score_of_value (literal 999775 8) = Some (Float (literal 1 2)))
    by (vm_compute; reflexivity).
  assert (B1 : fle (literal 2250000000000082 21) OPTIMAL_F1 = true)
    by (vm_compute; reflexivity).
  assert (B2 : fle OPTIMAL_F1 (literal 9997750000000001 18) = true)
    by (vm_compute; reflexivity).
  assert (B3 : fle (literal 22500000000000822 22) OPTIMAL_F1 = true)
    by (vm_compute; reflexivity).
  assert (B4 : fle OPTIMAL_F1 (literal 999775 8) = true) by (vm_compute; reflexivity).
  destruct (score_of_value_eq v) as (s & k & R & _ & _ & _ & K & E).
  split; [|split; [|split]].
  - intros H. rewrite R. do 2 f_equal. rewrite literal_zero.
    apply (grid_bottom s k K E). destruct H as [U|L].
    + exact (score_closer_below v _ s zero U B1 R LO).
    + exact (score_closer_above _ v zero s B2 L HI R).
  - intros L U. exists s. split; [exact R|].
    destruct (fle_total OPTIMAL_F1 v (fle_right _ _ B1) (fle_right _ _ L)) as [A|A].
    + exact (score_closer_above v _ s _ A U R HI').
    + exact (score_closer_below _ v _ s L A LO' R).
  - vm_compute. eexists _, _. split; reflexivity.
  - vm_compute. eexists _, _. split; reflexivity.
Qed.

Lemma zero_score_region_witness :
  fle (literal 9997750000000001 18) (literal 2 2) = true
  /\ score_of_value (literal 2 2) = Some (Float (literal 0 1)).
Proof.
  split; [vm_compute; reflexivity|].
  apply (proj1 (zero_score_region (literal 2 2))). right. vm_compute; reflexivity.
Defined.

(** *** The number on the last marker line *)

(** X4: the first number of the last match converts to a float exactly when it
    holds at most one point and at least one digit: otherwise the grade is
    the integer 0 with the could-not-parse message; when it does, the
    student value is not negative (and not NaN) and the grade is the one
    computed from it. *)
Theorem last_number_parses_iff_plain_decimal (output : string)
    (ms : list (list string)) (first second : string) :
  Re.findall ideal_point output = (ms ++ [[first; second]])%list ->
  (plain_decimal first = false ->
   grade_result (Some output) = Ok (Int 0, not_parsed))
  /\ (plain_decimal first = true ->
      exists v, float_of_str first = Ok v /\ fle zero v = true
                /\ grade_result (Some output) = grade_value v).
Proof.
  intros H. rewrite (grade_result_last _ _ _ _ H). unfold graded_on.
  assert (U : unsigned_decimal first).
  { pose proof (findall_groups output) as G. rewrite H in G.
    apply Forall_app in G as (_ & G). inversion G as [|? ? (g1 & g2 & E & U & _) _]; subst.
    now injection E as -> ->. }
  pose proof (float_of_unsigned_cases first U) as C.
  split; intros P; rewrite P in C.
  - now rewrite C.
  - destruct C as (v & E & N). exists v. now rewrite E.
Qed.

Lemma last_number_parses_iff_plain_decimal_witness :
  Re.findall ideal_point "Ideal point: z = [.5.,1]" = [[".5."; "1"]]
  /\ plain_decimal ".5." = false
  /\ grade_result (Some "Ideal point: z = [.5.,1]") = Ok (Int 0, not_parsed).
Proof.
  split; [reflexivity|]. split; [reflexivity|].
  apply (proj1 (last_number_parses_iff_plain_decimal
                  "Ideal point: z = [.5.,1]" [] ".5." "1" eq_refl)).
  reflexivity.
Defined.

(** X5: [float()] reads digits, a point and digits as the float nearest to the
    decimal number written, the float a literal with the same digits denotes
    in the source; either run of digits may be empty, not both, and digits
    alone read as the integer they write. *)
Theorem decimal_text_reads_as_literal (ip fp : string) :
  all is_digit ip = true -> all is_digit fp = true ->
  (ip ++ fp <> "" ->
   float_of_str (ip ++ "." ++ fp)
   = Ok (literal (digits_val 0 (ip ++ fp)) (String.length fp)))
  /\ (ip <> "" -> float_of_str ip = Ok (literal (digits_val 0 ip) 0)).
Proof.
  intros I F.
  assert (D : forall d, all is_digit d = true -> all Re.digit_or_dot d = true).
  { intros d. apply all_impl. intros c H. unfold Re.digit_or_dot. cbv zeta.
    unfold is_digit in H. cbv zeta in H. now rewrite H. }
  split; intros N.
  - assert (U : unsigned_decimal (ip ++ "." ++ fp)).
    { split; [destruct ip; discriminate|].
      rewrite !all_app, (D _ I), (D _ F). reflexivity. }
    rewrite (float_of_unsigned _ U). cbn [append].
    rewrite (decimal_value_point _ _ I F).
    destruct (_ =? 0)%nat eqn:Z.
    { apply Nat.eqb_eq in Z. destruct ip, fp; try discriminate Z. now elim N. }
    apply f_equal. unfold literal. apply rnd_compat. unfold Qdiv.
    now rewrite pow10_neg.
  - assert (U : unsigned_decimal ip) by (split; [exact N | exact (D _ I)]).
    rewrite (float_of_unsigned _ U), (decimal_value_digits _ I).
    destruct ip as [|c ip]; [now elim N|]. cbn [String.length Nat.eqb].
    apply f_equal. unfold literal. apply rnd_compat. reflexivity.
Qed.

Lemma decimal_text_reads_as_literal_witness :
  (all is_digit "0" = true /\ all is_digit "0055" = true /\ "0" ++ "0055" <> "")
  /\ float_of_str "0.0055" = Ok (literal 55 4).
Proof.
  split; [repeat split; discriminate|].
  apply (proj1 (decimal_text_reads_as_literal "0" "0055" eq_refl eq_refl)).
  discriminate.
Defined.

(** *** What the marker pattern accepts *)

(** X6: the case of letters does not matter to the grade: two outputs that are
    the same once their ASCII letters are put in lower case have the same
    matches and get the same score and feedback. *)
Theorem letter_case_does_not_matter (output1 output2 : string) :
  lower_str output1 = lower_str output2 ->
  Re.findall ideal_point output1 = Re.findall ideal_point output2
  /\ grade_result (Some output1) = grade_result (Some output2).
Proof.
  intros H. split.
  - now rewrite <- (findall_lower output1), <- (findall_lower output2), H.
  - now rewrite <- (grade_result_lower output1), <- (grade_result_lower output2), H.
Qed.

Lemma letter_case_does_not_matter_witness :
  lower_str "IDEAL POINT: Z = [0.0052, 1.5]" = lower_str "Ideal point: z = [0.0052, 1.5]"
  /\ grade_result (Some "IDEAL POINT: Z = [0.0052, 1.5]")
     = grade_result (Some "Ideal point: z = [0.0052, 1.5]").
Proof.
  split; [reflexivity|].
  apply (proj2 (letter_case_does_not_matter
                  "IDEAL POINT: Z = [0.0052, 1.5]" "Ideal point: z = [0.0052, 1.5]"
                  eq_refl)).
Defined.

(** X7: a marker line [Ideal point: z = [n1,<ws>n2]] with two runs of digits
    and points and any white space after the comma (none, blanks, tabs,
    line feeds) is matched wherever it stands, with the groups [n1] and
    [n2]; when nothing after it matches, the output is graded on [n1]. *)
Theorem well_formed_marker_line_is_found (before n1 ws n2 after : string) :
  unsigned_decimal n1 -> unsigned_decimal n2 -> all Re.space ws = true ->
  Re.findall ideal_point (before ++ marker_line n1 ws n2 ++ after)
  = (Re.findall ideal_point before ++ [n1; n2] :: Re.findall ideal_point after)%list
  /\ (Re.findall ideal_point after = [] ->
      grade_result (Some (before ++ marker_line n1 ws n2 ++ after)) = graded_on n1).
Proof.
  intros U1 U2 W.
  pose proof (findall_marker_line before n1 ws n2 after U1 U2 W) as F.
  split; [exact F|]. intros A. rewrite A in F.
  exact (grade_result_last _ _ _ _ F).
Qed.

Lemma well_formed_marker_line_is_found_witness :
  let ws := String Str.newline " " in
  (unsigned_decimal "0.0052" /\ unsigned_decimal "1." /\ all Re.space ws = true)
  /\ Re.findall ideal_point ("gen 7: " ++ marker_line "0.0052" ws "1." ++ " done")
     = [["0.0052"; "1."]].
Proof.
  cbv zeta.
  assert (U1 : unsigned_decimal "0.0052") by (split; [discriminate | reflexivity]).
  assert (U2 : unsigned_decimal "1.") by (split; [discriminate | reflexivity]).
  split; [split; [exact U1 | split; [exact U2 | reflexivity]]|].
  exact (proj1 (well_formed_marker_line_is_found
                  "gen 7: " "0.0052" (String Str.newline " ") "1." " done"
                  U1 U2 eq_refl)).
Defined.

(** X8: the first number has to be there and a comma has to follow it at once:
    marker text in which the digits and points after the bracket are missing,
    or are followed by anything but a comma (a blank before the comma, a
    closing bracket, a second number without a comma), is not a match, and
    the search goes on after it. *)
Theorem first_number_needs_a_comma_at_once (before n1 : string) (c : ascii)
    (rest : string) :
  all Re.digit_or_dot n1 = true ->
  Re.digit_or_dot c = false ->
  n1 = "" \/ c <> ","%char ->
  Re.findall ideal_point (before ++ "Ideal point: z = [" ++ n1 ++ String c rest)
  = (Re.findall ideal_point before ++ Re.findall ideal_point (String c rest))%list.
Proof.
  intros A C H.
  assert (S : Re.findall ideal_point ("Ideal point: z = [" ++ n1 ++ String c rest)
              = Re.findall ideal_point (String c rest)).
  { pose proof (parse_marker_no_comma n1 c rest A C H) as P.
    set (y := n1 ++ String c rest) in *. cbn [append] in P |- *.
    rewrite (findall_ideal_nomatch _ _ P).
    do 17 (rewrite findall_ideal_nomatch by reflexivity).
    subst y. apply findall_skip_no_i. exact (all_impl _ _ _ digit_not_i A). }
  rewrite <- S. cbn [append]. apply findall_before_marker.
Qed.

Lemma first_number_needs_a_comma_at_once_witness :
  (all Re.digit_or_dot "0.005" = true /\ Re.digit_or_dot " " = false
   /\ " "%char <> ","%char)
  /\ grade_result (Some ("Ideal point: z = [" ++ "0.005" ++ String " " "1.2]"))
     = Ok (Int 0, not_found).
Proof.
  assert (N : " "%char <> ","%char) by discriminate.
  split; [split; [reflexivity | split; [reflexivity | exact N]]|].
  apply grade_result_none.
  exact (first_number_needs_a_comma_at_once "" "0.005" " " "1.2]"
           eq_refl eq_refl (or_intror N)).
Defined.

(** X9: the second number is not graded, but it decides whether the line is
    seen: a marker line whose first number is plain and whose second number
    carries a sign or an exponent (a small value printed as [1e-05], a
    negative one) is not a match, and the matches of the output are those of
    the text before the line followed by those of the text after it. *)
Theorem second_number_must_be_plain_too (before n1 ws n2 after : string) :
  unsigned_decimal n1 -> all Re.space ws = true ->
  all number_char n2 = true -> all Re.digit_or_dot n2 = false ->
  Re.findall ideal_point (before ++ marker_line n1 ws n2 ++ after)
  = (Re.findall ideal_point before ++ Re.findall ideal_point after)%list
  /\ (Re.findall ideal_point before = [] -> Re.findall ideal_point after = [] ->
      grade_result (Some (before ++ marker_line n1 ws n2 ++ after))
      = Ok (Int 0, not_found)).
Proof.
  intros U1 W N2 D2.
  assert (S : Re.findall ideal_point (marker_line n1 ws n2 ++ after)
              = Re.findall ideal_point after).
  { pose proof (parse_marker_second n1 ws n2 after U1 W N2 D2) as P.
    unfold marker_line in *.
    replace (("Ideal point: z = [" ++ n1 ++ "," ++ ws ++ n2 ++ "]") ++ after)
      with ("Ideal point: z = [" ++ (n1 ++ "," ++ ws ++ n2 ++ "]") ++ after)
      in * by str_assoc.
    set (y := (n1 ++ "," ++ ws ++ n2 ++ "]") ++ after) in *.
    cbn [append] in P |- *.
    rewrite (findall_ideal_nomatch _ _ P).
    do 17 (rewrite findall_ideal_nomatch by reflexivity).
    subst y. apply findall_skip_no_i.
    destruct U1 as (_ & A1). rewrite !all_app. cbn [all].
    rewrite (all_impl _ _ _ digit_not_i A1), (all_impl _ _ _ space_not_i W),
      (all_impl _ _ _ number_char_not_i N2). reflexivity. }
  assert (F : Re.findall ideal_point (before ++ marker_line n1 ws n2 ++ after)
              = (Re.findall ideal_point before ++ Re.findall ideal_point after)%list).
  { rewrite <- S. unfold marker_line.
    replace (("Ideal point: z = [" ++ n1 ++ "," ++ ws ++ n2 ++ "]") ++ after)
      with ("Ideal point: z = [" ++ n1 ++ "," ++ ws ++ n2 ++ "]" ++ after)
      by str_assoc.
    cbn [append]. apply findall_before_marker. }
  split; [exact F|]. intros B A. apply grade_result_none. now rewrite F, B, A.
Qed.

Lemma second_number_must_be_plain_too_witness :
  (unsigned_decimal "0.005" /\ all Re.space " " = true
   /\ all number_char "1e-05" = true /\ all Re.digit_or_dot "1e-05" = false)
  /\ grade_result (Some ("" ++ marker_line "0.005" " " "1e-05" ++ ""))
     = Ok (Int 0, not_found).
Proof.
  assert (U : unsigned_decimal "0.005") by (split; [discriminate | reflexivity]).
  split; [split; [exact U | repeat split; reflexivity]|].
  exact (proj2 (second_number_must_be_plain_too "" "0.005" " " "1e-05" ""
                  U eq_refl eq_refl eq_refl) eq_refl eq_refl).
Defined.

(** *** The configuration gate and the substitution, by lines *)

(** X10: the configuration gate looks at the program after the substitution: it
    trips exactly when some line of some code cell holds the text
    [n_subproblems = 1] and is not a placeholder line.  Text in cells of
    other types does not count, nor text on a placeholder line, which has
    become [1] by then. *)
Theorem gate_trips_on_a_code_line (nb : notebook) :
  Str.contains "n_subproblems = 1" (full_code_of nb)
  = existsb trips_gate (code_lines nb).
Proof.
  rewrite full_code_cells.
  rewrite (contains_concat_lines "n_subproblems = 1" ltac:(discriminate) eq_refl).
  unfold code_lines. rewrite existsb_flat_map. apply existsb_ext. intros c.
  unfold replace_placeholder_lines.
  rewrite (contains_join "n_subproblems = 1" ltac:(discriminate) eq_refl).
  rewrite existsb_map. apply existsb_ext. intros l.
  unfold clean_line, trips_gate. destruct (Str.contains sentinel l).
  - now rewrite andb_false_r.
  - now rewrite andb_true_r.
Qed.

(** X11: the gate is a test for a piece of text, not for the value 1: a code
    line with [n_subproblems = 1] anywhere in it, whatever comes before and
    after (more digits, as in [n_subproblems = 100], or a comment), and no
    placeholder on it, ends the run with the configuration message and the
    integer score 0, and no command is run. *)
Theorem setting_that_starts_with_1_is_rejected (w : world) (nb : notebook)
    (c : cell) (before after : string) :
  nbformat_read w notebook_path = Ok nb ->
  In c (cells nb) ->
  cell_type c = "code" ->
  In (before ++ "n_subproblems = 1" ++ after) (split_lines (source c)) ->
  Str.contains sentinel (before ++ "n_subproblems = 1" ++ after) = false ->
  run w = (Ok tt, [report (Int 0) parameters_not_set]).
Proof.
  intros R C T L S.
  assert (G : Str.contains "n_subproblems = 1" (full_code_of nb) = true).
  { rewrite gate_by_lines. apply existsb_exists.
    exists (before ++ "n_subproblems = 1" ++ after). split.
    - unfold code_lines. apply in_flat_map. exists c. split; [|exact L].
      apply filter_In. split; [exact C|]. unfold is_code. rewrite T. reflexivity.
    - unfold trips_gate. rewrite S, contains_app. reflexivity. }
  unfold run. apply (main_error w [] _ []); [|discriminate].
  apply (execute_gate _ _ nb _ R G).
Qed.

Lemma setting_that_starts_with_1_is_rejected_witness :
  let c := {| cell_type := "code";
              source := "n_subproblems = 100" ++ Str.nl ++ "run_moead_heatsink()" |} in
  let w := world_of (Ok {| cells := [c] |})
                    (prints 0 "Ideal point: z = [0.005, 0.1]" "") in
  (In c [c]
   /\ In ("" ++ "n_subproblems = 1" ++ "00") (split_lines (source c))
   /\ Str.contains sentinel ("" ++ "n_subproblems = 1" ++ "00") = false)
  /\ run w = (Ok tt, [report (Int 0) parameters_not_set]).
Proof.
  intros c w.
  assert (C : In c [c]) by (left; reflexivity).
  assert (L : In ("" ++ "n_subproblems = 1" ++ "00") (split_lines (source c)))
    by (left; reflexivity).
  split; [split; [exact C | split; [exact L | reflexivity]]|].
  exact (setting_that_starts_with_1_is_rejected
           w {| cells := [c] |} c "" "00" eq_refl C eq_refl L eq_refl).
Defined.

(** X12: a cell source without the placeholder text goes into the program as it
    is. *)
Theorem source_without_placeholder_is_unchanged (s : string) :
  Str.contains sentinel s = false ->
  Re.sub placeholder "1" s = s.
Proof.
  intros H. rewrite sub_placeholder_lines. unfold replace_placeholder_lines.
  rewrite (contains_lines sentinel ltac:(discriminate) eq_refl) in H.
  rewrite <- (join_split s) at 2. f_equal.
  induction (split_lines s) as [|l ls IH]; [reflexivity|].
  cbn [existsb] in H. apply orb_false_iff in H as (L & H).
  cbn [map]. unfold clean_line at 1. now rewrite L, (IH H).
Qed.

Lemma source_without_placeholder_is_unchanged_witness :
  Str.contains sentinel ("x = 1  # your code here" ++ Str.nl ++ "y = 2") = false
  /\ Re.sub placeholder "1" ("x = 1  # your code here" ++ Str.nl ++ "y = 2")
     = "x = 1  # your code here" ++ Str.nl ++ "y = 2".
Proof.
  split; [reflexivity|].
  apply (source_without_placeholder_is_unchanged
           ("x = 1  # your code here" ++ Str.nl ++ "y = 2")).
  reflexivity.
Defined.

(** X13: the program handed to the child never holds the placeholder text, and
    the substitution changes nothing when it is done a second time. *)
Theorem program_never_holds_the_placeholder (nb : notebook) (s : string) :
  Str.contains sentinel (full_code_of nb) = false
  /\ Str.contains sentinel (Re.sub placeholder "1" s) = false
  /\ Re.sub placeholder "1" (Re.sub placeholder "1" s) = Re.sub placeholder "1" s.
Proof.
  split; [|split].
  - rewrite full_code_cells.
    rewrite (contains_concat_lines sentinel ltac:(discriminate) eq_refl).
    induction (filter is_code (cells nb)) as [|c cs IH]; [reflexivity|].
    cbn [existsb]. rewrite <- sub_placeholder_lines, sub_no_sentinel. exact IH.
  - apply sub_no_sentinel.
  - apply sub_identity, sub_no_sentinel.
Qed.

(** X14: the substitution works line by line and keeps the lines apart: the
    lines of the result are the lines of the source, each placeholder line
    replaced by [1]; the source and the result have the same number of
    lines. *)
Theorem substitution_keeps_the_lines (s : string) :
  split_lines (Re.sub placeholder "1" s) = map clean_line (split_lines s)
  /\ List.length (split_lines (Re.sub placeholder "1" s))
     = List.length (split_lines s).
Proof.
  assert (L : split_lines (Re.sub placeholder "1" s) = map clean_line (split_lines s)).
  { rewrite sub_placeholder_lines. unfold replace_placeholder_lines.
    apply split_join.
    - destruct (split_lines_cons s) as (l & ls & ->). discriminate.
    - pose proof (split_lines_all_dot s) as F.
      induction F as [|l ls Fl _ IH]; constructor;
        [now apply clean_line_dot | exact IH]. }
  rewrite L. split; [reflexivity | apply length_map].
Qed.

(** *** The report of a run *)



(** X17: nothing is lost in the report: two reports with reportable scores that
    print the same line carry the same score text and the same feedback. *)
Theorem report_determines_score_and_feedback (score1 score2 : number)
    (feedback1 feedback2 : string) :
  reportable score1 -> reportable score2 ->
  report score1 feedback1 = report score2 feedback2 ->
  dumps_number score1 = dumps_number score2 /\ feedback1 = feedback2.
Proof.
  intros R1 R2 H. unfold report in H.
  apply (f_equal (fun ev => match ev with Print line => line | _ => "" end)) in H.
  exact (report_injective _ _ _ _ R1 R2 H).
Qed.

Lemma report_determines_score_and_feedback_witness :
  (reportable (Int 0) /\ reportable (Int 0)
   /\ report (Int 0) timed_out = report (Int 0) timed_out)
  /\ dumps_number (Int 0) = dumps_number (Int 0) /\ timed_out = timed_out.
Proof.
  assert (R : reportable (Int 0)) by (left; reflexivity).
  split; [split; [exact R | split; [exact R | reflexivity]]|].
  exact (report_determines_score_and_feedback (Int 0) (Int 0) timed_out timed_out
           R R eq_refl).
Defined.



(** *** The run that is graded *)

(** X20: when the notebook is read, the gate does not trip and the child exits
    within the limit with the code 0, the run is the one command and the
    report of the grade of what the child printed: its standard error and
    the time it took play no part. *)
Theorem successful_run_reports_the_grade (w : world) (nb : notebook)
    (seconds : Q) (c : completed) :
  nbformat_read w notebook_path = Ok nb ->
  Str.contains "n_subproblems = 1" (full_code_of nb) = false ->
  popen w (command w nb) = Ok (Exits seconds c) ->
  (seconds <= 240)%Q ->
  returncode c = 0 ->
  exists score feedback,
    grade_result (Some (stdout c)) = Ok (score, feedback)
    /\ run w = (Ok tt, [Run (command w nb) 240; report score feedback]).
Proof.
  intros R G P T C.
  assert (E : execute_notebook w notebook_path []
              = (Ok (Some (stdout c), None), [Run (command w nb) 240])).
  { rewrite (execute_run w _ nb [] R G), P. apply Qle_bool_iff in T. rewrite T, C.
    reflexivity. }
  destruct (main_output w [] (stdout c) _ E) as (score & feedback & Gr & M).
  exists score, feedback. split; [exact Gr | exact M].
Qed.

Lemma successful_run_reports_the_grade_witness :
  let out := "Ideal point: z = [0.0052, 1.5]" in
  let w := world_of (Ok homework) (prints 0 out "a warning") in
  (popen w (command w homework) = prints 0 out "a warning"
   /\ (3 <= 240)%Q)
  /\ exists score feedback,
       grade_result (Some out) = Ok (score, feedback)
       /\ run w = (Ok tt, [Run (command w homework) 240; report score feedback]).
Proof.
  intros out w.
  assert (T : (3 <= 240)%Q) by discriminate.
  split; [split; [reflexivity | exact T]|].
  exact (successful_run_reports_the_grade
           w homework 3
           {| returncode := 0; stdout := out; stderr := "a warning" |}
           eq_refl eq_refl eq_refl T eq_refl).
Defined.
